(** * DakkeManager: branch reconciliation client and batch-update middleware

    A shallow embedding of the parts of [branch_manager.py] and
    [holoo_api.py] that carry the reconciliation, pagination, retry,
    health-check, dispatch and formatting logic, with the properties the
    design document states about them and further properties read off the
    code.

    Layout:
    - [Py]            : the Python values the code manipulates (JSON scalars,
                        binary64 floats, [str], [float], [int], truthiness,
                        the two [format] specifications used by the code);
    - [BranchManager] : [format_price], [format_number], [HolooAPIClient],
                        [MainWindow.update_table], [MainWindow.fetch_all_data],
                        [MainWindow.do_apply_changes],
                        [MainWindow.check_all_branches];
    - [HolooApi]      : the [/batch/update], [/check/db] and
                        [/article/<code>/update] endpoints of the middleware,
                        [verify_api_key], [execute_with_retry] and the choice
                        of the ODBC driver;
    - [Wire]          : the JSON objects the two programs exchange;
    - [Samples]       : sample data;
    - the modules of facts: first those on the statements of the design
                        document, then further ones on the client, the
                        registry, the dispatch, the table, the formatting,
                        the middleware and the two programs together. *)

From Stdlib Require Import ZArith List Bool Ascii String Lia Permutation.
Import ListNotations.

Local Open Scope string_scope.
Local Open Scope list_scope.
Local Open Scope Z_scope.

(** String concatenation, written [+++] to keep [++] for lists. *)
Infix "+++" := String.append (right associativity, at level 60).

(* ================================================================== *)
(** ** Python values *)
(* ================================================================== *)

Module Py.

(** *** Text helpers *)

(** [str.rstrip(c)] for a one-character set: drops every trailing [c]. *)
Fixpoint rstrip (c : ascii) (s : string) : string :=
  match s with
  | EmptyString => EmptyString
  | String x t =>
      match rstrip c t with
      | EmptyString => if Ascii.eqb x c then EmptyString else String x EmptyString
      | r => String x r
      end
  end.

Definition digit_char (d : Z) : ascii :=
  ascii_of_nat (48 + Z.to_nat d).

(** Decimal digits of a non-negative integer, most significant first. *)
Fixpoint digits_fuel (fuel : nat) (n : Z) (acc : string) : string :=
  match fuel with
  | O => acc
  | S fuel' =>
      let acc' := String (digit_char (n mod 10)) acc in
      if n <? 10 then acc' else digits_fuel fuel' (n / 10) acc'
  end.

Definition digits (n : Z) : string :=
  digits_fuel (S (Z.to_nat (Z.log2 n))) n EmptyString.

(** [str(i)] for a Python [int]. *)
Definition str_int (i : Z) : string :=
  if i <? 0 then "-" +++ digits (- i) else digits i.

(** Left padding with zeros up to [w] characters. *)
Fixpoint zeros (n : nat) : string :=
  match n with
  | O => EmptyString
  | S k => String "0"%char (zeros k)
  end.

Definition pad_left (w : nat) (s : string) : string :=
  zeros (w - String.length s) +++ s.

(** The [,] option of the format mini-language: groups of three digits,
    counted from the right. [group3_rev] works on the reversed digits. *)
Fixpoint group3_rev (l : list ascii) : list ascii :=
  match l with
  | a :: b :: c :: ((_ :: _) as t) => a :: b :: c :: ","%char :: group3_rev t
  | _ => l
  end.

Definition group3 (s : string) : string :=
  string_of_list_ascii (rev (group3_rev (rev (list_ascii_of_string s)))).

(** *** binary64 floats

    A finite float is a sign and a dyadic magnitude [m * 2^e]; floats that
    come out of a conversion have [m < 2^53] and [-1074 <= e <= 971].  All
    comparisons below are on exact values, so the representation need not be
    normalised. *)

Inductive pyfloat : Type :=
| FNaN
| FInf (neg : bool)
| FFin (neg : bool) (m e : Z).

Definition valid_float (f : pyfloat) : Prop :=
  match f with
  | FFin _ m e => 0 <= m < 2 ^ 53 /\ -1074 <= e <= 971
  | _ => True
  end.

(** Magnitude of a finite float as a fraction [num / den]. *)
Definition mag_num (m e : Z) : Z := if 0 <=? e then m * 2 ^ e else m.
Definition mag_den (e : Z) : Z := if 0 <=? e then 1 else 2 ^ (- e).

(** Nearest integer to [p / q], ties to the even one ([0 <= p], [0 < q]). *)
Definition round_half_even (p q : Z) : Z :=
  let f := p / q in
  match (2 * (p mod q)) ?= q with
  | Lt => f
  | Gt => f + 1
  | Eq => if Z.even f then f else f + 1
  end.

(** [floor (log2 (p / q))] for [0 < p], [0 < q]. *)
Definition ilog2_rat (p q : Z) : Z :=
  let l := Z.log2 p - Z.log2 q in
  if (if 0 <=? l then q * 2 ^ l <=? p else q <=? p * 2 ^ (- l))
  then l else l - 1.

(** Round-to-nearest-even conversion of the positive fraction [p / q] to
    binary64; [None] on overflow. *)
Definition to_binary64 (p q : Z) : option (Z * Z) :=
  let e := Z.max (ilog2_rat p q - 52) (-1074) in
  let m := if 0 <=? e then round_half_even p (q * 2 ^ e)
           else round_half_even (p * 2 ^ (- e)) q in
  let '(m, e) := if m =? 2 ^ 53 then (2 ^ 52, e + 1) else (m, e) in
  if 971 <? e then None else Some (m, e).

(** [float(i)] for an [int]: [None] is [OverflowError]. *)
Definition float_of_int (i : Z) : option pyfloat :=
  if i =? 0 then Some (FFin false 0 0)
  else match to_binary64 (Z.abs i) 1 with
       | Some (m, e) => Some (FFin (i <? 0) m e)
       | None => None
       end.

(** [int(x)] for a float (truncation toward zero); [None] is the
    [OverflowError] / [ValueError] raised on infinities and NaN. *)
Definition int_of_float (f : pyfloat) : option Z :=
  match f with
  | FFin neg m e =>
      let t := mag_num m e / mag_den e in
      Some (if neg then - t else t)
  | _ => None
  end.

(** [x == i] between a float and an [int]: Python compares exact values. *)
Definition float_eq_int (f : pyfloat) (i : Z) : bool :=
  match f with
  | FFin neg m e =>
      (if neg then - mag_num m e else mag_num m e) =? i * mag_den e
  | _ => false
  end.

(** Equality of two finite magnitudes. *)
Definition mag_eqb (m1 e1 m2 e2 : Z) : bool :=
  mag_num m1 e1 * mag_den e2 =? mag_num m2 e2 * mag_den e1.

(** *** Fixed-point formatting: ["{:,.<prec>f}".format(x)]

    The exact value is rounded half-even to [prec] decimals; the integer part
    is grouped by thousands; the sign of the float is kept even when the
    rounded magnitude is zero. *)
Definition fmt_fixed (prec : nat) (f : pyfloat) : string :=
  match f with
  | FNaN => "nan"
  | FInf neg => if neg then "-inf" else "inf"
  | FFin neg m e =>
      let scale := 10 ^ Z.of_nat prec in
      let c := round_half_even (mag_num m e * scale) (mag_den e) in
      let ip := group3 (digits (c / scale)) in
      let fp := match prec with
                | O => EmptyString
                | _ => "." +++ pad_left prec (digits (c mod scale))
                end in
      (if neg then "-" else "") +++ ip +++ fp
  end.

(** ["{:,.0f}".format(i)] for an [int] argument: the integer is converted
    to a float first; [None] is the [OverflowError] of that conversion. *)
Definition fmt_fixed_int (prec : nat) (i : Z) : option string :=
  match float_of_int i with
  | Some f => Some (fmt_fixed prec f)
  | None => None
  end.

(** *** [repr] of a float: the shortest decimal string that reads back as
    the same float (CPython's [float_repr_style = 'short']). *)

(** [10^k <= p / q]. *)
Definition pow10_le (k p q : Z) : bool :=
  if 0 <=? k then 10 ^ k * q <=? p else q <=? p * 10 ^ (- k).

Fixpoint ilog10_up (fuel : nat) (k p q : Z) : Z :=
  match fuel with
  | O => k
  | S fuel' => if pow10_le (k + 1) p q then ilog10_up fuel' (k + 1) p q else k
  end.

(** [floor (log10 (p / q))], searched upward from an under-estimate taken
    from the binary logarithm. *)
Definition ilog10_rat (p q : Z) : Z :=
  ilog10_up 4 (ilog2_rat p q * 30102 / 100000 - 1) p q.

(** Does the decimal [d * 10^k] read back as the magnitude [m * 2^e]? *)
Definition reads_back (m e d k : Z) : bool :=
  match (if 0 <=? k then to_binary64 (d * 10 ^ k) 1
         else to_binary64 d (10 ^ (- k))) with
  | Some (m', e') => mag_eqb m e m' e'
  | None => false
  end.

(** The scaled value [m * 2^e / 10^k], for [k = k10 - (n - 1)], as a
    fraction: its integer part has [n] digits. *)
Definition scaled (m e k : Z) : Z * Z :=
  if 0 <=? k then (mag_num m e, mag_den e * 10 ^ k)
  else (mag_num m e * 10 ^ (- k), mag_den e).

(** Digits and exponent, without a final zero in the digits. *)
Definition trimmed (d k : Z) : Z * Z :=
  if d mod 10 =? 0 then (d / 10, k + 1) else (d, k).

(** The decimal with [n] significant digits nearest to [m * 2^e] that reads
    back as it, if there is one: the floor and the ceiling of the scaled
    value are the only candidates. *)
Definition repr_candidate (m e k10 n : Z) : option (Z * Z) :=
  let k := k10 - (n - 1) in
  let '(p, q) := scaled m e k in
  let lo := p / q in
  let hi := lo + 1 in
  match (0 <? lo) && reads_back m e lo k, reads_back m e hi k with
  | true, true => Some (if 2 * (p mod q) <=? q then trimmed lo k
                        else trimmed hi k)
  | true, false => Some (trimmed lo k)
  | false, true => Some (trimmed hi k)
  | false, false => None
  end.

(** The nearest decimal with [n] significant digits. *)
Definition nearest_decimal (m e k10 n : Z) : Z * Z :=
  let k := k10 - (n - 1) in
  let '(p, q) := scaled m e k in
  trimmed (round_half_even p q) k.

(** Tries [n], [n + 1], ... significant digits; after [fuel] lengths the
    nearest decimal is taken as it is (17 digits always read back). *)
Fixpoint repr_search (fuel : nat) (m e k10 n : Z) : Z * Z :=
  match fuel with
  | O => nearest_decimal m e k10 n
  | S fuel' =>
      match repr_candidate m e k10 n with
      | Some r => r
      | None => repr_search fuel' m e k10 (n + 1)
      end
  end.

(** Shortest digits [d] and decimal exponent [k] with [m * 2^e ~ d * 10^k]. *)
Definition shortest_decimal (m e : Z) : Z * Z :=
  repr_search 16 m e (ilog10_rat (mag_num m e) (mag_den e)) 1.

Definition take (n : nat) (s : string) : string := String.substring 0 n s.
Definition drop (n : nat) (s : string) : string :=
  String.substring n (String.length s - n) s.

(** Layout of the digits: exponent notation when the decimal point falls
    at or before [-4] or after [16] digits, positional notation (always with
    a fractional part) otherwise. *)
Definition repr_layout (ds : string) (k : Z) : string :=
  let nd := Z.of_nat (String.length ds) in
  let decpt := k + nd in
  if (decpt <=? -4) || (16 <? decpt) then
    take 1 ds +++ (if 1 <? nd then "." +++ drop 1 ds else "")
      +++ "e" +++ (if decpt - 1 <? 0 then "-" else "+")
      +++ pad_left 2 (digits (Z.abs (decpt - 1)))
  else if decpt <=? 0 then "0." +++ zeros (Z.to_nat (- decpt)) +++ ds
  else if nd <=? decpt then ds +++ zeros (Z.to_nat (decpt - nd)) +++ ".0"
  else take (Z.to_nat decpt) ds +++ "." +++ drop (Z.to_nat decpt) ds.

(** [repr(x)], which is also [str(x)], for a float. *)
Definition repr_float (f : pyfloat) : string :=
  match f with
  | FNaN => "nan"
  | FInf neg => if neg then "-inf" else "inf"
  | FFin neg m e =>
      (if neg then "-" else "") +++
      (if m =? 0 then "0.0"
       else let '(d, k) := shortest_decimal m e in repr_layout (digits d) k)
  end.

(** *** [float(s)] for a string

    The grammar of CPython's [float()]: surrounding white space, an
    optional sign, then [inf], [infinity] or [nan] in any case, or a decimal
    numeral with optional fraction and exponent, where an underscore may sit
    between two digits.  A text is held as its UTF-8 bytes.  In a text that
    is not pure ASCII, CPython first turns every decimal digit of another
    script into the ASCII digit of the same value and every non-ASCII white
    space into a space; any other non-ASCII character ends the text with a
    question mark.  The tables are those of Unicode 14.  [None] is
    [ValueError]. *)

Definition is_digit (c : ascii) : bool :=
  let n := nat_of_ascii c in (48 <=? n)%nat && (n <=? 57)%nat.

(** [Py_ISSPACE]: tab, line feed, vertical tab, form feed, carriage return
    and space. *)
Definition is_space (c : ascii) : bool :=
  let n := nat_of_ascii c in
  ((9 <=? n)%nat && (n <=? 13)%nat) || (n =? 32)%nat.

Definition lower (c : ascii) : ascii :=
  let n := nat_of_ascii c in
  if (65 <=? n)%nat && (n <=? 90)%nat then ascii_of_nat (n + 32) else c.

Fixpoint lstrip_ws (l : list ascii) : list ascii :=
  match l with
  | c :: t => if is_space c then lstrip_ws t else l
  | [] => []
  end.

Definition strip_ws (l : list ascii) : list ascii :=
  rev (lstrip_ws (rev (lstrip_ws l))).

Fixpoint underscores_ok (prev_digit : bool) (l : list ascii) : bool :=
  match l with
  | [] => true
  | c :: t =>
      if Ascii.eqb c "_" then
        prev_digit
        && match t with d :: _ => is_digit d | [] => false end
        && underscores_ok false t
      else underscores_ok (is_digit c) t
  end.

(** Reads a run of digits: its value, its length and what follows. *)
Fixpoint read_digits (l : list ascii) (acc : Z) (n : nat)
  : Z * nat * list ascii :=
  match l with
  | c :: t =>
      if is_digit c
      then read_digits t (10 * acc + (Z.of_nat (nat_of_ascii c) - 48)) (S n)
      else (acc, n, l)
  | [] => (acc, n, [])
  end.

Definition read_sign (l : list ascii) : bool * list ascii :=
  match l with
  | c :: t => if Ascii.eqb c "-" then (true, t)
              else if Ascii.eqb c "+" then (false, t) else (false, l)
  | [] => (false, [])
  end.

(** The exponent part, if well formed and final. *)
Definition read_exponent (l : list ascii) : option Z :=
  match l with
  | [] => Some 0
  | c :: t =>
      if Ascii.eqb (lower c) "e" then
        let '(neg, t1) := read_sign t in
        match read_digits t1 0 0 with
        | (_, O, _) => None
        | (x, _, []) => Some (if neg then - x else x)
        | _ => None
        end
      else None
  end.

Definition float_of_decimal (neg : bool) (d k : Z) : pyfloat :=
  if d =? 0 then FFin neg 0 0
  else match (if 0 <=? k then to_binary64 (d * 10 ^ k) 1
              else to_binary64 d (10 ^ (- k))) with
       | Some (m, e) => FFin neg m e
       | None => FInf neg
       end.

(** The numeral grammar, on ASCII characters. *)
Definition float_of_ascii (l : list ascii) : option pyfloat :=
  if negb (underscores_ok false l) then None else
  let l := strip_ws (filter (fun c => negb (Ascii.eqb c "_")) l) in
  let '(neg, body) := read_sign l in
  let word := string_of_list_ascii (map lower body) in
  if String.eqb word "inf" || String.eqb word "infinity" then Some (FInf neg)
  else if String.eqb word "nan" then Some FNaN
  else
    let '(ip, ni, r1) := read_digits body 0 0 in
    let '(fp, nf, r2) :=
      match r1 with
      | c :: t => if Ascii.eqb c "." then read_digits t 0 0 else (0, O, r1)
      | [] => (0, O, [])
      end in
    match (ni + nf)%nat with
    | O => None
    | _ =>
        match read_exponent r2 with
        | Some x =>
            Some (float_of_decimal neg (ip * 10 ^ Z.of_nat nf + fp)
                                   (x - Z.of_nat nf))
        | None => None
        end
    end.

(** *** Texts outside ASCII *)

Definition byte (c : ascii) : Z := Z.of_nat (nat_of_ascii c).

(** The payload of a UTF-8 continuation byte. *)
Definition continuation (c : ascii) : option Z :=
  let n := byte c in
  if (128 <=? n) && (n <? 192) then Some (n - 128) else None.

(** The code points of a text held as UTF-8; [None] when the bytes are
    not the encoding of a text. *)
Fixpoint utf8_decode (l : list ascii) : option (list Z) :=
  match l with
  | [] => Some []
  | a :: t =>
      let n := byte a in
      if n <? 128 then option_map (cons n) (utf8_decode t)
      else if n <? 224 then
        match t with
        | b :: t' =>
            match continuation b with
            | Some x =>
                if 194 <=? n
                then option_map (cons ((n - 192) * 64 + x)) (utf8_decode t')
                else None
            | None => None
            end
        | [] => None
        end
      else if n <? 240 then
        match t with
        | b :: c :: t' =>
            match continuation b, continuation c with
            | Some x, Some y =>
                let cp := (n - 224) * 4096 + x * 64 + y in
                if (2048 <=? cp) && negb ((55296 <=? cp) && (cp <? 57344))
                then option_map (cons cp) (utf8_decode t')
                else None
            | _, _ => None
            end
        | _ => None
        end
      else
        match t with
        | b :: c :: d :: t' =>
            match continuation b, continuation c, continuation d with
            | Some x, Some y, Some z =>
                let cp := (n - 240) * 262144 + x * 4096 + y * 64 + z in
                if (65536 <=? cp) && (cp <? 1114112)
                then option_map (cons cp) (utf8_decode t')
                else None
            | _, _, _ => None
            end
        | _ => None
        end
  end.

(** [Py_UNICODE_ISSPACE] above ASCII. *)
Definition unicode_space (cp : Z) : bool :=
  (cp =? 133) || (cp =? 160) || (cp =? 5760)
  || ((8192 <=? cp) && (cp <=? 8202))
  || (cp =? 8232) || (cp =? 8233) || (cp =? 8239) || (cp =? 8287)
  || (cp =? 12288).

(** The runs of decimal digits above ASCII: first code point and length;
    within a run the values go [0 .. 9] again and again. *)
Definition decimal_runs : list (Z * Z) :=
  [(1632, 10); (1776, 10); (1984, 10); (2406, 10); (2534, 10); (2662, 10);
   (2790, 10); (2918, 10); (3046, 10); (3174, 10); (3302, 10); (3430, 10);
   (3558, 10); (3664, 10); (3792, 10); (3872, 10); (4160, 10); (4240, 10);
   (6112, 10); (6160, 10); (6470, 10); (6608, 10); (6784, 10); (6800, 10);
   (6992, 10); (7088, 10); (7232, 10); (7248, 10); (42528, 10);
   (43216, 10); (43264, 10); (43472, 10); (43504, 10); (43600, 10);
   (44016, 10); (65296, 10); (66720, 10); (68912, 10); (69734, 10);
   (69872, 10); (69942, 10); (70096, 10); (70384, 10); (70736, 10);
   (70864, 10); (71248, 10); (71360, 10); (71472, 10); (71904, 10);
   (72016, 10); (72784, 10); (73040, 10); (73120, 10); (92768, 10);
   (92864, 10); (93008, 10); (120782, 50); (123200, 10); (123632, 10);
   (125264, 10); (130032, 10)].

(** [Py_UNICODE_TODECIMAL] above ASCII. *)
Definition unicode_decimal (cp : Z) : option Z :=
  match find (fun r => (fst r <=? cp) && (cp <? fst r + snd r))
             decimal_runs with
  | Some r => Some ((cp - fst r) mod 10)
  | None => None
  end.

(** [_PyUnicode_TransformDecimalAndSpaceToASCII], on a text that is not
    pure ASCII. *)
Fixpoint to_ascii_numeral (cps : list Z) : list ascii :=
  match cps with
  | [] => []
  | cp :: t =>
      if cp <? 127 then ascii_of_nat (Z.to_nat cp) :: to_ascii_numeral t
      else if unicode_space cp then " "%char :: to_ascii_numeral t
      else
        match unicode_decimal cp with
        | Some d => digit_char d :: to_ascii_numeral t
        | None => ["?"%char]
        end
  end.

Definition float_of_str (s : string) : option pyfloat :=
  let l := list_ascii_of_string s in
  if forallb (fun c => byte c <? 128) l then float_of_ascii l
  else
    match utf8_decode l with
    | Some cps => float_of_ascii (to_ascii_numeral cps)
    | None => None
    end.

(** *** JSON scalars as Python objects *)

Inductive pyval : Type :=
| PNone
| PBool (b : bool)
| PInt (i : Z)
| PFloat (f : pyfloat)
| PStr (s : string).

(** Truth value, as tested by [if value], [value and ...], [not value]. *)
Definition truthy (v : pyval) : bool :=
  match v with
  | PNone => false
  | PBool b => b
  | PInt i => negb (i =? 0)
  | PFloat (FFin _ m _) => negb (m =? 0)
  | PFloat _ => true
  | PStr s => negb (String.eqb s "")
  end.

(** [str(value)]. *)
Definition str (v : pyval) : string :=
  match v with
  | PNone => "None"
  | PBool b => if b then "True" else "False"
  | PInt i => str_int i
  | PFloat f => repr_float f
  | PStr s => s
  end.

(** [float(value)]; [None] stands for the exception raised. *)
Definition float (v : pyval) : option pyfloat :=
  match v with
  | PNone => None
  | PBool b => Some (FFin false (if b then 1 else 0) 0)
  | PInt i => float_of_int i
  | PFloat f => Some f
  | PStr s => float_of_str s
  end.

(** [value == ""]. *)
Definition eq_empty_str (v : pyval) : bool :=
  match v with
  | PStr s => String.eqb s ""
  | _ => false
  end.

(** [x == 0] for a float. *)
Definition float_is_zero (f : pyfloat) : bool :=
  match f with
  | FFin _ m _ => m =? 0
  | _ => false
  end.

(** [value == 0]: booleans are integers, numbers compare by value, strings
    and [None] are never equal to a number. *)
Definition eq_zero (v : pyval) : bool :=
  match v with
  | PBool b => negb b
  | PInt i => i =? 0
  | PFloat f => float_is_zero f
  | _ => false
  end.

(** [value == s] for a string constant [s]. *)
Definition eq_str (v : pyval) (s : string) : bool :=
  match v with
  | PStr s' => String.eqb s' s
  | _ => false
  end.

Definition is_none (v : pyval) : bool :=
  match v with
  | PNone => true
  | _ => false
  end.

(** Number of characters after the last decimal point of a text ([0] when
    it has none). *)
Fixpoint after_last_dot (s : string) : option nat :=
  match s with
  | EmptyString => None
  | String c t =>
      match after_last_dot t with
      | Some n => Some n
      | None => if Ascii.eqb c "." then Some (String.length t) else None
      end
  end.

Definition decimal_places (s : string) : nat :=
  match after_last_dot s with
  | Some n => n
  | None => O
  end.

(** *** Notions used to state the formatting properties *)

Definition sign_text (neg : bool) : string := if neg then "-" else "".

Definition signed (neg : bool) (t : Z) : Z := if neg then - t else t.

(** Two decimals, as printed. *)
Definition two_digits (r : Z) : string :=
  String (digit_char (r / 10)) (String (digit_char (r mod 10)) "").

(** The fractional part that survives stripping. *)
Definition frac_text (r : Z) : string :=
  if negb (r mod 10 =? 0) then "." +++ two_digits r
  else if negb (r =? 0) then String "." (String (digit_char (r / 10)) "")
  else "".

(** A character other than the decimal point. *)
Definition plain (c : ascii) : Prop := c <> "."%char.

End Py.

(* ================================================================== *)
(** ** branch_manager.py *)
(* ================================================================== *)

Module BranchManager.
Import Py.

Definition DEFAULT_TIMEOUT : Z := 30.
Definition DEFAULT_RETRY : Z := 3.

(** *** Enums and data classes *)

Inductive BranchStatus : Type :=
| UNKNOWN | OFFLINE | API_DOWN | AUTH_ERROR | CONNECTED.

Definition is_connected (s : BranchStatus) : bool :=
  match s with
  | CONNECTED => true
  | _ => false
  end.

(** An article as fetched: a JSON object whose keys may be missing (the
    code reads every key with [.get(key, default)]).  The code is the join
    key and is used as text. *)
Record Article : Type := mkArticle {
  a_code : option string;
  a_name : option pyval;
  a_price : option pyval;
  a_group_code : option pyval;
  a_group_name : option pyval;
  a_stock1 : option pyval;
  a_stock2 : option pyval
}.

Record Branch : Type := mkBranch {
  name : string;
  ip : string;
  database : string;
  user : string;
  password : string;
  port : Z;
  status : BranchStatus;
  enabled : bool;
  is_reference : bool;
  articles : list Article
}.

Definition api_url (b : Branch) : string :=
  "http://" +++ ip b +++ ":" +++ str_int (port b).

(** *** Helper functions *)

Definition format_price (value : pyval) : string :=
  if is_none value || eq_empty_str value || eq_zero value then ""
  else
    match float value with
    | None => str value
    | Some num =>
        match int_of_float num with
        | None => str value
        | Some i =>
            if float_eq_int num i then
              match fmt_fixed_int 0 i with
              | Some s => s
              | None => str value
              end
            else rstrip "." (rstrip "0" (fmt_fixed 2 num))
        end
    end.

Definition format_number (value : pyval) : string :=
  if is_none value || eq_empty_str value then ""
  else
    match float value with
    | None => str value
    | Some num =>
        if float_is_zero num then ""
        else
          match int_of_float num with
          | None => str value
          | Some i =>
              if float_eq_int num i then str_int i
              else rstrip "." (rstrip "0" (repr_float num))
          end
    end.

(** *** The network, as seen by the client

    A request either raises or produces a response with a status code and a
    body that decodes as a JSON object or fails to decode.  The network is
    an oracle [net]: the outcome of a request may depend on how many
    requests were made before it and on the request itself.  Every request
    and every pause is recorded in a log. *)

Inductive exn : Type :=
| ConnectionError
| Timeout
| OtherError (msg : string).

Inductive http_method : Type := GET | POST.

Record Change : Type := mkChange {
  ch_code : string;
  ch_branch : string;
  ch_field : string;
  ch_old_value : pyval;
  ch_new_value : pyval
}.

(** One entry of the [items] list sent to [/batch/update]. *)
Record UpdateItem : Type := mkUpdateItem {
  ui_code : string;
  ui_name : option pyval;
  ui_price : option pyval;
  ui_group_code : option pyval
}.

Inductive payload : Type :=
| NoData
| ArticlesQuery (search : string) (limit : Z)
| BatchItems (items : list UpdateItem).

(** What [_db_params] merges into every payload. *)
Record db_params : Type := mkDbParams {
  dp_server : string;
  dp_database : string;
  dp_username : string;
  dp_password : string
}.

Record request : Type := mkRequest {
  rq_method : http_method;
  rq_url : string;
  rq_json : option (payload * db_params);
  rq_api_key : option string;
  rq_timeout : Z
}.

Record Summary : Type := mkSummary {
  success_count : option Z;
  failed_count : option Z
}.

(** The keys of a response object that the client reads. *)
Record Result : Type := mkResult {
  r_success : option pyval;
  r_status : option pyval;
  r_error : option pyval;
  r_data : option (list Article);
  r_summary : option Summary
}.

Inductive outcome : Type :=
| Raised (e : exn)
| Responded (status_code : Z) (json : string + Result).

Inductive event : Type :=
| EvRequest (rq : request)
| EvSleep (seconds : Z)
| EvWarning
| EvReport (successes failures : Z).

Definition is_request (ev : event) : bool :=
  match ev with
  | EvRequest _ => true
  | _ => false
  end.

Definition IO (A : Type) : Type := list event -> A * list event.

Definition ret {A : Type} (a : A) : IO A := fun log => (a, log).

Definition bind {A B : Type} (m : IO A) (k : A -> IO B) : IO B :=
  fun log => let '(a, log') := m log in k a log'.

Notation "x <- m ;; k" := (bind m (fun x => k))
  (at level 61, m at next level, right associativity).
Notation "m ;;; k" := (bind m (fun _ => k))
  (at level 61, right associativity).

Definition emit (ev : event) : IO unit := fun log => (tt, log ++ [ev]).

Definition opt_truthy (v : option pyval) : bool :=
  match v with
  | Some x => truthy x
  | None => false
  end.

Definition get {A : Type} (o : option A) (default : A) : A :=
  match o with
  | Some x => x
  | None => default
  end.

Record HolooAPIClient : Type := mkClient {
  cl_branch : Branch;
  cl_api_key : string;
  cl_timeout : Z;
  cl_retry : Z
}.

Definition error_text (e : exn) : string :=
  match e with
  | ConnectionError => "عدم دسترسی به سرور"
  | Timeout => "تایم‌اوت درخواست"
  | OtherError msg => msg
  end.

Definition failure (last_error : pyval) : Result :=
  mkResult (Some (PBool false)) None (Some last_error) None None.

(** Number of requests recorded in a log. *)
Definition requests_made (log : list event) : nat :=
  List.length (filter is_request log).

(** An attempt fails when the call raises or the body is not JSON; this is
    the text kept as [last_error]. *)
Definition attempt_error (o : outcome) : option string :=
  match o with
  | Raised e => Some (error_text e)
  | Responded _ (inl msg) => Some msg
  | Responded _ (inr _) => None
  end.

Section Network.

Variable net : nat -> request -> outcome.

Definition send (rq : request) : IO outcome :=
  fun log => (net (requests_made log) rq, log ++ [EvRequest rq]).

Definition _db_params (c : HolooAPIClient) : db_params :=
  let b := cl_branch c in
  mkDbParams (ip b) (database b) (user b) (password b).

Definition build_request (c : HolooAPIClient) (method : http_method)
  (endpoint : string) (data : payload) : request :=
  let url := api_url (cl_branch c) +++ endpoint in
  match method with
  | GET => mkRequest GET url None None (cl_timeout c)
  | POST =>
      mkRequest POST url (Some (data, _db_params c)) (Some (cl_api_key c))
                (cl_timeout c)
  end.

(** The loop [for attempt in range(self.retry)], with [n] iterations
    left: a decoded response is returned at once; an exception, or a body
    that does not decode, is kept as [last_error] and followed by a pause
    unless the attempt was the last one. *)
Fixpoint attempts (rq : request) (retry : Z) (n : nat) (attempt : Z)
  (last_error : pyval) : IO Result :=
  match n with
  | O => ret (failure last_error)
  | S n' =>
      let again (last_error : pyval) :=
        (if attempt <? retry - 1 then emit (EvSleep 1) else ret tt) ;;;
        attempts rq retry n' (attempt + 1) last_error in
      o <- send rq ;;
      match o with
      | Responded _ (inr result) => ret result
      | Responded _ (inl msg) => again (PStr msg)
      | Raised e => again (PStr (error_text e))
      end
  end.

Definition _request (c : HolooAPIClient) (method : http_method)
  (endpoint : string) (data : payload) : IO Result :=
  attempts (build_request c method endpoint data) (cl_retry c)
           (Z.to_nat (cl_retry c)) 0 PNone.

Definition check_health (c : HolooAPIClient) : IO BranchStatus :=
  o <- send (mkRequest GET (api_url (cl_branch c) +++ "/ping") None None 5) ;;
  match o with
  | Raised _ => ret OFFLINE
  | Responded status_code _ =>
      if negb (status_code =? 200) then ret API_DOWN
      else
        result <- _request c POST "/check/db" NoData ;;
        if negb (opt_truthy (r_success result)) then
          let status := get (r_status result) (PStr "") in
          if eq_str status "DB_AUTH_ERROR" || eq_str status "DB_NOT_FOUND"
          then ret AUTH_ERROR
          else ret API_DOWN
        else ret CONNECTED
  end.

Definition get_articles (c : HolooAPIClient) (search : string) (limit : Z)
  : IO (list Article) :=
  result <- _request c POST "/articles" (ArticlesQuery search limit) ;;
  if opt_truthy (r_success result) then ret (get (r_data result) [])
  else ret [].

Definition batch_update (c : HolooAPIClient) (items : list UpdateItem)
  : IO Result :=
  _request c POST "/batch/update" (BatchItems items).

End Network.

(** *** Insertion-ordered dictionaries with string keys

    Python dictionaries keep their keys in insertion order, and the table
    relies on it; assigning to an existing key keeps its position. *)

Definition odict (V : Type) : Type := list (string * V).

Fixpoint od_get {V : Type} (k : string) (d : odict V) : option V :=
  match d with
  | [] => None
  | (k', v) :: t => if String.eqb k' k then Some v else od_get k t
  end.

Definition od_mem {V : Type} (k : string) (d : odict V) : bool :=
  match od_get k d with
  | Some _ => true
  | None => false
  end.

(** [d[k] = v] *)
Fixpoint od_set {V : Type} (k : string) (v : V) (d : odict V) : odict V :=
  match d with
  | [] => [(k, v)]
  | (k', v') :: t =>
      if String.eqb k' k then (k, v) :: t else (k', v') :: od_set k v t
  end.

(** In-place change of the object stored under an existing key. *)
Fixpoint od_update {V : Type} (k : string) (f : V -> V) (d : odict V)
  : odict V :=
  match d with
  | [] => []
  | (k', v) :: t =>
      if String.eqb k' k then (k', f v) :: t else (k', v) :: od_update k f t
  end.

Definition od_keys {V : Type} (d : odict V) : list string := map fst d.

(** *** MainWindow *)

(** Texts of the comparison selector and of the editable fields. *)
Definition NAME : string := "نام".
Definition PRICE : string := "قیمت".
Definition GROUP : string := "گروه".
Definition STOCK : string := "موجودی".

(** The per-branch object stored under [all_articles[code]["branches"]]. *)
Record BranchData : Type := mkBranchData {
  bd_name : pyval;
  bd_price : pyval;
  bd_group_code : pyval;
  bd_group_name : pyval;
  bd_stock1 : pyval;
  bd_stock2 : pyval
}.

Record ArticleEntry : Type := mkArticleEntry {
  ae_code : string;
  ae_branches : odict BranchData
}.

Record Row : Type := mkRow {
  row_code : string;
  row_ref_name : pyval;
  row_values : list pyval;
  row_has_diff : bool
}.

Record MainWindow : Type := mkMainWindow {
  branches : list Branch;
  api_key : string;
  timeout : Z;
  retry : Z;
  pending_changes : list Change;
  all_articles : odict ArticleEntry;
  current_page : Z;
  items_per_page : Z;
  total_items : Z;
  compare_type : string;
  diff_only : bool;
  table : list Row
}.

Definition branch_data_of (article : Article) : BranchData :=
  mkBranchData (get (a_name article) (PStr ""))
               (get (a_price article) (PInt 0))
               (get (a_group_code article) (PStr ""))
               (get (a_group_name article) (PStr ""))
               (get (a_stock1 article) (PInt 0))
               (get (a_stock2 article) (PInt 0)).

(** Body of the inner collection loop of [update_table]. *)
Definition collect_article (branch_name : string)
  (all : odict ArticleEntry) (article : Article) : odict ArticleEntry :=
  let code := get (a_code article) "" in
  let all := if negb (od_mem code all)
             then all ++ [(code, mkArticleEntry code [])] else all in
  od_update code
    (fun e => mkArticleEntry (ae_code e)
                (od_set branch_name (branch_data_of article) (ae_branches e)))
    all.

Definition collect_branch (all : odict ArticleEntry) (b : Branch)
  : odict ArticleEntry :=
  fold_left (collect_article (name b)) (articles b) all.

Definition collect_articles (enabled_branches : list Branch)
  : odict ArticleEntry :=
  fold_left collect_branch enabled_branches [].

(** The value of one branch for the active comparison; [None] is the
    empty object used when the branch has no data for the code. *)
Definition dimension_value (compare_type : string)
  (branch_data : option BranchData) : pyval :=
  let field (f : BranchData -> pyval) (default : pyval) :=
    match branch_data with
    | Some d => f d
    | None => default
    end in
  if String.eqb compare_type NAME then field bd_name (PStr "")
  else if String.eqb compare_type PRICE then field bd_price (PInt 0)
  else if String.eqb compare_type GROUP then
    let g := field bd_group_name (PStr "") in
    if truthy g then g else field bd_group_code (PStr "")
  else if String.eqb compare_type STOCK then field bd_stock1 (PInt 0)
  else PStr "".

(** One turn of the comparison loop: the state is [first_value] and
    [has_diff]. *)
Definition diff_step (st : option pyval * bool) (value : pyval)
  : option pyval * bool :=
  let '(first_value, has_diff) := st in
  match first_value with
  | None => if truthy value then (Some value, has_diff) else st
  | Some fv =>
      if truthy value && negb (String.eqb (str value) (str fv))
      then (first_value, true)
      else st
  end.

Definition has_diff_of (values : list pyval) : bool :=
  snd (fold_left diff_step values (None, false)).

Definition ref_name_of (ref_branch : option Branch) (data : ArticleEntry)
  : pyval :=
  match match ref_branch with
        | Some rb => od_get (name rb) (ae_branches data)
        | None => None
        end with
  | Some d => bd_name d
  | None =>
      match ae_branches data with
      | (_, d) :: _ => bd_name d
      | [] => PStr ""
      end
  end.

Definition make_row (compare_type : string) (ref_branch : option Branch)
  (enabled_branches : list Branch) (item : string * ArticleEntry) : Row :=
  let '(code, data) := item in
  let values :=
    map (fun b => dimension_value compare_type
                    (od_get (name b) (ae_branches data)))
        enabled_branches in
  mkRow code (ref_name_of ref_branch data) values (has_diff_of values).

(** The row loop, with its [continue] on rows without differences. *)
Fixpoint rows_loop (compare_type : string) (diff_only : bool)
  (ref_branch : option Branch) (enabled_branches : list Branch)
  (items : odict ArticleEntry) : list Row :=
  match items with
  | [] => []
  | item :: rest =>
      let r := make_row compare_type ref_branch enabled_branches item in
      let tail := rows_loop compare_type diff_only ref_branch
                            enabled_branches rest in
      if diff_only && negb (row_has_diff r) then tail else r :: tail
  end.

(** [l[start:stop]] with Python's treatment of negative and
    out-of-range bounds. *)
Definition py_slice {A : Type} (l : list A) (start stop : Z) : list A :=
  let n := Z.of_nat (List.length l) in
  let clamp i := if i <? 0 then Z.max (i + n) 0 else Z.min i n in
  let s := clamp start in
  let e := clamp stop in
  firstn (Z.to_nat (e - s)) (skipn (Z.to_nat s) l).

Definition enabled_branches_of (w : MainWindow) : list Branch :=
  filter enabled (branches w).

Definition ref_branch_of (w : MainWindow) : option Branch :=
  find (fun b => is_reference b && enabled b) (branches w).

Definition rows_data (w : MainWindow) : list Row :=
  rows_loop (compare_type w) (diff_only w) (ref_branch_of w)
            (enabled_branches_of w)
            (collect_articles (enabled_branches_of w)).

Definition paginate (w : MainWindow) (rows : list Row) : list Row :=
  if 0 <? items_per_page w then
    let start := (current_page w - 1) * items_per_page w in
    let stop := start + items_per_page w in
    py_slice rows start stop
  else rows.

(** [math.ceil(total_items / items_per_page)] is computed on floats in the
    source; it is the exact ceiling for every row count a table can hold. *)
Definition get_total_pages (w : MainWindow) : Z :=
  if items_per_page w =? 0 then 1
  else Z.max 1 (- ((- total_items w) / items_per_page w)).

Definition update_table (w : MainWindow) : MainWindow :=
  let rows := rows_data w in
  mkMainWindow (branches w) (api_key w) (timeout w) (retry w)
               (pending_changes w)
               (collect_articles (enabled_branches_of w))
               (current_page w) (items_per_page w)
               (Z.of_nat (List.length rows))
               (compare_type w) (diff_only w)
               (paginate w rows).

(** What a table cell shows for a value of the active comparison. *)
Definition display_value (compare_type : string) (value : pyval) : string :=
  if String.eqb compare_type PRICE then format_price value
  else if String.eqb compare_type STOCK then format_number value
  else if truthy value then str value else "".

Definition set_branches (w : MainWindow) (bs : list Branch) : MainWindow :=
  mkMainWindow bs (api_key w) (timeout w) (retry w) (pending_changes w)
               (all_articles w) (current_page w) (items_per_page w)
               (total_items w) (compare_type w) (diff_only w) (table w).

Definition set_current_page (w : MainWindow) (p : Z) : MainWindow :=
  mkMainWindow (branches w) (api_key w) (timeout w) (retry w)
               (pending_changes w) (all_articles w) p (items_per_page w)
               (total_items w) (compare_type w) (diff_only w) (table w).

Definition set_pending_changes (w : MainWindow) (l : list Change)
  : MainWindow :=
  mkMainWindow (branches w) (api_key w) (timeout w) (retry w) l
               (all_articles w) (current_page w) (items_per_page w)
               (total_items w) (compare_type w) (diff_only w) (table w).

Definition set_articles (b : Branch) (l : list Article) : Branch :=
  mkBranch (name b) (ip b) (database b) (user b) (password b) (port b)
           (status b) (enabled b) (is_reference b) l.

Definition client_of (w : MainWindow) (b : Branch) : HolooAPIClient :=
  mkClient b (api_key w) (timeout w) (retry w).

Definition fetchable (b : Branch) : bool :=
  enabled b && is_connected (status b).

(** The change sent for one pending edit. *)
Definition make_item (change : Change) : UpdateItem :=
  let field := ch_field change in
  let v := Some (ch_new_value change) in
  if String.eqb field PRICE then mkUpdateItem (ch_code change) None v None
  else if String.eqb field NAME then mkUpdateItem (ch_code change) v None None
  else if String.eqb field GROUP then mkUpdateItem (ch_code change) None None v
  else mkUpdateItem (ch_code change) None None None.

(** [changes_by_branch]: groups in order of first appearance, changes in
    ledger order within a group. *)
Definition group_step (groups : odict (list Change)) (change : Change)
  : odict (list Change) :=
  let branch_name := ch_branch change in
  let groups := if negb (od_mem branch_name groups)
                then groups ++ [(branch_name, [])] else groups in
  od_update branch_name (fun l => l ++ [change]) groups.

Definition changes_by_branch (pending : list Change) : odict (list Change) :=
  fold_left group_step pending [].

(** The user's controls: the diff-only box, the page size and the page. *)
Definition set_diff_only (w : MainWindow) (d : bool) : MainWindow :=
  mkMainWindow (branches w) (api_key w) (timeout w) (retry w)
               (pending_changes w) (all_articles w) (current_page w)
               (items_per_page w) (total_items w) (compare_type w) d
               (table w).

Definition set_paging (w : MainWindow) (page size : Z) : MainWindow :=
  mkMainWindow (branches w) (api_key w) (timeout w) (retry w)
               (pending_changes w) (all_articles w) page size
               (total_items w) (compare_type w) (diff_only w) (table w).

Section Cycle.

Variable net : nat -> request -> outcome.

(** The fetch loop of [fetch_all_data]: the branch objects that are
    enabled and connected get a new snapshot, in registry order. *)
Fixpoint fetch_loop (w : MainWindow) (bs : list Branch) : IO (list Branch) :=
  match bs with
  | [] => ret []
  | b :: rest =>
      if fetchable b then
        arts <- get_articles net (client_of w b) "" 50000 ;;
        rest' <- fetch_loop w rest ;;
        ret (set_articles b arts :: rest')
      else
        rest' <- fetch_loop w rest ;;
        ret (b :: rest')
  end.

Definition fetch_all_data (w : MainWindow) : IO MainWindow :=
  match filter fetchable (branches w) with
  | [] => emit EvWarning ;;; ret w
  | _ =>
      bs <- fetch_loop w (branches w) ;;
      ret (update_table (set_current_page (set_branches w bs) 1))
  end.

(** Body of the dispatch loop of [do_apply_changes] for one group; the
    state is [(success_count, fail_count)]. *)
Definition apply_group (w : MainWindow) (tally : Z * Z)
  (group : string * list Change) : IO (Z * Z) :=
  let '(success, fail) := tally in
  let '(branch_name, changes) := group in
  match find (fun b => String.eqb (name b) branch_name) (branches w) with
  | None => ret (success, fail + Z.of_nat (List.length changes))
  | Some branch =>
      if negb (is_connected (status branch))
      then ret (success, fail + Z.of_nat (List.length changes))
      else
        let items := map make_item changes in
        result <- batch_update net (client_of w branch) items ;;
        if opt_truthy (r_success result) then
          let summary := get (r_summary result) (mkSummary None None) in
          ret (success + get (success_count summary) 0,
               fail + get (failed_count summary) 0)
        else ret (success, fail + Z.of_nat (List.length items))
  end.

Fixpoint apply_groups (w : MainWindow) (tally : Z * Z)
  (groups : odict (list Change)) : IO (Z * Z) :=
  match groups with
  | [] => ret tally
  | g :: rest =>
      tally' <- apply_group w tally g ;;
      apply_groups w tally' rest
  end.

(** Returns the window after the cycle and the reported tally. *)
Definition do_apply_changes (w : MainWindow) : IO (MainWindow * (Z * Z)) :=
  tally <- apply_groups w (0, 0) (changes_by_branch (pending_changes w)) ;;
  let w := set_pending_changes w [] in
  emit (EvReport (fst tally) (snd tally)) ;;;
  w' <- fetch_all_data w ;;
  ret (w', tally).

End Cycle.

(** *** Notions used to state the properties *)

(** The decision table of the health check, as the design document gives
    it: the outcome of the unauthenticated probe first, then the result of
    the authenticated database probe. *)
Definition health_table (ping : outcome) (probe : Result) : BranchStatus :=
  match ping with
  | Raised _ => OFFLINE
  | Responded code _ =>
      if code =? 200 then
        if opt_truthy (r_success probe) then CONNECTED
        else match r_status probe with
             | Some (PStr s) =>
                 if String.eqb s "DB_AUTH_ERROR" || String.eqb s "DB_NOT_FOUND"
                 then AUTH_ERROR else API_DOWN
             | _ => API_DOWN
             end
      else API_DOWN
  end.

(** The codes of the snapshots of the enabled branches, branch after
    branch in registry order, articles in fetch order. *)
Definition snapshot_codes (w : MainWindow) : list string :=
  flat_map (fun b => map (fun a => get (a_code a) "") (articles b))
           (enabled_branches_of w).

(** First occurrences of a sequence of codes, in order of appearance. *)
Fixpoint first_seen (codes : list string) : list string :=
  match codes with
  | [] => []
  | c :: rest =>
      c :: filter (fun x => negb (String.eqb x c)) (first_seen rest)
  end.

Definition mem (c : string) (l : list string) : bool :=
  existsb (String.eqb c) l.

Definition add_key (keys : list string) (c : string) : list string :=
  if mem c keys then keys else keys ++ [c].

Definition differs_from (f : pyval) (v : pyval) : bool :=
  truthy v && negb (String.eqb (str v) (str f)).

(** Two values that are both non-empty and whose [str] differ. *)
Definition disagree (values : list pyval) : Prop :=
  exists v1 v2, In v1 values /\ In v2 values
                /\ truthy v1 = true /\ truthy v2 = true
                /\ str v1 <> str v2.

(** The same, read on the texts the table shows: two cells that both show
    something show different texts. *)
Definition formatted_disagree (compare_type : string) (values : list pyval)
  : Prop :=
  exists v1 v2, In v1 values /\ In v2 values
                /\ display_value compare_type v1 <> ""
                /\ display_value compare_type v2 <> ""
                /\ display_value compare_type v1
                   <> display_value compare_type v2.

(** What [k] failed attempts in a row leave in the log. *)
Fixpoint fail_events (rq : request) (retry attempt : Z) (k : nat)
  : list event :=
  match k with
  | O => []
  | S k' =>
      EvRequest rq
        :: (if attempt <? retry - 1 then [EvSleep 1] else [])
        ++ fail_events rq retry (attempt + 1) k'
  end.

(** The error kept after [k] failed attempts, the first of which was
    request number [n0]. *)
Definition last_error_after (net : nat -> request -> outcome) (rq : request)
  (n0 k : nat) (last : pyval) : pyval :=
  match k with
  | O => last
  | S k' => match attempt_error (net (n0 + k')%nat rq) with
            | Some msg => PStr msg
            | None => last
            end
  end.

Definition quiet_or (rq : request) (ev : event) : Prop :=
  ev = EvRequest rq \/ ev = EvSleep 1.

(** A request sent by the client of a registered branch whose status is
    [CONNECTED]. *)
Definition to_connected (w : MainWindow) (rq : request) : Prop :=
  exists b endpoint data,
    In b (branches w) /\ status b = CONNECTED
    /\ rq = build_request (client_of w b) POST endpoint data.

(** The request by which [get_articles] fetches the snapshot of a branch. *)
Definition articles_request (w : MainWindow) (b : Branch) : request :=
  build_request (client_of w b) POST "/articles" (ArticlesQuery "" 50000).

(** Every enabled branch is asked for its articles during the cycle. *)
Definition refetches_every_enabled_branch
  (net : nat -> request -> outcome) (w : MainWindow) (log : list event)
  : Prop :=
  forall b, In b (branches w) -> enabled b = true ->
            In (EvRequest (articles_request w b))
               (snd (do_apply_changes net w log)).

(** *** [MainWindow.check_all_branches] *)

Definition set_status (b : Branch) (s : BranchStatus) : Branch :=
  mkBranch (name b) (ip b) (database b) (user b) (password b) (port b)
           s (enabled b) (is_reference b) (articles b).

(** [BranchWidget.set_as_reference], on the branch it shows. *)
Definition set_as_reference (b : Branch) (is_ref : bool) : Branch :=
  mkBranch (name b) (ip b) (database b) (user b) (password b) (port b)
           (status b) (enabled b) is_ref (articles b).

Section Health.

Variable net : nat -> request -> outcome.

(** The loop of [check_all_branches]: an enabled branch takes the status
    its health check returns; the widget of a disabled branch is told
    [UNKNOWN], and [update_status] stores that in the branch. *)
Fixpoint check_loop (w : MainWindow) (bs : list Branch) : IO (list Branch) :=
  match bs with
  | [] => ret []
  | b :: rest =>
      if enabled b then
        s <- check_health net (client_of w b) ;;
        rest' <- check_loop w rest ;;
        ret (set_status b s :: rest')
      else
        rest' <- check_loop w rest ;;
        ret (set_status b UNKNOWN :: rest')
  end.

(** Returns the window and the two counts of the status-bar message:
    the branches that are connected and enabled, and the enabled ones. *)
Definition check_all_branches (w : MainWindow) : IO (MainWindow * (Z * Z)) :=
  bs <- check_loop w (branches w) ;;
  let connected :=
    List.length (filter (fun b => is_connected (status b) && enabled b) bs) in
  let enabled_count := List.length (filter enabled bs) in
  ret (set_branches w bs, (Z.of_nat connected, Z.of_nat enabled_count)).

End Health.

(** *** Further notions used to state properties *)

Definition is_sleep (ev : event) : bool :=
  match ev with
  | EvSleep _ => true
  | _ => false
  end.

(** Number of pauses recorded in a log. *)
Definition pauses (log : list event) : nat :=
  List.length (filter is_sleep log).

(** The unauthenticated probe that opens a health check. *)
Definition ping_request (b : Branch) : request :=
  mkRequest GET (api_url b +++ "/ping") None None 5.

(** The authenticated probe of a health check. *)
Definition probe_request (w : MainWindow) (b : Branch) : request :=
  build_request (client_of w b) POST "/check/db" NoData.

(** The request that carries a group of changes to its branch. *)
Definition batch_request (w : MainWindow) (b : Branch)
  (changes : list Change) : request :=
  build_request (client_of w b) POST "/batch/update"
                (BatchItems (map make_item changes)).

(** The articles held by the branches of a given name, in registry
    order. *)
Definition snapshot_of (bs : list Branch) (branch_name : string)
  : list Article :=
  flat_map articles (filter (fun b => String.eqb (name b) branch_name) bs).

(** The last article of a list that carries a given code. *)
Definition last_with_code (code : string) (arts : list Article)
  : option Article :=
  find (fun a => String.eqb (get (a_code a) "") code) (rev arts).

(** What a row says apart from its name column. *)
Definition row_facts (r : Row) : string * list pyval * bool :=
  (row_code r, row_values r, row_has_diff r).

(** The two counts a server reports for a batch, with the defaults the
    client reads them with. *)
Definition reported_counts (result : Result) : Z * Z :=
  let summary := get (r_summary result) (mkSummary None None) in
  (get (success_count summary) 0, get (failed_count summary) 0).

(** Does the dispatch send the changes addressed to a branch name: is the
    name that of a registered branch, and is the first such branch
    connected? *)
Definition dispatchable (w : MainWindow) (branch_name : string) : bool :=
  match find (fun b => String.eqb (name b) branch_name) (branches w) with
  | Some b => is_connected (status b)
  | None => false
  end.

(** The object a code and a branch name lead to in [all_articles]. *)
Definition cell (all : odict ArticleEntry) (code branch_name : string)
  : option BranchData :=
  match od_get code all with
  | Some e => od_get branch_name (ae_branches e)
  | None => None
  end.

(** [d.get(k, [])] *)
Definition or_nil {A : Type} (o : option (list A)) : list A :=
  match o with
  | Some l => l
  | None => []
  end.

(** The branch names under which a code is stored in [all_articles], in
    insertion order. *)
Definition entry_keys (all : odict ArticleEntry) (code : string)
  : list string :=
  match od_get code all with
  | Some e => od_keys (ae_branches e)
  | None => []
  end.

(** Does a snapshot list a code? *)
Definition holds_code (code : string) (b : Branch) : bool :=
  existsb (fun a => String.eqb (get (a_code a) "") code) (articles b).

(** [BranchWidget.on_enabled_changed], on the branch it shows. *)
Definition on_enabled_changed (b : Branch) (checked : bool) : Branch :=
  mkBranch (name b) (ip b) (database b) (user b) (password b) (port b)
           (status b) checked (is_reference b) (articles b).

End BranchManager.

(* ================================================================== *)
(** ** holoo_api.py *)
(* ================================================================== *)

Module HolooApi.
Import Py.

(** One object of the submitted [items] list; [None] is a missing key. *)
Record Item : Type := mkItem {
  i_code : option pyval;
  i_name : option pyval;
  i_price : option pyval;
  i_group_code : option pyval
}.

Record SuccessEntry : Type := mkSuccessEntry {
  se_code : pyval;
  se_updated : list string
}.

Record FailedEntry : Type := mkFailedEntry {
  fe_code : pyval;
  fe_error : string
}.

Record Results : Type := mkResults {
  success : list SuccessEntry;
  failed : list FailedEntry
}.

Record BatchSummary : Type := mkBatchSummary {
  total : Z;
  success_count : Z;
  failed_count : Z
}.

Inductive Body : Type :=
| Ok (results : Results) (summary : BatchSummary)
| Error (error : string) (error_code : string).

(** A response: its body and its HTTP status. *)
Definition Response : Type := (Body * Z)%type.

(** The statement handed to [cursor.execute]. *)
Record Query : Type := mkQuery {
  q_text : string;
  q_values : list pyval
}.

Inductive exec_outcome : Type :=
| ExecRaised (msg : string)
| Rowcount (n : Z).

(** The database behind the endpoint.  Opening the connection, creating
    the cursor, committing and closing may each raise ([Some msg]); the
    outcome of a statement may depend on how many statements were executed
    before it on the connection. *)
Record Database : Type := mkDatabase {
  db_connect : option string;
  db_cursor : option string;
  db_execute : nat -> Query -> exec_outcome;
  db_commit : option string;
  db_cursor_close : option string;
  db_close : option string
}.

(** The [updates] dictionary, in insertion order. *)
Definition updates_of (item : Item) : list (string * pyval) :=
  match i_name item with Some v => [("A_Name", v)] | None => [] end
  ++ match i_price item with Some v => [("Sel_Price", v)] | None => [] end
  ++ match i_group_code item with Some v => [("M_Code", v)] | None => [] end.

Fixpoint join (sep : string) (l : list string) : string :=
  match l with
  | [] => ""
  | [x] => x
  | x :: t => x +++ sep +++ join sep t
  end.

Definition update_query (updates : list (string * pyval)) (code : pyval)
  : Query :=
  let set_clause := join ", " (map (fun u => fst u +++ " = ?") updates) in
  mkQuery ("UPDATE dbo.ARTICLE SET " +++ set_clause +++ " WHERE A_Code = ?")
          (map snd updates ++ [code]).

(** Body of the item loop; the state is [results] and the number of
    statements executed so far. *)
Definition process_item (db : Database) (st : Results * nat) (item : Item)
  : Results * nat :=
  let '(results, n) := st in
  let fail code error :=
    mkResults (success results)
              (failed results ++ [mkFailedEntry code error]) in
  let code := match i_code item with Some c => c | None => PStr "" end in
  if negb (truthy code) then
    (fail (PStr "") "کد کالا ارسال نشده", n)
  else
    let updates := updates_of item in
    match updates with
    | [] => (fail code "هیچ فیلدی برای ویرایش نیست", n)
    | _ =>
        match db_execute db n (update_query updates code) with
        | Rowcount rc =>
            if 0 <? rc then
              (mkResults (success results
                            ++ [mkSuccessEntry code (map fst updates)])
                         (failed results), S n)
            else (fail code "کالا پیدا نشد", S n)
        | ExecRaised msg => (fail code msg, S n)
        end
    end.

(** An element of the submitted list: an object, or some other JSON
    value (a scalar or an array). *)
Inductive JsonItem : Type :=
| Object (item : Item)
| Scalar (v : pyval)
| Array.

(** The name of the Python type an element is decoded to. *)
Definition type_name (j : JsonItem) : string :=
  match j with
  | Object _ => "dict"
  | Scalar PNone => "NoneType"
  | Scalar (PBool _) => "bool"
  | Scalar (PInt _) => "int"
  | Scalar (PFloat _) => "float"
  | Scalar (PStr _) => "str"
  | Array => "list"
  end.

(** The item loop.  [item.get] is called outside the [try] that guards
    the statement, so an element that is not an object raises
    [AttributeError] there and ends the loop ([inr], with the text of the
    error). *)
Fixpoint item_loop (db : Database) (items : list JsonItem)
  (st : Results * nat) : Results * nat + string :=
  match items with
  | [] => inl st
  | Object item :: rest => item_loop db rest (process_item db st item)
  | j :: _ => inr ("'" +++ type_name j +++ "' object has no attribute 'get'")
  end.

(** The first exception among calls made in sequence, if any raises. *)
Fixpoint first_error (steps : list (option string)) : option string :=
  match steps with
  | [] => None
  | Some msg :: _ => Some msg
  | None :: rest => first_error rest
  end.

(** The body of [batch_update], entered once [verify_api_key] has accepted
    the request; [items] is the list found under the key [items]. *)
Definition batch_update (db : Database) (items : list JsonItem) : Response :=
  match items with
  | [] => (Error "لیست کالاها خالی است" "EMPTY_LIST", 400)
  | _ =>
      match first_error [db_connect db; db_cursor db] with
      | Some msg => (Error msg "BATCH_ERROR", 500)
      | None =>
          match item_loop db items (mkResults [] [], O) with
          | inr msg => (Error msg "BATCH_ERROR", 500)
          | inl (results, _) =>
              match first_error [db_commit db; db_cursor_close db;
                                 db_close db] with
              | Some msg => (Error msg "BATCH_ERROR", 500)
              | None =>
                  (Ok results
                      (mkBatchSummary (Z.of_nat (List.length items))
                         (Z.of_nat (List.length (success results)))
                         (Z.of_nat (List.length (failed results)))),
                   200)
              end
          end
      end
  end.

(** Is an element an object? *)
Definition is_object (j : JsonItem) : bool :=
  match j with
  | Object _ => true
  | _ => false
  end.

(** Every item of the list is accounted for: the answer carries a summary
    whose two counts are the lengths of the two result lists and add up to
    the number of items, or it is an error raised by the cursor, the
    commit or a close. *)
Definition accounts_for_every_item (db : Database) (items : list JsonItem)
  : Prop :=
  match batch_update db items with
  | (Ok results summary, _) =>
      total summary = Z.of_nat (List.length items)
      /\ success_count summary = Z.of_nat (List.length (success results))
      /\ failed_count summary = Z.of_nat (List.length (failed results))
      /\ success_count summary + failed_count summary = total summary
  | (Error _ _, _) =>
      first_error [db_cursor db; db_commit db; db_cursor_close db;
                   db_close db] <> None
  end.

(** An item without a usable code or without any editable field. *)
Definition rejected (item : Item) : Prop :=
  truthy (match i_code item with Some c => c | None => PStr "" end) = false
  \/ updates_of item = [].

(** *** Configuration *)

Definition API_KEY : string := "holoo_api_secret_key_2024".
Definition MAX_RETRIES : Z := 3.

(** [sub in s] for two strings. *)
Fixpoint contains (sub s : string) : bool :=
  String.prefix sub s
  || match s with
     | EmptyString => false
     | String _ t => contains sub t
     end.

(** *** [verify_api_key]

    The decorator answers by itself unless the [X-API-Key] header equals
    [API_KEY]; [None] is a request without the header. *)
Definition invalid_api_key : Response :=
  (Error "API Key نامعتبر است" "INVALID_API_KEY", 401).

Definition verify_api_key {B : Type} (api_key : option string) (f : B * Z)
  : Response + B * Z :=
  match api_key with
  | Some k => if String.eqb k API_KEY then inr f else inl invalid_api_key
  | None => inl invalid_api_key
  end.

(** *** [get_db_connection]: the choice of the ODBC driver *)

Definition preferred_drivers : list string :=
  ["ODBC Driver 18 for SQL Server";
   "ODBC Driver 17 for SQL Server";
   "ODBC Driver 13 for SQL Server";
   "SQL Server Native Client 11.0";
   "SQL Server"].

(** [None] is the error raised when no SQL Server driver is installed. *)
Definition select_driver (installed_drivers : list string) : option string :=
  match find (fun driver => existsb (String.eqb driver) installed_drivers)
             preferred_drivers with
  | Some driver => Some driver
  | None =>
      match filter (contains "SQL Server") installed_drivers with
      | d :: _ => Some d
      | [] => None
      end
  end.

(** *** [execute_with_retry]

    [func k] is what the call number [k] of the function does.  The result
    is what was returned ([inl]) or raised ([inr]), with the number of
    calls made; [inr None] is the [raise None] reached when the loop does
    not run. *)
Inductive call_outcome (A : Type) : Type :=
| Returned (a : A)
| Failed (msg : string).

Arguments Returned {A} a.
Arguments Failed {A} msg.

Fixpoint retry_loop {A : Type} (func : nat -> call_outcome A) (n k : nat)
  (last_error : option string) : (A + option string) * nat :=
  match n with
  | O => (inr last_error, k)
  | S n' =>
      match func k with
      | Returned a => (inl a, S k)
      | Failed msg => retry_loop func n' (S k) (Some msg)
      end
  end.

Definition execute_with_retry {A : Type} (func : nat -> call_outcome A)
  (max_retries : Z) : (A + option string) * nat :=
  retry_loop func (Z.to_nat max_retries) O None.

(** *** The [/check/db] endpoint *)

Record CheckBody : Type := mkCheckBody {
  cb_success : bool;
  cb_status : string;
  cb_message : string
}.

Definition exec_error (o : exec_outcome) : option string :=
  match o with
  | ExecRaised msg => Some msg
  | Rowcount _ => None
  end.

(** Status and message for the text of a database error. *)
Definition classify (error_msg : string) : string * string :=
  if contains "Login failed" error_msg || contains "28000" error_msg then
    ("DB_AUTH_ERROR", "خطای احراز هویت - یوزر یا پسورد اشتباه است")
  else if contains "Cannot open database" error_msg
          || contains "4060" error_msg then
    ("DB_NOT_FOUND", "دیتابیس پیدا نشد")
  else ("DB_CONNECTION_ERROR", "خطای اتصال: " +++ error_msg).

(** The body of [check_database], entered once [verify_api_key] has
    accepted the request; [database] is the [database] parameter of the
    request.  The errors are those of the database driver. *)
Definition check_database (database : string) (db : Database)
  : CheckBody * Z :=
  if String.eqb database "" then
    (mkCheckBody false "DB_PARAM_MISSING" "پارامترهای دیتابیس ارسال نشده",
     400)
  else
    match first_error [db_connect db; db_cursor db;
                       exec_error (db_execute db O (mkQuery "SELECT 1" []));
                       db_cursor_close db; db_close db] with
    | Some error_msg =>
        let '(status, message) := classify error_msg in
        (mkCheckBody false status message, 500)
    | None =>
        (mkCheckBody true "DB_CONNECTED" "اتصال به دیتابیس برقرار است", 200)
    end.

(** *** The [/article/<code>/update] endpoint *)

Inductive fetch_outcome : Type :=
| FetchRaised (msg : string)
| Fetched (found : bool).

(** What one call of [do_update] meets: a connection and the outcome of
    [fetchone] after the existence check. *)
Record Attempt : Type := mkAttempt {
  at_db : Database;
  at_fetch : fetch_outcome
}.

Inductive ArticleBody : Type :=
| Updated (code : pyval) (updated_fields : list string) (affected_rows : Z)
| Refused (error : string) (error_code : string).

Definition select_query (code : pyval) : Query :=
  mkQuery "SELECT A_Code FROM dbo.ARTICLE WHERE A_Code = ?" [code].

(** One call of [do_update]: [Returned None] is [(False, ...)], the
    article was not found; [Returned (Some n)] is [(True, n)]. *)
Definition do_update (updates : list (string * pyval)) (code : pyval)
  (a : Attempt) : call_outcome (option Z) :=
  let db := at_db a in
  match first_error [db_connect db; db_cursor db;
                     exec_error (db_execute db O (select_query code))] with
  | Some msg => Failed msg
  | None =>
      match at_fetch a with
      | FetchRaised msg => Failed msg
      | Fetched false =>
          match first_error [db_cursor_close db; db_close db] with
          | Some msg => Failed msg
          | None => Returned None
          end
      | Fetched true =>
          match db_execute db 1%nat (update_query updates code) with
          | ExecRaised msg => Failed msg
          | Rowcount affected =>
              match first_error [db_commit db; db_cursor_close db;
                                 db_close db] with
              | Some msg => Failed msg
              | None => Returned (Some affected)
              end
          end
      end
  end.

(** The body of [update_article], entered once [verify_api_key] has
    accepted the request: [code] comes from the URL, [data] holds the
    editable keys of the body, [attempts k] is what call number [k] of
    [do_update] meets. *)
Definition update_article (attempts : nat -> Attempt) (code : string)
  (data : Item) : ArticleBody * Z :=
  let updates := updates_of data in
  match updates with
  | [] => (Refused "هیچ فیلدی برای ویرایش ارسال نشده" "NO_FIELDS", 400)
  | _ =>
      match fst (execute_with_retry
                   (fun k => do_update updates (PStr code) (attempts k))
                   MAX_RETRIES) with
      | inl None => (Refused "کالا پیدا نشد" "NOT_FOUND", 404)
      | inl (Some affected) =>
          (Updated (PStr code) (map fst updates) affected, 200)
      | inr (Some msg) => (Refused msg "UPDATE_ERROR", 500)
      | inr None =>
          (Refused "exceptions must derive from BaseException"
                   "UPDATE_ERROR", 500)
      end
  end.

(** *** Notions used to state the properties *)

(** An item that reaches the database. *)
Definition accepted (item : Item) : bool :=
  truthy (match i_code item with Some c => c | None => PStr "" end)
  && match updates_of item with [] => false | _ => true end.

Definition item_code (item : Item) : pyval :=
  match i_code item with Some c => c | None => PStr "" end.

End HolooApi.

(* ================================================================== *)
(** ** The client and the middleware on one wire *)
(* ================================================================== *)

Module Wire.
Import Py BranchManager.

(** The JSON object of a change item, as the middleware reads it. *)
Definition item_of (u : UpdateItem) : HolooApi.Item :=
  HolooApi.mkItem (Some (PStr (ui_code u))) (ui_name u) (ui_price u)
                  (ui_group_code u).

(** The keys the client reads in the answers of [/batch/update], of
    [verify_api_key] and of [/check/db]. *)
Definition result_of_body (b : HolooApi.Body) : Result :=
  match b with
  | HolooApi.Ok _ summary =>
      mkResult (Some (PBool true)) None None None
               (Some (mkSummary (Some (HolooApi.success_count summary))
                                (Some (HolooApi.failed_count summary))))
  | HolooApi.Error error _ =>
      mkResult (Some (PBool false)) None (Some (PStr error)) None None
  end.

Definition result_of_check (b : HolooApi.CheckBody) : Result :=
  mkResult (Some (PBool (HolooApi.cb_success b)))
           (Some (PStr (HolooApi.cb_status b))) None None None.

(** [/batch/update] and [/check/db] behind their decorator; the items of
    a batch are the objects the client built. *)
Definition batch_route (api_key : option string) (db : HolooApi.Database)
  (items : list HolooApi.Item) : Result * Z :=
  match HolooApi.verify_api_key api_key
          (HolooApi.batch_update db (map HolooApi.Object items)) with
  | inl (body, code) => (result_of_body body, code)
  | inr (body, code) => (result_of_body body, code)
  end.

Definition check_route (api_key : option string) (database : string)
  (db : HolooApi.Database) : Result * Z :=
  match HolooApi.verify_api_key api_key
          (HolooApi.check_database database db) with
  | inl (body, code) => (result_of_body body, code)
  | inr (body, code) => (result_of_check body, code)
  end.

(** An answer as the client receives it. *)
Definition deliver (answer : Result * Z) : outcome :=
  Responded (snd answer) (inr (fst answer)).

(** The status a health check arrives at when the ping is answered with
    200 and the probe reaches a middleware whose database steps raise
    [error] (or none). *)
Definition health_of (api_key database : string) (error : option string)
  : BranchStatus :=
  if negb (String.eqb api_key HolooApi.API_KEY) then API_DOWN
  else if String.eqb database "" then API_DOWN
  else
    match error with
    | None => CONNECTED
    | Some msg =>
        if HolooApi.contains "Login failed" msg
           || HolooApi.contains "28000" msg
           || HolooApi.contains "Cannot open database" msg
           || HolooApi.contains "4060" msg
        then AUTH_ERROR else API_DOWN
    end.

End Wire.

(* ================================================================== *)
(** ** Sample data *)
(* ================================================================== *)

Module Samples.
Import Py BranchManager.

Definition article (code name : string) (price : pyval) : Article :=
  mkArticle (Some code) (Some (PStr name)) (Some price) (Some (PStr "10"))
            (Some (PStr "G")) (Some (PInt 3)) (Some (PInt 0)).

(** Branch A reports the price of article 1001 as the integer [1500],
    branch B as the float [1500.0]; 2002 exists in B only. *)
Definition branch_a : Branch :=
  mkBranch "A" "10.0.0.1" "Holoo1" "sa" "pw" 7480 CONNECTED true true
           [article "1001" "X" (PInt 1500)].

Definition branch_b : Branch :=
  mkBranch "B" "10.0.0.2" "Holoo2" "sa" "pw" 7480 CONNECTED true false
           [article "1001" "X" (PFloat (FFin false 1500 0));
            article "2002" "Y" (PInt 90)].

(** An enabled branch whose last health check found it offline. *)
Definition branch_off : Branch :=
  mkBranch "B" "10.0.0.2" "Holoo2" "sa" "pw" 7480 OFFLINE true false [].

Definition window (bs : list Branch) (pending : list Change)
  (compare : string) : MainWindow :=
  mkMainWindow bs "key" DEFAULT_TIMEOUT DEFAULT_RETRY pending [] 1 0 0
               compare false [].

Definition price_window : MainWindow :=
  window [branch_a; branch_b] [] PRICE.

Definition price_row_1001 : Row :=
  mkRow "1001" (PStr "X") [PInt 1500; PFloat (FFin false 1500 0)] true.

Definition change_for (branch_name : string) (new_price : Z) : Change :=
  mkChange "1001" branch_name PRICE (PInt 1500) (PInt new_price).

Definition offline_window : MainWindow :=
  window [branch_off] [change_for "B" 1600] PRICE.

Definition three_changes_window : MainWindow :=
  window [branch_a] [change_for "A" 1; change_for "A" 2; change_for "A" 3]
         PRICE.

(** A server that answers every request with a success object reporting
    two successes and one failure. *)
Definition ok_result : Result :=
  mkResult (Some (PBool true)) (Some (PStr "DB_CONNECTED")) None
           (Some [article "3003" "Z" (PInt 10)])
           (Some (mkSummary (Some 2) (Some 1))).

Definition net_up : nat -> request -> outcome :=
  fun _ _ => Responded 200 (inr ok_result).

(** A network that fails twice, then answers. *)
Definition net_flaky : nat -> request -> outcome :=
  fun n _ =>
    match n with
    | O => Raised ConnectionError
    | S O => Raised Timeout
    | _ => Responded 200 (inr ok_result)
    end.

(** The float [1.5e-10]. *)
Definition small_stock : pyfloat := float_of_decimal false 15 (-11).

Definition client (retry : Z) : HolooAPIClient :=
  mkClient branch_a "key" DEFAULT_TIMEOUT retry.

(** A database that finds the first article it is asked to update and
    none after it. *)
Definition db_ok : HolooApi.Database :=
  HolooApi.mkDatabase None None
    (fun n _ => match n with
                | O => HolooApi.Rowcount 1
                | _ => HolooApi.Rowcount 0
                end)
    None None None.

Definition three_items : list HolooApi.JsonItem :=
  [HolooApi.Object
     (HolooApi.mkItem (Some (PStr "1001")) None (Some (PInt 1600)) None);
   HolooApi.Object (HolooApi.mkItem (Some (PStr "1002")) None None None);
   HolooApi.Object (HolooApi.mkItem None (Some (PStr "X")) None None)].

(** A list whose second element is a number, not an object. *)
Definition items_with_number : list HolooApi.JsonItem :=
  [HolooApi.Object
     (HolooApi.mkItem (Some (PStr "1001")) None (Some (PInt 1600)) None);
   HolooApi.Scalar (PInt 5)].

(** A network on which every request fails to connect. *)
Definition net_down : nat -> request -> outcome :=
  fun _ _ => Raised ConnectionError.

(** A server that answers a batch by accepting every item, and anything
    else like [net_up]. *)
Definition net_counting : nat -> request -> outcome :=
  fun _ rq =>
    match rq_json rq with
    | Some (BatchItems items, _) =>
        Responded 200
          (inr (mkResult (Some (PBool true)) None None None
                  (Some (mkSummary (Some (Z.of_nat (List.length items)))
                                   (Some 0)))))
    | _ => Responded 200 (inr ok_result)
    end.

(** A ledger that addresses a connected branch, an offline one and one
    that is not registered. *)
Definition mixed_window : MainWindow :=
  window [branch_a; branch_off]
         [change_for "A" 1; change_for "B" 2; change_for "A" 3;
          change_for "C" 4]
         PRICE.

(** A snapshot that lists article 1001 twice, with two prices. *)
Definition branch_twice : Branch :=
  mkBranch "A" "10.0.0.1" "Holoo1" "sa" "pw" 7480 CONNECTED true true
           [article "1001" "X" (PInt 1500); article "1001" "X2" (PInt 1700)].

Definition twice_window : MainWindow :=
  window [branch_twice; branch_b] [] PRICE.

Definition twice_row : Row :=
  mkRow "1001" (PStr "X2") [PInt 1700; PFloat (FFin false 1500 0)] true.

(** A branch server whose database refuses the login: the ping is
    answered, every later request reaches [/check/db]. *)
Definition db_login_failed : HolooApi.Database :=
  HolooApi.mkDatabase (Some "[28000] Login failed for user sa")
    None (fun _ _ => HolooApi.Rowcount 0) None None None.

Definition keyed_client : HolooAPIClient :=
  mkClient branch_a HolooApi.API_KEY DEFAULT_TIMEOUT DEFAULT_RETRY.

Definition net_login_failed : nat -> request -> outcome :=
  fun n rq =>
    match n with
    | O => Responded 200 (inl "pong")
    | _ => Wire.deliver (Wire.check_route (rq_api_key rq) "Holoo1"
                                          db_login_failed)
    end.

(** A network on which every batch reaches a middleware in front of
    [db_ok]. *)
Definition net_middleware : nat -> request -> outcome :=
  fun _ rq =>
    match rq_json rq with
    | Some (BatchItems items, _) =>
        Wire.deliver (Wire.batch_route (rq_api_key rq) db_ok
                                       (map Wire.item_of items))
    | _ => Responded 200 (inr ok_result)
    end.

(** [mixed_window] with the key the middleware expects. *)
Definition keyed_window : MainWindow :=
  mkMainWindow [branch_a; branch_off] HolooApi.API_KEY DEFAULT_TIMEOUT
               DEFAULT_RETRY
               [change_for "A" 1; change_for "B" 2; change_for "A" 3;
                change_for "C" 4]
               [] 1 0 0 PRICE false [].

(** [price_window] after the box of branch A was unchecked. *)
Definition unchecked_window : MainWindow :=
  window [on_enabled_changed branch_a false; branch_b]
         [change_for "A" 1600] PRICE.

End Samples.

(* ================================================================== *)
(** ** Facts about Python values *)
(* ================================================================== *)

Module PyFacts.
Import Py.

(** *** Exact conversions *)

Lemma round_half_even_exact p q :
  0 < q -> p mod q = 0 -> round_half_even p q = p / q.
Proof.
  intros Hq Hm. unfold round_half_even. rewrite Hm.
  destruct (Z.compare_spec (2 * 0) q); try lia; reflexivity.
Qed.

Lemma round_half_even_mul t q :
  0 < q -> round_half_even (t * q) q = t.
Proof.
  intros Hq. rewrite round_half_even_exact; auto.
  - now apply Z.div_mul; lia.
  - now apply Z.mod_mul; lia.
Qed.

Lemma mag_den_pos e : 0 < mag_den e.
Proof.
  unfold mag_den. destruct (0 <=? e) eqn:E; [lia|].
  apply Z.pow_pos_nonneg; lia.
Qed.

Lemma ilog2_rat_int p : 0 < p -> ilog2_rat p 1 = Z.log2 p.
Proof.
  intros Hp. unfold ilog2_rat. change (Z.log2 1) with 0. rewrite Z.sub_0_r.
  pose proof (Z.log2_nonneg p) as Hl.
  destruct (0 <=? Z.log2 p) eqn:E; [|lia].
  pose proof (Z.log2_spec p Hp) as [Hlo _].
  destruct (1 * 2 ^ Z.log2 p <=? p) eqn:E2; [reflexivity|lia].
Qed.

(** An integer [M * 2^E] with a 53-bit [M] converts without rounding. *)
Lemma to_binary64_exact M E :
  0 < M < 2 ^ 53 -> 0 <= E <= 971 ->
  exists m e, to_binary64 (M * 2 ^ E) 1 = Some (m, e)
              /\ mag_num m e = M * 2 ^ E * mag_den e.
Proof.
  intros [HM0 HM] [HE0 HE].
  assert (Hp : 0 < M * 2 ^ E) by (apply Z.mul_pos_pos; [lia|apply Z.pow_pos_nonneg; lia]).
  unfold to_binary64. rewrite (ilog2_rat_int _ Hp).
  rewrite Z.log2_mul_pow2 by lia.
  set (lm := Z.log2 M).
  assert (Hlm : 0 <= lm <= 52).
  { unfold lm. split; [apply Z.log2_nonneg|].
    assert (Z.log2 M < 53) by (apply Z.log2_lt_pow2; lia). lia. }
  pose proof (Z.log2_spec M HM0) as [HMlo HMhi]. fold lm in HMlo, HMhi.
  rewrite Z.max_l by lia.
  destruct (0 <=? E + lm - 52) eqn:Ee.
  - (* the low bits that are dropped are zero *)
    assert (Hsplit : M * 2 ^ E = M * 2 ^ (52 - lm) * (1 * 2 ^ (E + lm - 52))).
    { rewrite Z.mul_1_l, <- Z.mul_assoc, <- Z.pow_add_r by lia.
      f_equal. f_equal. lia. }
    assert (Hr : round_half_even (M * 2 ^ E) (1 * 2 ^ (E + lm - 52))
                 = M * 2 ^ (52 - lm)).
    { rewrite Hsplit at 1. apply round_half_even_mul.
      rewrite Z.mul_1_l. apply Z.pow_pos_nonneg; lia. }
    rewrite Hr.
    assert (Hlt : M * 2 ^ (52 - lm) < 2 ^ 53).
    { replace 53 with ((lm + 1) + (52 - lm)) by lia.
      rewrite (Z.pow_add_r 2 (lm + 1)) by lia.
      apply Z.mul_lt_mono_pos_r; [apply Z.pow_pos_nonneg; lia|]. lia. }
    destruct (M * 2 ^ (52 - lm) =? 2 ^ 53) eqn:E53; [lia|].
    destruct (971 <? E + lm - 52) eqn:Eov; [lia|].
    eexists _, _. split; [reflexivity|].
    unfold mag_num, mag_den. rewrite Ee. rewrite Hsplit. ring.
  - replace (- (E + lm - 52)) with (52 - lm - E) by lia.
    assert (Hr : round_half_even (M * 2 ^ E * 2 ^ (52 - lm - E)) 1
                 = M * 2 ^ E * 2 ^ (52 - lm - E)).
    { rewrite round_half_even_exact by (try lia; apply Z.mod_1_r).
      apply Z.div_1_r. }
    rewrite Hr.
    assert (Hlt : M * 2 ^ E * 2 ^ (52 - lm - E) < 2 ^ 53).
    { rewrite <- Z.mul_assoc, <- Z.pow_add_r by lia.
      replace (E + (52 - lm - E)) with (52 - lm) by lia.
      replace 53 with ((lm + 1) + (52 - lm)) by lia.
      rewrite (Z.pow_add_r 2 (lm + 1)) by lia.
      apply Z.mul_lt_mono_pos_r; [apply Z.pow_pos_nonneg; lia|]. lia. }
    destruct (M * 2 ^ E * 2 ^ (52 - lm - E) =? 2 ^ 53) eqn:E53; [lia|].
    destruct (971 <? E + lm - 52) eqn:Eov; [lia|].
    eexists _, _. split; [reflexivity|].
    unfold mag_num, mag_den. rewrite Ee.
    replace (- (E + lm - 52)) with (52 - lm - E) by lia. reflexivity.
Qed.

(** *** Text *)

Lemma app_empty_r s : s +++ "" = s.
Proof. induction s as [|c s IH]; simpl; [reflexivity|now rewrite IH]. Qed.

Lemma app_assoc_str a b c : (a +++ b) +++ c = a +++ (b +++ c).
Proof. induction a as [|x a IH]; simpl; [reflexivity|now rewrite IH]. Qed.

Lemma snoc_not_empty s x : s +++ String x "" <> "".
Proof. destruct s; discriminate. Qed.

Lemma rstrip_snoc_ne c s x :
  x <> c -> rstrip c (s +++ String x "") = s +++ String x "".
Proof.
  intros Hx. induction s as [|y s IH]; simpl.
  - apply Ascii.eqb_neq in Hx. now rewrite Hx.
  - rewrite IH. destruct (s +++ String x "") eqn:E; [|reflexivity].
    now apply snoc_not_empty in E.
Qed.

Lemma rstrip_snoc_eq c s : rstrip c (s +++ String c "") = rstrip c s.
Proof.
  induction s as [|y s IH]; simpl.
  - now rewrite Ascii.eqb_refl.
  - now rewrite IH.
Qed.

Lemma string_of_list_snoc l x :
  string_of_list_ascii (l ++ [x]) = string_of_list_ascii l +++ String x "".
Proof. induction l as [|y l IH]; simpl; [reflexivity|now rewrite IH]. Qed.

Lemma list_of_string_snoc s x :
  list_ascii_of_string (s +++ String x "") = list_ascii_of_string s ++ [x].
Proof. induction s as [|y s IH]; simpl; [reflexivity|now rewrite IH]. Qed.

(** Digits are produced from the right: the accumulator is a suffix. *)
Lemma digits_fuel_acc fuel : forall n acc,
  digits_fuel fuel n acc = digits_fuel fuel n "" +++ acc.
Proof.
  induction fuel as [|fuel IH]; intros n acc; simpl; [reflexivity|].
  destruct (n <? 10); [reflexivity|].
  rewrite (IH _ (String _ acc)), (IH _ (String _ "")).
  now rewrite app_assoc_str.
Qed.

Lemma digits_last n :
  exists s, digits n = s +++ String (digit_char (n mod 10)) "".
Proof.
  unfold digits. cbn [digits_fuel]. destruct (n <? 10).
  - exists "". reflexivity.
  - rewrite digits_fuel_acc. eexists. reflexivity.
Qed.

Lemma group3_rev_head x t : exists t', group3_rev (x :: t) = x :: t'.
Proof.
  destruct t as [|b [|c [|d t]]]; simpl; eexists; reflexivity.
Qed.

Lemma group3_last s x :
  exists s', group3 (s +++ String x "") = s' +++ String x "".
Proof.
  unfold group3. rewrite list_of_string_snoc, rev_app_distr. cbn [rev app].
  destruct (group3_rev_head x (rev (list_ascii_of_string s))) as (t' & ->).
  cbn [rev]. rewrite string_of_list_snoc. eexists. reflexivity.
Qed.

Lemma digit_char_not_dot d : 0 <= d < 10 -> digit_char d <> "."%char.
Proof.
  intros H. assert (C : d = 0 \/ d = 1 \/ d = 2 \/ d = 3 \/ d = 4 \/ d = 5
                        \/ d = 6 \/ d = 7 \/ d = 8 \/ d = 9) by lia.
  repeat (destruct C as [->|C]; [discriminate|]). subst. discriminate.
Qed.

Lemma digit_char_zero d :
  0 <= d < 10 -> (digit_char d = "0"%char <-> d = 0).
Proof.
  intros H. assert (C : d = 0 \/ d = 1 \/ d = 2 \/ d = 3 \/ d = 4 \/ d = 5
                        \/ d = 6 \/ d = 7 \/ d = 8 \/ d = 9) by lia.
  assert (T : forall k, k <> 0 -> digit_char k <> "0"%char ->
                        (digit_char k = "0"%char <-> k = 0))
    by (intros k Hk Hc; split; [contradiction|lia]).
  repeat (destruct C as [->|C];
          [first [split; reflexivity | apply T; [lia|discriminate]]|]).
  subst. apply T; [lia|discriminate].
Qed.

(** A grouped numeral keeps its last digit, so no dot ends it. *)
Lemma rstrip_dot_grouped sign n :
  0 <= n ->
  rstrip "." (sign +++ group3 (digits n)) = sign +++ group3 (digits n).
Proof.
  intros Hn. destruct (digits_last n) as (s & ->).
  destruct (group3_last s (digit_char (n mod 10))) as (s' & ->).
  rewrite <- app_assoc_str. apply rstrip_snoc_ne.
  apply digit_char_not_dot. apply Z.mod_pos_bound. lia.
Qed.

Lemma pad_two_digits r : 0 <= r < 100 -> pad_left 2 (digits r) = two_digits r.
Proof.
  intros H.
  assert (Hall : forallb (fun k => String.eqb (pad_left 2 (digits (Z.of_nat k)))
                                              (two_digits (Z.of_nat k)))
                         (seq 0 100) = true) by (vm_compute; reflexivity).
  rewrite forallb_forall in Hall.
  specialize (Hall (Z.to_nat r)). rewrite Z2Nat.id in Hall by lia.
  apply String.eqb_eq, Hall, in_seq. lia.
Qed.

Lemma strip_fixed2 sign n r :
  0 <= n -> 0 <= r < 100 ->
  rstrip "." (rstrip "0" ((sign +++ group3 (digits n)) +++ "." +++ two_digits r))
  = (sign +++ group3 (digits n)) +++ frac_text r.
Proof.
  intros Hn Hr. set (P := sign +++ group3 (digits n)).
  assert (Hd1 : 0 <= r / 10 < 10).
  { split; [apply Z.div_pos; lia|apply Z.div_lt_upper_bound; lia]. }
  assert (Hd2 : 0 <= r mod 10 < 10) by (apply Z.mod_pos_bound; lia).
  unfold frac_text, two_digits.
  replace (P +++ "." +++ String (digit_char (r / 10))
                            (String (digit_char (r mod 10)) ""))
    with (((P +++ ".") +++ String (digit_char (r / 10)) "")
            +++ String (digit_char (r mod 10)) "")
    by (rewrite !app_assoc_str; reflexivity).
  destruct (r mod 10 =? 0) eqn:E2; cbn [negb].
  - apply Z.eqb_eq in E2. rewrite E2.
    change (digit_char 0) with "0"%char. rewrite rstrip_snoc_eq.
    destruct (r =? 0) eqn:E1; cbn [negb].
    + apply Z.eqb_eq in E1. subst r. change (digit_char (0 / 10)) with "0"%char.
      rewrite rstrip_snoc_eq.
      rewrite (rstrip_snoc_ne "0" P ".") by discriminate.
      rewrite rstrip_snoc_eq. rewrite app_empty_r.
      now apply rstrip_dot_grouped.
    + assert (r / 10 <> 0).
      { apply Z.eqb_neq in E1. intros Hz.
        pose proof (Z.div_mod r 10 ltac:(lia)). lia. }
      rewrite rstrip_snoc_ne by (rewrite digit_char_zero; lia).
      rewrite rstrip_snoc_ne by (apply digit_char_not_dot; lia).
      rewrite app_assoc_str. reflexivity.
  - apply Z.eqb_neq in E2.
    rewrite rstrip_snoc_ne by (rewrite digit_char_zero; lia).
    rewrite rstrip_snoc_ne by (apply digit_char_not_dot; lia).
    rewrite !app_assoc_str. reflexivity.
Qed.

(** *** Decimal places of grouped numerals *)

Lemma after_last_dot_plain l :
  Forall plain l -> after_last_dot (string_of_list_ascii l) = None.
Proof.
  induction 1 as [|c l Hc _ IH]; simpl; [reflexivity|].
  rewrite IH. apply Ascii.eqb_neq in Hc. now rewrite Hc.
Qed.

Lemma after_last_dot_app a b :
  after_last_dot (a +++ b)
  = match after_last_dot b with
    | Some n => Some n
    | None => option_map (fun n => (n + String.length b)%nat) (after_last_dot a)
    end.
Proof.
  induction a as [|c a IH]; simpl.
  - now destruct (after_last_dot b).
  - rewrite IH. destruct (after_last_dot b) as [n|]; [reflexivity|].
    destruct (after_last_dot a) as [n|]; simpl; [reflexivity|].
    destruct (Ascii.eqb c "."); [|reflexivity].
    simpl. f_equal. clear. induction a as [|x a IH]; simpl; [reflexivity|].
    now rewrite IH.
Qed.

Lemma digits_fuel_plain fuel : forall n acc,
  0 <= n -> Forall plain (list_ascii_of_string acc) ->
  Forall plain (list_ascii_of_string (digits_fuel fuel n acc)).
Proof.
  induction fuel as [|fuel IH]; intros n acc Hn Hacc; simpl; [assumption|].
  assert (Hd : Forall plain
                 (list_ascii_of_string (String (digit_char (n mod 10)) acc))).
  { simpl. constructor; [|assumption].
    apply digit_char_not_dot. apply Z.mod_pos_bound. lia. }
  destruct (n <? 10); [assumption|].
  apply IH; [apply Z.div_pos; lia|assumption].
Qed.

Lemma group3_rev_plain n : forall l,
  (List.length l <= n)%nat -> Forall plain l -> Forall plain (group3_rev l).
Proof.
  induction n as [|n IH]; intros l Hlen Hl.
  - destruct l; [constructor|simpl in Hlen; lia].
  - destruct l as [|a [|b [|c [|d t]]]]; try assumption.
    change (group3_rev (a :: b :: c :: d :: t))
      with (a :: b :: c :: ","%char :: group3_rev (d :: t)).
    inversion Hl as [|? ? Ha Hl1]; subst.
    inversion Hl1 as [|? ? Hb Hl2]; subst.
    inversion Hl2 as [|? ? Hc Hl3]; subst.
    repeat (constructor; [assumption|]).
    constructor; [discriminate|].
    apply IH; [simpl in *; lia|assumption].
Qed.

Lemma grouped_no_dot sign n :
  0 <= n -> (sign = "" \/ sign = "-") ->
  after_last_dot (sign +++ group3 (digits n)) = None.
Proof.
  intros Hn Hs. rewrite after_last_dot_app. unfold group3.
  rewrite after_last_dot_plain.
  - destruct Hs as [->| ->]; reflexivity.
  - apply Forall_rev. apply (group3_rev_plain _ _ (le_n _)).
    apply Forall_rev. unfold digits. apply digits_fuel_plain; [assumption|].
    constructor.
Qed.

Lemma after_last_dot_cons_plain c t :
  c <> "."%char -> after_last_dot (String c t) = after_last_dot t.
Proof.
  intros Hc. cbn [after_last_dot]. apply Ascii.eqb_neq in Hc. rewrite Hc.
  now destruct (after_last_dot t).
Qed.

Lemma after_last_dot_cons_dot t :
  after_last_dot t = None ->
  after_last_dot (String "." t) = Some (String.length t).
Proof. intros Ht. cbn [after_last_dot]. now rewrite Ht, Ascii.eqb_refl. Qed.

Lemma frac_text_places r :
  0 <= r < 100 ->
  match after_last_dot (frac_text r) with
  | Some n => (n <= 2)%nat
  | None => frac_text r = ""
  end.
Proof.
  intros Hr.
  assert (Hd1 : 0 <= r / 10 < 10).
  { split; [apply Z.div_pos; lia|apply Z.div_lt_upper_bound; lia]. }
  assert (Hd2 : 0 <= r mod 10 < 10) by (apply Z.mod_pos_bound; lia).
  pose proof (digit_char_not_dot _ Hd1) as N1.
  pose proof (digit_char_not_dot _ Hd2) as N2.
  unfold frac_text, two_digits.
  destruct (negb (r mod 10 =? 0)); [|destruct (negb (r =? 0))].
  - change ("." +++ ?s) with (String "." s).
    rewrite after_last_dot_cons_dot.
    + cbn [String.length]. lia.
    + now rewrite !after_last_dot_cons_plain.
  - rewrite after_last_dot_cons_dot.
    + cbn [String.length]. lia.
    + now rewrite after_last_dot_cons_plain.
  - reflexivity.
Qed.

Lemma grouped_frac_places sign n r :
  0 <= n -> 0 <= r < 100 -> (sign = "" \/ sign = "-") ->
  (decimal_places ((sign +++ group3 (digits n)) +++ frac_text r) <= 2)%nat.
Proof.
  intros Hn Hr Hs. unfold decimal_places. rewrite after_last_dot_app.
  pose proof (frac_text_places r Hr) as Hf.
  destruct (after_last_dot (frac_text r)) as [k|]; [assumption|].
  rewrite grouped_no_dot by assumption. simpl. lia.
Qed.

End PyFacts.

(* ================================================================== *)
(** ** Properties of branch_manager.py *)
(* ================================================================== *)

Module BranchManagerFacts.
Import Py PyFacts BranchManager.

(** *** Number formatting *)

Lemma int_of_float_integral neg m e t :
  mag_num m e = t * mag_den e ->
  int_of_float (FFin neg m e) = Some (signed neg t)
  /\ float_eq_int (FFin neg m e) (signed neg t) = true.
Proof.
  intros H. pose proof (mag_den_pos e) as Hd.
  unfold int_of_float, float_eq_int. rewrite H, Z.div_mul by lia.
  split; [reflexivity|]. apply Z.eqb_eq. unfold signed. destruct neg; lia.
Qed.

Lemma fmt_fixed_int_exact neg t :
  0 < t ->
  (exists M E, t = M * 2 ^ E /\ 0 < M < 2 ^ 53 /\ 0 <= E <= 971) ->
  fmt_fixed_int 0 (signed neg t) = Some (sign_text neg +++ group3 (digits t)).
Proof.
  intros Ht (M & E & -> & HM & HE).
  destruct (to_binary64_exact M E HM HE) as (m & e & Hconv & Hval).
  unfold fmt_fixed_int, float_of_int.
  assert (Hz : (signed neg (M * 2 ^ E) =? 0) = false)
    by (apply Z.eqb_neq; unfold signed; destruct neg; lia).
  rewrite Hz.
  assert (Habs : Z.abs (signed neg (M * 2 ^ E)) = M * 2 ^ E)
    by (unfold signed; destruct neg; lia).
  rewrite Habs, Hconv.
  assert (Hneg : (signed neg (M * 2 ^ E) <? 0) = neg).
  { unfold signed. destruct neg; [apply Z.ltb_lt|apply Z.ltb_ge]; lia. }
  rewrite Hneg. unfold fmt_fixed. cbn [Z.of_nat]. change (10 ^ 0) with 1.
  rewrite Z.mul_1_r, Hval, round_half_even_mul by apply mag_den_pos.
  rewrite Z.div_1_r, app_empty_r. reflexivity.
Qed.

Lemma format_integral_float neg m e t :
  0 < t -> m <> 0 ->
  mag_num m e = t * mag_den e ->
  (exists M E, t = M * 2 ^ E /\ 0 < M < 2 ^ 53 /\ 0 <= E <= 971) ->
  format_price (PFloat (FFin neg m e)) = sign_text neg +++ group3 (digits t)
  /\ format_number (PFloat (FFin neg m e)) = str_int (signed neg t).
Proof.
  intros Ht Hm Hval Hdec.
  destruct (int_of_float_integral neg m e t Hval) as [Hint Heq].
  apply Z.eqb_neq in Hm.
  unfold format_price, format_number.
  cbn [is_none eq_empty_str eq_zero float float_is_zero orb].
  rewrite Hm, Hint, Heq, (fmt_fixed_int_exact neg t Ht Hdec).
  split; reflexivity.
Qed.

Lemma format_integral_int i :
  i <> 0 -> Z.abs i < 2 ^ 53 ->
  format_price (PInt i) = sign_text (i <? 0) +++ group3 (digits (Z.abs i))
  /\ format_number (PInt i) = str_int i.
Proof.
  intros Hi Hb.
  assert (Hdec : exists M E, Z.abs i = M * 2 ^ E /\ 0 < M < 2 ^ 53
                             /\ 0 <= E <= 971).
  { exists (Z.abs i), 0. rewrite Z.pow_0_r, Z.mul_1_r. lia. }
  assert (Hsig : signed (i <? 0) (Z.abs i) = i).
  { unfold signed. destruct (i <? 0) eqn:E; lia. }
  pose proof (fmt_fixed_int_exact (i <? 0) (Z.abs i) ltac:(lia) Hdec) as Hfmt.
  rewrite Hsig in Hfmt.
  destruct Hdec as (M & E & HME & HM & HE).
  destruct (to_binary64_exact M E HM HE) as (m & e & Hconv & Hval).
  rewrite <- HME in Hconv, Hval.
  destruct (int_of_float_integral (i <? 0) m e (Z.abs i) Hval) as [Hint Heq].
  rewrite Hsig in Hint, Heq.
  assert (Hm : (m =? 0) = false).
  { apply Z.eqb_neq. intros ->. pose proof (mag_den_pos e).
    unfold mag_num in Hval. destruct (0 <=? e); nia. }
  apply Z.eqb_neq in Hi.
  unfold format_price, format_number.
  cbn [is_none eq_empty_str eq_zero float orb]. unfold float_of_int.
  rewrite Hi, Hconv. cbn [float_is_zero]. rewrite Hm, Hint, Heq, Hfmt.
  split; reflexivity.
Qed.

Lemma round_half_even_nonneg p q : 0 <= p -> 0 < q -> 0 <= round_half_even p q.
Proof.
  intros Hp Hq. unfold round_half_even.
  pose proof (Z.div_pos p q Hp Hq).
  destruct (_ ?= _); [destruct (Z.even _)| |]; lia.
Qed.

Lemma mag_num_nonneg m e : 0 <= m -> 0 <= mag_num m e.
Proof.
  intros Hm. unfold mag_num. destruct (0 <=? e) eqn:E; [|lia].
  apply Z.mul_nonneg_nonneg; [lia|]. apply Z.pow_nonneg. lia.
Qed.

Lemma format_fractional_float neg m e :
  0 <= m ->
  mag_num m e mod mag_den e <> 0 ->
  let c := round_half_even (mag_num m e * 100) (mag_den e) in
  format_price (PFloat (FFin neg m e))
  = (sign_text neg +++ group3 (digits (c / 100))) +++ frac_text (c mod 100)
  /\ format_number (PFloat (FFin neg m e))
     = rstrip "." (rstrip "0" (repr_float (FFin neg m e))).
Proof.
  intros Hm0 Hfrac c.
  pose proof (mag_den_pos e) as Hd.
  pose proof (mag_num_nonneg m e Hm0) as Hn.
  assert (Hm : (m =? 0) = false).
  { apply Z.eqb_neq. intros ->. apply Hfrac. unfold mag_num.
    destruct (0 <=? e); apply Z.mod_0_l; lia. }
  assert (Hne : float_eq_int (FFin neg m e)
                  (signed neg (mag_num m e / mag_den e)) = false).
  { unfold float_eq_int. apply Z.eqb_neq.
    pose proof (Z.div_mod (mag_num m e) (mag_den e) ltac:(lia)).
    unfold signed. destruct neg; nia. }
  assert (Hc : 0 <= c).
  { apply round_half_even_nonneg; [|assumption].
    apply Z.mul_nonneg_nonneg; lia. }
  unfold format_price, format_number.
  cbn [is_none eq_empty_str eq_zero float float_is_zero orb int_of_float].
  rewrite Hm. fold (signed neg (mag_num m e / mag_den e)). rewrite Hne.
  split; [|reflexivity].
  unfold fmt_fixed. change (10 ^ Z.of_nat 2) with 100. fold c.
  rewrite pad_two_digits by (apply Z.mod_pos_bound; lia).
  fold (sign_text neg). rewrite <- app_assoc_str.
  apply strip_fixed2.
  - apply Z.div_pos; lia.
  - apply Z.mod_pos_bound; lia.
Qed.

Lemma format_fractional_places neg m e :
  0 <= m ->
  mag_num m e mod mag_den e <> 0 ->
  (decimal_places (format_price (PFloat (FFin neg m e))) <= 2)%nat.
Proof.
  intros Hm Hfrac.
  destruct (format_fractional_float neg m e Hm Hfrac) as [-> _].
  pose proof (mag_den_pos e) as Hd.
  pose proof (mag_num_nonneg m e Hm) as Hn.
  assert (Hc : 0 <= round_half_even (mag_num m e * 100) (mag_den e)).
  { apply round_half_even_nonneg; [|assumption].
    apply Z.mul_nonneg_nonneg; lia. }
  apply grouped_frac_places.
  - apply Z.div_pos; lia.
  - apply Z.mod_pos_bound; lia.
  - destruct neg; simpl; auto.
Qed.

Lemma format_empty v :
  is_none v || eq_empty_str v || eq_zero v = true ->
  format_price v = "" /\ format_number v = "".
Proof.
  intros H. unfold format_price, format_number. rewrite H.
  split; [reflexivity|].
  destruct v as [|b|i|f|s]; cbn [is_none eq_empty_str eq_zero orb] in *;
    try reflexivity.
  - destruct b; [discriminate|reflexivity].
  - apply Z.eqb_eq in H. subst i. reflexivity.
  - cbn [float]. now rewrite H.
  - rewrite orb_false_r in H. now rewrite H.
Qed.

Lemma integral_decomposition neg m e :
  valid_float (FFin neg m e) -> m <> 0 ->
  mag_num m e mod mag_den e = 0 ->
  let t := mag_num m e / mag_den e in
  0 < t /\ mag_num m e = t * mag_den e
  /\ exists M E, t = M * 2 ^ E /\ 0 < M < 2 ^ 53 /\ 0 <= E <= 971.
Proof.
  intros [[Hm0 Hm] [He0 He]] Hnz Hint t.
  pose proof (mag_den_pos e) as Hd.
  assert (Hval : mag_num m e = t * mag_den e).
  { unfold t. pose proof (Z.div_mod (mag_num m e) (mag_den e) ltac:(lia)). lia. }
  unfold mag_num, mag_den in *. destruct (0 <=? e) eqn:E.
  - assert (Ht : t = m * 2 ^ e) by lia.
    assert (0 < 2 ^ e) by (apply Z.pow_pos_nonneg; lia).
    split; [nia|]. split; [assumption|].
    exists m, e. repeat split; try lia.
  - assert (0 < t) by nia.
    split; [assumption|]. split; [assumption|].
    exists t, 0. rewrite Z.pow_0_r, Z.mul_1_r. repeat split; try lia; nia.
Qed.

(** C9, as amended. [None], the empty string and a numeric zero render
    as the empty string; integral values render without decimals, grouped
    by thousands for price and plain for stock; a non-integral price renders
    with at most 2 decimals, trailing zeros and point stripped; a
    non-integral stock of magnitude at least [0.0001] renders as [str] of
    the number with trailing zeros and point stripped, however many decimals
    it has. *)
Theorem number_rendering :
  (forall v, is_none v || eq_empty_str v || eq_zero v = true ->
             format_price v = "" /\ format_number v = "")
  /\ (forall i, i <> 0 -> Z.abs i < 2 ^ 53 ->
        format_price (PInt i)
        = sign_text (i <? 0) +++ group3 (digits (Z.abs i))
        /\ format_number (PInt i) = str_int i)
  /\ (forall neg m e,
        valid_float (FFin neg m e) -> m <> 0 ->
        mag_num m e mod mag_den e = 0 ->
        let t := mag_num m e / mag_den e in
        format_price (PFloat (FFin neg m e))
        = sign_text neg +++ group3 (digits t)
        /\ format_number (PFloat (FFin neg m e)) = str_int (signed neg t))
  /\ (forall neg m e,
        0 <= m ->
        mag_num m e mod mag_den e <> 0 ->
        let c := round_half_even (mag_num m e * 100) (mag_den e) in
        format_price (PFloat (FFin neg m e))
        = (sign_text neg +++ group3 (digits (c / 100)))
            +++ frac_text (c mod 100)
        /\ (decimal_places (format_price (PFloat (FFin neg m e))) <= 2)%nat
        /\ (mag_den e <= mag_num m e * 10000 ->
            format_number (PFloat (FFin neg m e))
            = rstrip "." (rstrip "0" (repr_float (FFin neg m e))))).
Proof.
  split; [exact format_empty|].
  split; [exact format_integral_int|].
  split.
  - intros neg m e Hv Hm Hint t.
    destruct (integral_decomposition neg m e Hv Hm Hint) as (Ht & Hval & Hdec).
    now apply format_integral_float.
  - intros neg m e Hm Hfrac c.
    destruct (format_fractional_float neg m e Hm Hfrac) as [Hp Hn].
    split; [exact Hp|]. split; [|intros _; exact Hn].
    now apply format_fractional_places.
Qed.

(** C9, as stated, fails for stock: [0.125] renders with three decimals. *)
Lemma format_number_keeps_all_decimals :
  format_number (PFloat (FFin false 1 (-3))) = "0.125"
  /\ ~ (decimal_places (format_number (PFloat (FFin false 1 (-3)))) <= 2)%nat.
Proof.
  assert (H : format_number (PFloat (FFin false 1 (-3))) = "0.125")
    by (vm_compute; reflexivity).
  split; [exact H|]. rewrite H. vm_compute. lia.
Qed.

Lemma number_rendering_witness :
  format_price (PInt 0) = ""
  /\ format_price (PInt 1234567) = "1,234,567"
  /\ format_number (PFloat (FFin false 1500 0)) = "1500"
  /\ format_price (PFloat (FFin true 12005 (-3))) = "-1,500.62"
  /\ format_number (PFloat (FFin true 12005 (-3))) = "-1500.625".
Proof.
  destruct number_rendering as (H1 & H2 & H3 & H4).
  split; [apply (H1 (PInt 0)); reflexivity|].
  split.
  { destruct (H2 1234567) as [Hp _]; [lia|vm_compute; reflexivity|].
    rewrite Hp. vm_compute. reflexivity. }
  split.
  { destruct (H3 false 1500 0) as [_ Hn].
    - vm_compute. repeat split; discriminate.
    - lia.
    - vm_compute. reflexivity.
    - rewrite Hn. vm_compute. reflexivity. }
  destruct (H4 true 12005 (-3)) as (Hp & _ & Hn).
  - lia.
  - vm_compute. discriminate.
  - split.
    + rewrite Hp. vm_compute. reflexivity.
    + rewrite Hn; vm_compute; [reflexivity|discriminate].
Defined.

(** Below [0.0001] [str] writes the number with an exponent, and stripping
    the zeros then reaches into the exponent: [1.5e-10] is shown as
    [1.5e-1]. *)
Example format_number_small_value :
  str (PFloat Samples.small_stock) = "1.5e-10"
  /\ format_number (PFloat Samples.small_stock) = "1.5e-1".
Proof. split; vm_compute; reflexivity. Qed.

(** *** The request loop *)

Lemma requests_made_request log rq :
  requests_made (log ++ [EvRequest rq]) = S (requests_made log).
Proof.
  unfold requests_made. rewrite filter_app, length_app. simpl. lia.
Qed.

Lemma requests_made_other log ev :
  is_request ev = false -> requests_made (log ++ [ev]) = requests_made log.
Proof.
  intros H. unfold requests_made. rewrite filter_app, length_app. simpl.
  rewrite H. simpl. lia.
Qed.

Lemma send_eq net rq log :
  send net rq log = (net (requests_made log) rq, log ++ [EvRequest rq]).
Proof. reflexivity. Qed.

(** One failed attempt: the error is kept, a pause follows unless the
    attempt was the last one, and the loop goes on. *)
Lemma attempts_fail net rq retry n attempt last log msg :
  attempt_error (net (requests_made log) rq) = Some msg ->
  attempts net rq retry (S n) attempt last log
  = attempts net rq retry n (attempt + 1) (PStr msg)
      (log ++ [EvRequest rq]
           ++ if attempt <? retry - 1 then [EvSleep 1] else []).
Proof.
  intros H. cbn [attempts]. unfold bind at 1. rewrite send_eq.
  destruct (net (requests_made log) rq) as [e|code [m|r]]; simpl in H;
    try discriminate; injection H as <-;
    unfold bind, emit, ret;
    destruct (attempt <? retry - 1); simpl;
    rewrite <- ?app_assoc; simpl; rewrite ?app_nil_r; reflexivity.
Qed.

Lemma attempts_respond net rq retry n attempt last log code result :
  net (requests_made log) rq = Responded code (inr result) ->
  attempts net rq retry (S n) attempt last log
  = (result, log ++ [EvRequest rq]).
Proof.
  intros H. cbn [attempts]. unfold bind. rewrite send_eq, H. reflexivity.
Qed.

Lemma requests_made_app log1 log2 :
  requests_made (log1 ++ log2) = (requests_made log1 + requests_made log2)%nat.
Proof. unfold requests_made. now rewrite filter_app, length_app. Qed.

Lemma requests_made_fail_events rq retry k : forall attempt,
  requests_made (fail_events rq retry attempt k) = k.
Proof.
  induction k as [|k IH]; intros attempt; [reflexivity|].
  cbn [fail_events].
  change (EvRequest rq :: ?l) with ([EvRequest rq] ++ l).
  rewrite !requests_made_app, IH.
  destruct (attempt <? retry - 1); reflexivity.
Qed.

Lemma attempts_fail_prefix net rq retry k : forall n attempt last log,
  (forall j, (j < k)%nat ->
     attempt_error (net (requests_made log + j)%nat rq) <> None) ->
  attempts net rq retry (k + n) attempt last log
  = attempts net rq retry n (attempt + Z.of_nat k)
      (last_error_after net rq (requests_made log) k last)
      (log ++ fail_events rq retry attempt k).
Proof.
  induction k as [|k IH]; intros n attempt last log Hfail.
  - simpl. now rewrite Z.add_0_r, app_nil_r.
  - assert (H0 : attempt_error (net (requests_made log) rq) <> None).
    { specialize (Hfail O ltac:(lia)). now rewrite Nat.add_0_r in Hfail. }
    destruct (attempt_error (net (requests_made log) rq)) as [msg|] eqn:E;
      [|congruence].
    change (S k + n)%nat with (S (k + n)).
    rewrite (attempts_fail _ _ _ _ _ _ _ msg E).
    rewrite IH.
    + assert (Hn : requests_made
                     (log ++ [EvRequest rq]
                          ++ (if attempt <? retry - 1 then [EvSleep 1] else []))
                   = S (requests_made log)).
      { rewrite !requests_made_app. destruct (attempt <? retry - 1);
          simpl; unfold requests_made; simpl; lia. }
      rewrite Hn. f_equal.
      * lia.
      * destruct k as [|k']; unfold last_error_after.
        -- now rewrite Nat.add_0_r, E.
        -- replace (S (requests_made log) + k')%nat
             with (requests_made log + S k')%nat by lia.
           destruct (attempt_error (net (requests_made log + S k')%nat rq))
             eqn:E'; [reflexivity|].
           exfalso. apply (Hfail (S k')); [lia|exact E'].
      * cbn [fail_events]. rewrite <- !app_assoc. reflexivity.
    + intros j Hj.
      assert (Hn : requests_made
                     (log ++ [EvRequest rq]
                          ++ (if attempt <? retry - 1 then [EvSleep 1] else []))
                   = S (requests_made log)).
      { rewrite !requests_made_app. destruct (attempt <? retry - 1);
          simpl; unfold requests_made; simpl; lia. }
      rewrite Hn.
      replace (S (requests_made log) + j)%nat
        with (requests_made log + S j)%nat by lia.
      apply Hfail. lia.
Qed.

(** C3. A request whose first two attempts raise and whose third gets
    a JSON response returns that response when the retry count is 3, and
    the failure carrying the error of the second attempt when it is 2; a
    JSON response ends the loop at once, whatever it says; and when every
    attempt fails the result carries the error of the last one. *)
Theorem request_retry_policy (net : nat -> request -> outcome)
  (c : HolooAPIClient) (method : http_method) (endpoint : string)
  (data : payload) (log : list event) :
  let rq := build_request c method endpoint data in
  let n0 := requests_made log in
  let run := _request net c method endpoint data log in
  (forall e1 e2 code body,
      net n0 rq = Raised e1 ->
      net (S n0) rq = Raised e2 ->
      net (S (S n0)) rq = Responded code (inr body) ->
      (cl_retry c = 3 ->
       run = (body, log ++ [EvRequest rq; EvSleep 1; EvRequest rq;
                            EvSleep 1; EvRequest rq]))
      /\ (cl_retry c = 2 ->
          run = (failure (PStr (error_text e2)),
                 log ++ [EvRequest rq; EvSleep 1; EvRequest rq])))
  /\ (forall k code body,
        Z.of_nat k < cl_retry c ->
        (forall j, (j < k)%nat ->
           attempt_error (net (n0 + j)%nat rq) <> None) ->
        net (n0 + k)%nat rq = Responded code (inr body) ->
        fst run = body /\ requests_made (snd run) = (n0 + k + 1)%nat)
  /\ (forall msg,
        1 <= cl_retry c ->
        (forall j, Z.of_nat j < cl_retry c ->
           attempt_error (net (n0 + j)%nat rq) <> None) ->
        attempt_error (net (n0 + Z.to_nat (cl_retry c) - 1)%nat rq)
        = Some msg ->
        fst run = failure (PStr msg)
        /\ requests_made (snd run) = (n0 + Z.to_nat (cl_retry c))%nat).
Proof.
  intros rq n0 run. subst run. unfold _request. fold rq.
  split; [|split].
  - intros e1 e2 code body H1 H2 H3. split; intros Hr; rewrite Hr.
    + change (Z.to_nat 3) with 3%nat.
      rewrite (attempts_fail _ _ _ _ _ _ _ (error_text e1))
        by (fold n0; now rewrite H1).
      cbn [Z.ltb Z.compare Z.sub Z.add Z.opp Z.pos_sub Pos.compare
           Pos.compare_cont Pos.pred_double].
      rewrite (attempts_fail _ _ _ _ _ _ _ (error_text e2)).
      2:{ rewrite !requests_made_app. fold n0.
          replace (n0 + _)%nat with (S n0) by (unfold requests_made; simpl; lia).
          now rewrite H2. }
      cbn [Z.ltb Z.compare Z.sub Z.add Z.opp Z.pos_sub Pos.compare
           Pos.compare_cont Pos.pred_double Pos.add Pos.succ].
      rewrite (attempts_respond _ _ _ _ _ _ _ code body).
      2:{ rewrite !requests_made_app. fold n0.
          replace (n0 + _ + _)%nat with (S (S n0))
            by (unfold requests_made; simpl; lia).
          exact H3. }
      rewrite <- !app_assoc. reflexivity.
    + change (Z.to_nat 2) with 2%nat.
      rewrite (attempts_fail _ _ _ _ _ _ _ (error_text e1))
        by (fold n0; now rewrite H1).
      cbn [Z.ltb Z.compare Z.sub Z.add Z.opp Z.pos_sub Pos.compare
           Pos.compare_cont Pos.pred_double].
      rewrite (attempts_fail _ _ _ _ _ _ _ (error_text e2)).
      2:{ rewrite !requests_made_app. fold n0.
          replace (n0 + _)%nat with (S n0) by (unfold requests_made; simpl; lia).
          now rewrite H2. }
      cbn [Z.ltb Z.compare Z.sub Z.add Z.opp Z.pos_sub Pos.compare
           Pos.compare_cont Pos.pred_double Pos.add Pos.succ attempts ret].
      rewrite <- !app_assoc. reflexivity.
  - intros k code body Hk Hfail Hresp.
    replace (Z.to_nat (cl_retry c))
      with (k + S (Z.to_nat (cl_retry c) - k - 1))%nat by lia.
    rewrite attempts_fail_prefix by exact Hfail.
    rewrite (attempts_respond _ _ _ _ _ _ _ code body).
    + simpl. split; [reflexivity|].
      rewrite requests_made_request, requests_made_app,
        requests_made_fail_events.
      fold n0. lia.
    + rewrite requests_made_app, requests_made_fail_events. exact Hresp.
  - intros msg Hr Hfail Hlast.
    pose proof (attempts_fail_prefix net rq (cl_retry c)
                  (Z.to_nat (cl_retry c)) O 0 PNone log) as Hrun.
    rewrite Nat.add_0_r in Hrun. rewrite Hrun.
    + cbn [attempts ret fst snd]. split.
      * f_equal. unfold last_error_after.
        destruct (Z.to_nat (cl_retry c)) as [|k'] eqn:Ek; [lia|].
        fold n0. replace (n0 + S k' - 1)%nat with (n0 + k')%nat in Hlast by lia.
        now rewrite Hlast.
      * rewrite requests_made_app, requests_made_fail_events. reflexivity.
    + intros j Hj. apply Hfail. lia.
Qed.

Lemma request_retry_policy_witness :
  fst (_request Samples.net_flaky (Samples.client 3) POST "/articles"
         NoData [])
  = Samples.ok_result
  /\ fst (_request Samples.net_flaky (Samples.client 2) POST "/articles"
            NoData [])
     = failure (PStr (error_text Timeout)).
Proof.
  split.
  - destruct (request_retry_policy Samples.net_flaky (Samples.client 3) POST
                "/articles" NoData []) as (H & _ & _).
    destruct (H ConnectionError Timeout 200 Samples.ok_result
                eq_refl eq_refl eq_refl) as [H3 _].
    rewrite (H3 eq_refl). reflexivity.
  - destruct (request_retry_policy Samples.net_flaky (Samples.client 2) POST
                "/articles" NoData []) as (H & _ & _).
    destruct (H ConnectionError Timeout 200 Samples.ok_result
                eq_refl eq_refl eq_refl) as [_ H2].
    rewrite (H2 eq_refl). reflexivity.
Defined.

(** C2. [check_health] follows the decision table: the unauthenticated
    ping, sent with a 5 second timeout, decides OFFLINE (it raised) or
    API_DOWN (status other than 200); otherwise the authenticated database
    probe is made and decides CONNECTED (success), AUTH_ERROR (status
    DB_AUTH_ERROR or DB_NOT_FOUND) or API_DOWN (anything else). *)
Theorem check_health_decision_table (net : nat -> request -> outcome)
  (c : HolooAPIClient) (log : list event) :
  let ping := mkRequest GET (api_url (cl_branch c) +++ "/ping") None None 5 in
  let o := net (requests_made log) ping in
  let probe := _request net c POST "/check/db" NoData (log ++ [EvRequest ping]) in
  fst (check_health net c log) = health_table o (fst probe)
  /\ snd (check_health net c log)
     = match o with
       | Responded code _ => if code =? 200 then snd probe
                             else log ++ [EvRequest ping]
       | Raised _ => log ++ [EvRequest ping]
       end.
Proof.
  intros ping o probe. subst o. unfold check_health, bind, send.
  fold (requests_made log). fold ping. unfold health_table.
  destruct (net (requests_made log) ping) as [e|code body];
    [split; reflexivity|].
  destruct (code =? 200); [|split; reflexivity].
  cbn [negb]. fold probe. destruct probe as [result log'].
  cbn [fst snd]. destruct (opt_truthy (r_success result)); cbn [negb].
  - split; reflexivity.
  - destruct (r_status result) as [[| | | |s]|]; cbn [get eq_str orb];
      try (split; reflexivity).
    destruct (String.eqb s "DB_AUTH_ERROR" || String.eqb s "DB_NOT_FOUND");
      split; reflexivity.
Qed.

(** *** What a request loop adds to the log *)

Lemma attempts_events net rq retry n : forall attempt last log,
  exists evs,
    snd (attempts net rq retry n attempt last log) = log ++ evs
    /\ Forall (quiet_or rq) evs
    /\ (n <> O -> In (EvRequest rq) evs).
Proof.
  induction n as [|n IH]; intros attempt last log.
  - exists []. simpl. rewrite app_nil_r. repeat split; auto; congruence.
  - cbn [attempts]. unfold bind at 1.
    change (send net rq log)
      with (net (List.length (filter is_request log)) rq, log ++ [EvRequest rq]).
    set (o := net _ rq).
    assert (Hnext : forall last' l,
               Forall (quiet_or rq) l ->
               exists evs,
                 snd (attempts net rq retry n (attempt + 1) last'
                        ((log ++ [EvRequest rq]) ++ l))
                 = log ++ evs
                 /\ Forall (quiet_or rq) evs /\ In (EvRequest rq) evs).
    { intros last' l Hl.
      destruct (IH (attempt + 1) last' ((log ++ [EvRequest rq]) ++ l))
        as (evs & He & Hf & _).
      exists ([EvRequest rq] ++ l ++ evs). rewrite He, <- !app_assoc.
      split; [reflexivity|]. split.
      - apply Forall_app. split; [constructor; [now left|constructor]|].
        apply Forall_app. auto.
      - simpl. now left. }
    destruct o as [e|code [msg|result]].
    + unfold bind, emit, ret. destruct (attempt <? retry - 1).
      * destruct (Hnext (PStr (error_text e)) [EvSleep 1]) as (evs & H1 & H2 & H3).
        { constructor; [now right|constructor]. }
        exists evs. auto.
      * destruct (Hnext (PStr (error_text e)) []) as (evs & H1 & H2 & H3);
          [constructor|].
        rewrite app_nil_r in H1. exists evs. auto.
    + unfold bind, emit, ret. destruct (attempt <? retry - 1).
      * destruct (Hnext (PStr msg) [EvSleep 1]) as (evs & H1 & H2 & H3).
        { constructor; [now right|constructor]. }
        exists evs. auto.
      * destruct (Hnext (PStr msg) []) as (evs & H1 & H2 & H3);
          [constructor|].
        rewrite app_nil_r in H1. exists evs. auto.
    + exists [EvRequest rq]. simpl. repeat split; auto.
      constructor; [now left|constructor].
Qed.

Lemma request_events net c method endpoint data log :
  exists evs,
    snd (_request net c method endpoint data log) = log ++ evs
    /\ Forall (quiet_or (build_request c method endpoint data)) evs
    /\ (1 <= cl_retry c ->
        In (EvRequest (build_request c method endpoint data)) evs).
Proof.
  unfold _request.
  destruct (attempts_events net (build_request c method endpoint data)
              (cl_retry c) (Z.to_nat (cl_retry c)) 0 PNone log)
    as (evs & H1 & H2 & H3).
  exists evs. repeat split; auto. intros Hr. apply H3. lia.
Qed.

(** *** The dispatch cycle *)

Lemma is_connected_true s : is_connected s = true <-> s = CONNECTED.
Proof. destruct s; simpl; split; congruence. Qed.

Lemma apply_group_unhealthy net w tally branch_name changes log b :
  find (fun b => String.eqb (name b) branch_name) (branches w) = Some b ->
  status b <> CONNECTED ->
  apply_group net w tally (branch_name, changes) log
  = ((fst tally, snd tally + Z.of_nat (List.length changes)), log).
Proof.
  intros Hfind Hst. destruct tally as [s f]. unfold apply_group.
  rewrite Hfind.
  destruct (is_connected (status b)) eqn:E.
  - apply is_connected_true in E. contradiction.
  - reflexivity.
Qed.

Lemma apply_group_events net w tally g log :
  exists evs,
    snd (apply_group net w tally g log) = log ++ evs
    /\ forall rq, In (EvRequest rq) evs -> to_connected w rq.
Proof.
  destruct tally as [s f], g as [branch_name changes]. unfold apply_group.
  destruct (find _ (branches w)) as [b|] eqn:Hfind.
  2:{ exists []. simpl. rewrite app_nil_r. split; [reflexivity|]. intros ? []. }
  destruct (is_connected (status b)) eqn:Hc; cbn [negb].
  2:{ exists []. simpl. rewrite app_nil_r. split; [reflexivity|]. intros ? []. }
  unfold bind, batch_update.
  destruct (request_events net (client_of w b) POST "/batch/update"
              (BatchItems (map make_item changes)) log)
    as (evs & Hlog & Hall & _).
  destruct (_request net (client_of w b) POST "/batch/update"
              (BatchItems (map make_item changes)) log) as [result log'].
  cbn [snd] in Hlog. subst log'. exists evs. split.
  - destruct (opt_truthy (r_success result)); reflexivity.
  - intros rq Hin. rewrite Forall_forall in Hall.
    destruct (Hall _ Hin) as [Heq|Heq]; [|discriminate].
    injection Heq as ->. exists b, "/batch/update", (BatchItems (map make_item changes)).
    apply find_some in Hfind. destruct Hfind as [Hb _].
    apply is_connected_true in Hc. auto.
Qed.

Lemma apply_groups_events net w groups : forall tally log,
  exists evs,
    snd (apply_groups net w tally groups log) = log ++ evs
    /\ forall rq, In (EvRequest rq) evs -> to_connected w rq.
Proof.
  induction groups as [|g rest IH]; intros tally log.
  - exists []. simpl. rewrite app_nil_r. split; [reflexivity|]. intros ? [].
  - cbn [apply_groups]. unfold bind.
    destruct (apply_group_events net w tally g log) as (evs1 & H1 & A1).
    destruct (apply_group net w tally g log) as [tally' log1].
    cbn [snd] in H1. subst log1.
    destruct (IH tally' (log ++ evs1)) as (evs2 & H2 & A2).
    exists (evs1 ++ evs2). rewrite H2, app_assoc. split; [reflexivity|].
    intros rq Hin. apply in_app_or in Hin. destruct Hin; auto.
Qed.

Lemma fetch_loop_events net w bs : forall log,
  exists evs,
    snd (fetch_loop net w bs log) = log ++ evs
    /\ (forall rq, In (EvRequest rq) evs ->
          exists b, In b bs /\ fetchable b = true
                    /\ rq = articles_request w b)
    /\ (1 <= retry w ->
        forall b, In b bs -> fetchable b = true ->
                  In (EvRequest (articles_request w b)) evs).
Proof.
  induction bs as [|b rest IH]; intros log.
  - exists []. simpl. rewrite app_nil_r. split; [reflexivity|].
    split; [intros ? []|intros _ ? []].
  - cbn [fetch_loop]. destruct (fetchable b) eqn:Hf.
    + unfold get_articles. unfold bind.
      destruct (request_events net (client_of w b) POST "/articles"
                  (ArticlesQuery "" 50000) log) as (evs1 & H1 & A1 & R1).
      destruct (_request net (client_of w b) POST "/articles"
                  (ArticlesQuery "" 50000) log) as [result log1].
      cbn [snd] in H1. subst log1.
      assert (Hstep : forall arts,
                 exists evs,
                   snd (let '(a, log') := fetch_loop net w rest (log ++ evs1) in
                        ret (set_articles b arts :: a) log')
                   = log ++ evs
                   /\ (forall rq, In (EvRequest rq) evs ->
                         exists b', In b' (b :: rest) /\ fetchable b' = true
                                    /\ rq = articles_request w b')
                   /\ (1 <= retry w ->
                       forall b', In b' (b :: rest) -> fetchable b' = true ->
                                  In (EvRequest (articles_request w b')) evs)).
      { intros arts. destruct (IH (log ++ evs1)) as (evs2 & H2 & A2 & R2).
        destruct (fetch_loop net w rest (log ++ evs1)) as [bs' log2].
        cbn [snd] in H2. subst log2. exists (evs1 ++ evs2).
        cbn [ret snd]. rewrite app_assoc. split; [reflexivity|]. split.
        - intros rq Hin. apply in_app_or in Hin. destruct Hin as [Hin|Hin].
          + rewrite Forall_forall in A1. destruct (A1 _ Hin) as [E|E];
              [|discriminate].
            injection E as ->. exists b. simpl. auto.
          + destruct (A2 _ Hin) as (b' & Hb' & Hf' & ->).
            exists b'. simpl. auto.
        - intros Hr b' [<-|Hb'] Hf'; apply in_or_app.
          + left. apply R1. exact Hr.
          + right. now apply R2. }
      destruct (opt_truthy (r_success result)); unfold ret at 1; apply Hstep.
    + unfold bind. destruct (IH log) as (evs & H1 & A1 & R1).
      destruct (fetch_loop net w rest log) as [bs' log1].
      cbn [snd] in H1. subst log1. exists evs. cbn [ret snd].
      split; [reflexivity|]. split.
      * intros rq Hin. destruct (A1 _ Hin) as (b' & Hb' & Hf' & ->).
        exists b'. simpl. auto.
      * intros Hr b' [<-|Hb'] Hf'; [congruence|now apply R1].
Qed.

Lemma fetchable_spec b :
  fetchable b = true <-> enabled b = true /\ status b = CONNECTED.
Proof.
  unfold fetchable. rewrite andb_true_iff, is_connected_true. tauto.
Qed.

Lemma fetch_all_data_events net w log :
  exists evs,
    snd (fetch_all_data net w log) = log ++ evs
    /\ (forall rq, In (EvRequest rq) evs ->
          exists b, In b (branches w) /\ enabled b = true
                    /\ status b = CONNECTED /\ rq = articles_request w b)
    /\ (1 <= retry w ->
        forall b, In b (branches w) -> enabled b = true ->
                  status b = CONNECTED ->
                  In (EvRequest (articles_request w b)) evs).
Proof.
  unfold fetch_all_data.
  destruct (filter fetchable (branches w)) as [|b0 l] eqn:Hfil.
  - exists [EvWarning]. split; [reflexivity|]. split.
    + intros rq [H|[]]. discriminate.
    + intros _ b Hb He Hs. exfalso.
      assert (Hin : In b (filter fetchable (branches w))).
      { apply filter_In. split; [assumption|]. apply fetchable_spec. auto. }
      rewrite Hfil in Hin. destruct Hin.
  - unfold bind. destruct (fetch_loop_events net w (branches w) log)
      as (evs & H1 & A1 & R1).
    destruct (fetch_loop net w (branches w) log) as [bs log1].
    cbn [snd] in H1. subst log1. exists evs. cbn [ret snd].
    split; [reflexivity|]. split.
    + intros rq Hin. destruct (A1 _ Hin) as (b & Hb & Hf & ->).
      apply fetchable_spec in Hf. exists b. tauto.
    + intros Hr b Hb He Hs. apply R1; auto. apply fetchable_spec. auto.
Qed.

Lemma fetch_all_data_pending net w log :
  pending_changes (fst (fetch_all_data net w log)) = pending_changes w.
Proof.
  unfold fetch_all_data. destruct (filter fetchable (branches w)).
  - reflexivity.
  - unfold bind. destruct (fetch_loop net w (branches w) log). reflexivity.
Qed.

(** C8, as amended. A dispatch cycle runs the groups, empties the ledger
    whatever the outcome, adds the counts reported by the server for each
    branch that was called, and then fetches again from the branches that
    are enabled and CONNECTED (one request at least for each of them when
    the retry count is positive, and no request for any other branch). *)
Theorem dispatch_cycle_outcome (net : nat -> request -> outcome)
  (w : MainWindow) (log : list event) :
  let dispatch :=
    apply_groups net w (0, 0) (changes_by_branch (pending_changes w)) log in
  let tally := fst dispatch in
  let reported := snd dispatch ++ [EvReport (fst tally) (snd tally)] in
  let refetch := fetch_all_data net (set_pending_changes w []) reported in
  do_apply_changes net w log = ((fst refetch, tally), snd refetch)
  /\ pending_changes (fst refetch) = []
  /\ (forall s f branch_name changes b lg lg' result a c,
        find (fun b => String.eqb (name b) branch_name) (branches w) = Some b ->
        status b = CONNECTED ->
        batch_update net (client_of w b) (map make_item changes) lg
        = (result, lg') ->
        opt_truthy (r_success result) = true ->
        r_summary result = Some (mkSummary (Some a) (Some c)) ->
        apply_group net w (s, f) (branch_name, changes) lg
        = ((s + a, f + c), lg'))
  /\ exists evs,
       snd refetch = reported ++ evs
       /\ (forall rq, In (EvRequest rq) evs ->
             exists b, In b (branches w) /\ enabled b = true
                       /\ status b = CONNECTED
                       /\ rq = articles_request w b)
       /\ (1 <= retry w ->
           forall b, In b (branches w) -> enabled b = true ->
                     status b = CONNECTED ->
                     In (EvRequest (articles_request w b)) evs).
Proof.
  intros dispatch tally reported refetch.
  split; [|split; [|split]].
  - unfold do_apply_changes, bind. subst refetch reported tally.
    fold dispatch. destruct dispatch as [t log1]. cbn [fst snd]. unfold emit.
    destruct (fetch_all_data net (set_pending_changes w []) _) as [w' log2].
    reflexivity.
  - subst refetch. now rewrite fetch_all_data_pending.
  - intros s f branch_name changes b lg lg' result a c Hfind Hs Hb Ht Hsum.
    unfold apply_group. rewrite Hfind, Hs. cbn [is_connected negb].
    unfold bind. rewrite Hb, Ht, Hsum. reflexivity.
  - apply (fetch_all_data_events net (set_pending_changes w []) reported).
Qed.

(** C8, as stated, fails on its last part: an enabled branch that is not
    CONNECTED is not fetched again, even when its server would answer. *)
Lemma enabled_offline_branch_is_not_refetched :
  ~ refetches_every_enabled_branch Samples.net_up Samples.offline_window [].
Proof.
  intros H.
  specialize (H Samples.branch_off (or_introl eq_refl) eq_refl).
  vm_compute in H. destruct H as [H|[H|[]]]; discriminate H.
Qed.

Lemma dispatch_cycle_outcome_witness :
  snd (fst (do_apply_changes Samples.net_up Samples.three_changes_window []))
  = (2, 1)
  /\ pending_changes
       (fst (fst (do_apply_changes Samples.net_up
                    Samples.three_changes_window [])))
     = [].
Proof.
  destruct (dispatch_cycle_outcome Samples.net_up Samples.three_changes_window
              []) as (Hrun & Hpending & _ & _).
  rewrite Hrun. cbn [fst snd]. split.
  - vm_compute. reflexivity.
  - exact Hpending.
Defined.

(** *** Rows *)

Lemma rows_loop_codes ct rb eb items :
  map row_code (rows_loop ct false rb eb items) = od_keys items.
Proof.
  induction items as [|[code data] rest IH]; simpl; [reflexivity|].
  now rewrite IH.
Qed.

Lemma rows_loop_all ct rb eb items :
  rows_loop ct false rb eb items = map (make_row ct rb eb) items.
Proof.
  induction items as [|item rest IH]; simpl; [reflexivity|].
  now rewrite IH.
Qed.

Lemma rows_loop_filter ct rb eb items :
  rows_loop ct true rb eb items
  = filter row_has_diff (rows_loop ct false rb eb items).
Proof.
  induction items as [|item rest IH]; simpl; [reflexivity|].
  rewrite IH.
  destruct (row_has_diff (make_row ct rb eb item)); reflexivity.
Qed.

(** C6. For the same snapshots and comparison, the rows produced with
    diff-only enabled are exactly the rows of the unfiltered pass whose
    [has_diff] is true, in the same order and unchanged. *)
Theorem diff_only_is_filter (w : MainWindow) :
  rows_data (set_diff_only w true)
  = filter row_has_diff (rows_data (set_diff_only w false)).
Proof.
  unfold rows_data; simpl. apply rows_loop_filter.
Qed.

(** *** Slices *)

Lemma firstn_add_app {A} (a b : nat) (l : list A) :
  firstn (a + b) l = firstn a l ++ firstn b (skipn a l).
Proof.
  revert l; induction a as [|a IH]; intros l; simpl; [reflexivity|].
  destruct l as [|x l]; simpl.
  - now rewrite firstn_nil.
  - now rewrite IH.
Qed.

Lemma py_slice_window {A} (l : list A) (s len : Z) :
  0 <= s -> 0 <= len ->
  py_slice l s (s + len) = firstn (Z.to_nat len) (skipn (Z.to_nat s) l).
Proof.
  intros Hs Hlen. unfold py_slice.
  set (n := Z.of_nat (List.length l)).
  assert (Hn : 0 <= n) by (unfold n; lia).
  destruct (s <? 0) eqn:E1; [lia|].
  destruct (s + len <? 0) eqn:E2; [lia|].
  destruct (Z_le_gt_dec n s) as [Hge|Hlt].
  - rewrite (Z.min_r s n), (Z.min_r (s + len) n) by lia.
    rewrite (skipn_all2 l (n := Z.to_nat s)) by (unfold n in Hge; lia).
    rewrite (skipn_all2 l (n := Z.to_nat n)) by (unfold n; lia).
    now rewrite !firstn_nil.
  - rewrite (Z.min_l s n) by lia.
    destruct (Z_le_gt_dec (s + len) n) as [Hin|Hout].
    + rewrite Z.min_l by lia. f_equal. lia.
    + rewrite Z.min_r by lia.
      rewrite !firstn_all2; [reflexivity| |];
        rewrite length_skipn; unfold n in *; lia.
Qed.

Lemma pages_concat {A} (P : nat) (l : list A) (n : nat) :
  List.concat (map (fun k => firstn P (skipn (P * k)%nat l)) (seq 0 n))
  = firstn (P * n)%nat l.
Proof.
  induction n as [|n IH].
  - now rewrite Nat.mul_0_r.
  - rewrite seq_S, map_app, concat_app, IH. simpl.
    rewrite app_nil_r.
    replace (P * S n)%nat with (P * n + P)%nat by lia.
    now rewrite firstn_add_app.
Qed.

Lemma rows_data_set_paging w page size :
  rows_data (set_paging w page size) = rows_data w.
Proof. reflexivity. Qed.

Lemma table_window w page size :
  0 < size -> 1 <= page ->
  table (update_table (set_paging w page size))
  = firstn (Z.to_nat size) (skipn (Z.to_nat (size * (page - 1))) (rows_data w)).
Proof.
  intros Hsize Hpage. cbn [update_table table]. unfold paginate.
  cbn [set_paging items_per_page current_page].
  rewrite rows_data_set_paging.
  destruct (0 <? size) eqn:E; [|lia].
  rewrite py_slice_window by nia.
  do 2 f_equal. lia.
Qed.

Lemma total_pages_cover w size :
  1 <= size ->
  Z.of_nat (List.length (rows_data w))
  <= size * get_total_pages (update_table (set_paging w 1 size)).
Proof.
  intros Hsize. unfold get_total_pages.
  cbn [update_table items_per_page total_items set_paging].
  rewrite rows_data_set_paging.
  destruct (size =? 0) eqn:E; [lia|].
  set (L := Z.of_nat (List.length (rows_data w))).
  pose proof (Z.div_mod (- L) size ltac:(lia)) as Hdm.
  pose proof (Z.mod_pos_bound (- L) size ltac:(lia)) as Hb.
  nia.
Qed.

(** C5. With a positive page size and a 1-based page number the table
    shows the slice [[size*(page-1), size*(page-1)+size)] of the rows; a
    page size of 0 shows all rows; a page beyond the rows is empty; and for
    every page size at least 1 the pages 1 to [get_total_pages], put end to
    end, are the rows. *)
Theorem pagination_slices (w : MainWindow) :
  (forall page size, 0 < size -> 1 <= page ->
     table (update_table (set_paging w page size))
     = firstn (Z.to_nat size)
              (skipn (Z.to_nat (size * (page - 1))) (rows_data w)))
  /\ (forall page,
        table (update_table (set_paging w page 0)) = rows_data w)
  /\ (forall page size, 0 < size -> 1 <= page ->
        Z.of_nat (List.length (rows_data w)) <= size * (page - 1) ->
        table (update_table (set_paging w page size)) = [])
  /\ (forall size, 1 <= size ->
        List.concat
          (map (fun k => table (update_table (set_paging w (Z.of_nat k) size)))
               (seq 1 (Z.to_nat (get_total_pages
                                   (update_table (set_paging w 1 size))))))
        = rows_data w).
Proof.
  split; [|split; [|split]].
  - intros page size Hs Hp. now apply table_window.
  - intros page. reflexivity.
  - intros page size Hs Hp Hlen. rewrite table_window by assumption.
    rewrite skipn_all2 by lia. apply firstn_nil.
  - intros size Hs.
    pose proof (total_pages_cover w size Hs) as Hcover.
    set (n := Z.to_nat (get_total_pages (update_table (set_paging w 1 size)))) in *.
    rewrite <- seq_shift, map_map.
    rewrite (map_ext _ (fun k => firstn (Z.to_nat size)
                         (skipn (Z.to_nat size * k)%nat (rows_data w)))).
    + rewrite pages_concat. apply firstn_all2.
      assert (0 <= get_total_pages (update_table (set_paging w 1 size))).
      { unfold get_total_pages. destruct (_ =? 0); lia. }
      unfold n. nia.
    + intros k. rewrite table_window by lia.
      do 2 f_equal. lia.
Qed.

Lemma pagination_slices_witness :
  List.concat
    (map (fun k => table (update_table
                            (set_paging Samples.price_window (Z.of_nat k) 1)))
         (seq 1 (Z.to_nat (get_total_pages
                             (update_table
                                (set_paging Samples.price_window 1 1))))))
  = rows_data Samples.price_window
  /\ table (update_table (set_paging Samples.price_window 5 1)) = [].
Proof.
  destruct (pagination_slices Samples.price_window) as (_ & _ & H3 & H4).
  split.
  - apply H4. lia.
  - apply H3; [lia|lia|vm_compute; discriminate].
Defined.

(** *** Keys of the collected articles *)

Lemma od_mem_keys {V} (k : string) (d : odict V) :
  od_mem k d = mem k (od_keys d).
Proof.
  unfold od_mem. induction d as [|[k' v] t IH]; simpl; [reflexivity|].
  rewrite (String.eqb_sym k k').
  destruct (String.eqb k' k); simpl; [reflexivity|exact IH].
Qed.

Lemma od_update_keys {V} (k : string) (f : V -> V) (d : odict V) :
  od_keys (od_update k f d) = od_keys d.
Proof.
  induction d as [|[k' v] t IH]; simpl; [reflexivity|].
  destruct (String.eqb k' k); simpl; [reflexivity|now rewrite IH].
Qed.

Lemma collect_article_keys bn all a :
  od_keys (collect_article bn all a)
  = add_key (od_keys all) (get (a_code a) "").
Proof.
  unfold collect_article, add_key.
  rewrite od_update_keys, od_mem_keys.
  destruct (mem _ _); simpl; [reflexivity|].
  unfold od_keys. now rewrite map_app.
Qed.

Lemma collect_branch_keys all b :
  od_keys (collect_branch all b)
  = fold_left add_key (map (fun a => get (a_code a) "") (articles b))
              (od_keys all).
Proof.
  unfold collect_branch. generalize (articles b) as arts.
  intros arts; revert all.
  induction arts as [|a rest IH]; intros all; simpl; [reflexivity|].
  now rewrite IH, collect_article_keys.
Qed.

Lemma collect_articles_keys_from all bs :
  od_keys (fold_left collect_branch bs all)
  = fold_left add_key
      (flat_map (fun b => map (fun a => get (a_code a) "") (articles b)) bs)
      (od_keys all).
Proof.
  revert all. induction bs as [|b rest IH]; intros all; simpl; [reflexivity|].
  now rewrite IH, collect_branch_keys, fold_left_app.
Qed.

Lemma mem_app c l1 l2 : mem c (l1 ++ l2) = mem c l1 || mem c l2.
Proof. apply existsb_app. Qed.

Lemma filter_ext_in_bool {A} (f g : A -> bool) (l : list A) :
  (forall x, In x l -> f x = g x) -> filter f l = filter g l.
Proof.
  induction l as [|x l IH]; intros H; simpl; [reflexivity|].
  rewrite (H x) by now left.
  rewrite IH; [reflexivity|]. intros y Hy. apply H. now right.
Qed.

Lemma filter_filter {A} (f g : A -> bool) (l : list A) :
  filter f (filter g l) = filter (fun x => g x && f x) l.
Proof.
  induction l as [|x l IH]; simpl; [reflexivity|].
  destruct (g x); simpl; [destruct (f x)|]; now rewrite IH.
Qed.

Lemma fold_add_key_first_seen codes : forall acc,
  fold_left add_key codes acc
  = acc ++ filter (fun c => negb (mem c acc)) (first_seen codes).
Proof.
  induction codes as [|c rest IH]; intros acc; simpl.
  - now rewrite app_nil_r.
  - rewrite IH. unfold add_key.
    destruct (mem c acc) eqn:E; simpl.
    + f_equal. rewrite filter_filter. apply filter_ext_in_bool.
      intros x _. destruct (String.eqb x c) eqn:Ex; simpl; [|reflexivity].
      apply String.eqb_eq in Ex. subst x. now rewrite E.
    + rewrite <- app_assoc. simpl. do 2 f_equal.
      rewrite filter_filter. apply filter_ext_in_bool.
      intros x _. rewrite mem_app. simpl. rewrite orb_false_r.
      rewrite negb_orb. apply andb_comm.
Qed.

Lemma collect_articles_keys bs :
  od_keys (collect_articles bs)
  = first_seen
      (flat_map (fun b => map (fun a => get (a_code a) "") (articles b)) bs).
Proof.
  unfold collect_articles.
  rewrite collect_articles_keys_from, fold_add_key_first_seen.
  simpl.
  induction (first_seen _) as [|x l IH]; simpl; [reflexivity|now rewrite IH].
Qed.

Lemma first_seen_In codes c : In c (first_seen codes) <-> In c codes.
Proof.
  induction codes as [|a rest IH]; simpl; [tauto|].
  rewrite filter_In, IH.
  destruct (String.eqb c a) eqn:E.
  - apply String.eqb_eq in E. subst. simpl. tauto.
  - apply String.eqb_neq in E. simpl. split.
    + intros [H|[H _]]; auto.
    + intros [H|H]; [now left|right; auto].
Qed.

Lemma first_seen_NoDup codes : NoDup (first_seen codes).
Proof.
  induction codes as [|a rest IH]; simpl; constructor.
  - rewrite filter_In. intros [_ H]. now rewrite String.eqb_refl in H.
  - now apply NoDup_filter.
Qed.

(** C4. With diff-only disabled there is exactly one row per distinct
    article code found in the snapshot of some enabled branch, in order of
    first appearance over the enabled branches in registry order. *)
Theorem rows_are_union_of_codes (w : MainWindow) :
  let codes := map row_code (rows_data (set_diff_only w false)) in
  codes = first_seen (snapshot_codes w)
  /\ NoDup codes
  /\ (forall c, In c codes <->
        exists b a, In b (branches w) /\ enabled b = true
                    /\ In a (articles b) /\ get (a_code a) "" = c)
  /\ List.length (rows_data (set_diff_only w false))
     = List.length (nodup string_dec (snapshot_codes w)).
Proof.
  assert (Hcodes : map row_code (rows_data (set_diff_only w false))
                   = first_seen (snapshot_codes w)).
  { unfold rows_data. cbn [set_diff_only diff_only compare_type].
    rewrite rows_loop_codes. apply collect_articles_keys. }
  assert (Hin : forall c, In c (first_seen (snapshot_codes w)) <->
                  exists b a, In b (branches w) /\ enabled b = true
                              /\ In a (articles b) /\ get (a_code a) "" = c).
  { intros c. rewrite first_seen_In. unfold snapshot_codes, enabled_branches_of.
    rewrite in_flat_map. split.
    - intros (b & Hb & Hc). apply filter_In in Hb. destruct Hb as [Hb He].
      apply in_map_iff in Hc. destruct Hc as (a & Ha & Hia).
      exists b, a. auto.
    - intros (b & a & Hb & He & Ha & Hc). exists b. split.
      + apply filter_In. auto.
      + apply in_map_iff. exists a. auto. }
  cbv zeta. rewrite Hcodes. split; [reflexivity|]. split; [apply first_seen_NoDup|].
  split; [exact Hin|].
  rewrite <- (length_map row_code), Hcodes.
  apply Permutation_length, NoDup_Permutation.
  - apply first_seen_NoDup.
  - apply NoDup_nodup.
  - intros c. now rewrite first_seen_In, nodup_In.
Qed.

(** *** The comparison loop *)

Lemma diff_loop_some values : forall f hd,
  fold_left diff_step values (Some f, hd)
  = (Some f, hd || existsb (differs_from f) values).
Proof.
  induction values as [|v t IH]; intros f hd; simpl.
  - now rewrite orb_false_r.
  - fold (differs_from f v). destruct (differs_from f v); rewrite IH; simpl.
    + now rewrite orb_true_r.
    + reflexivity.
Qed.

Lemma has_diff_of_spec values :
  has_diff_of values = true <-> disagree values.
Proof.
  unfold has_diff_of.
  induction values as [|v t IH]; simpl.
  - split; [discriminate|]. intros (v1 & _ & [] & _).
  - destruct (truthy v) eqn:Tv.
    + rewrite diff_loop_some. simpl. rewrite existsb_exists. split.
      * intros (u & Hu & Hd). unfold differs_from in Hd.
        apply andb_true_iff in Hd. destruct Hd as [Tu Hne].
        apply negb_true_iff, String.eqb_neq in Hne.
        exists u, v. repeat split; auto. now right. now left.
      * intros (v1 & v2 & H1 & H2 & T1 & T2 & Hne).
        assert (Hcase : str v1 <> str v \/ str v2 <> str v).
        { destruct (string_dec (str v1) (str v)) as [e|]; [right|now left].
          congruence. }
        destruct Hcase as [Hc|Hc]; [exists v1|exists v2]; split.
        -- destruct H1 as [->|]; [congruence|assumption].
        -- unfold differs_from. rewrite T1. now apply String.eqb_neq in Hc as ->.
        -- destruct H2 as [->|]; [congruence|assumption].
        -- unfold differs_from. rewrite T2. now apply String.eqb_neq in Hc as ->.
    + rewrite IH. split.
      * intros (v1 & v2 & H1 & H2 & R). exists v1, v2.
        split; [now right|]. split; [now right|]. exact R.
      * intros (v1 & v2 & H1 & H2 & T1 & T2 & Hne). exists v1, v2.
        split; [destruct H1 as [->|]; [congruence|assumption]|].
        split; [destruct H2 as [->|]; [congruence|assumption]|]. auto.
Qed.

Lemma rows_loop_In ct d rb eb items r :
  In r (rows_loop ct d rb eb items) ->
  exists item, In item items /\ r = make_row ct rb eb item.
Proof.
  induction items as [|item rest IH]; simpl; [tauto|].
  destruct (d && negb (row_has_diff (make_row ct rb eb item))).
  - intros H. destruct (IH H) as (it & Hit & ->). exists it. auto.
  - intros [<-|H].
    + exists item. auto.
    + destruct (IH H) as (it & Hit & ->). exists it. auto.
Qed.

(** C1, as amended. For every row of a pass, [has_diff] is true exactly
    when two enabled branches carry non-empty values for the active
    comparison whose [str] texts differ; for the name and group comparisons
    this is a difference of the displayed texts.  For price and stock the
    raw [str] texts are compared, not the formatted ones. *)
Theorem has_diff_compares_raw_text (w : MainWindow) (r : Row) :
  In r (rows_data w) ->
  exists data,
    In (row_code r, data) (collect_articles (enabled_branches_of w))
    /\ row_values r
       = map (fun b => dimension_value (compare_type w)
                         (od_get (name b) (ae_branches data)))
             (enabled_branches_of w)
    /\ (row_has_diff r = true <->
        exists v1 v2, In v1 (row_values r) /\ In v2 (row_values r)
                      /\ truthy v1 = true /\ truthy v2 = true
                      /\ str v1 <> str v2)
    /\ (String.eqb (compare_type w) PRICE = false ->
        String.eqb (compare_type w) STOCK = false ->
        (row_has_diff r = true <->
         exists v1 v2, In v1 (row_values r) /\ In v2 (row_values r)
                       /\ truthy v1 = true /\ truthy v2 = true
                       /\ display_value (compare_type w) v1
                          <> display_value (compare_type w) v2)).
Proof.
  intros Hr. apply rows_loop_In in Hr. destruct Hr as ([code data] & Hitem & ->).
  exists data. cbn [make_row row_code row_values row_has_diff].
  split; [exact Hitem|]. split; [reflexivity|].
  split; [apply has_diff_of_spec|].
  intros Hp Hs. rewrite has_diff_of_spec. unfold disagree, display_value.
  rewrite Hp, Hs.
  split; intros (v1 & v2 & H1 & H2 & T1 & T2 & Hne); exists v1, v2;
    rewrite T1, T2 in *; auto 10.
Qed.

(** The rows of the sample window: article 2002 is known to branch B
    only, so its row has a single non-empty value and no difference. *)
Example price_window_rows :
  rows_data Samples.price_window
  = [Samples.price_row_1001;
     mkRow "2002" (PStr "Y") [PInt 0; PInt 90] false].
Proof. vm_compute. reflexivity. Qed.

(** C1, as stated, fails for price: the integer [1500] and the float
    [1500.0] are shown as the same text and are flagged as a difference. *)
Lemma has_diff_on_equal_display :
  In Samples.price_row_1001 (rows_data Samples.price_window)
  /\ map (display_value PRICE) (row_values Samples.price_row_1001)
     = ["1,500"; "1,500"]
  /\ row_has_diff Samples.price_row_1001 = true
  /\ ~ formatted_disagree PRICE (row_values Samples.price_row_1001).
Proof.
  split; [vm_compute; left; reflexivity|].
  split; [vm_compute; reflexivity|].
  split; [reflexivity|].
  intros (v1 & v2 & H1 & H2 & _ & _ & N).
  cbn [Samples.price_row_1001 row_values In] in H1, H2.
  destruct H1 as [<-|[<-|[]]]; destruct H2 as [<-|[<-|[]]];
    apply N; vm_compute; reflexivity.
Qed.

Lemma has_diff_compares_raw_text_witness :
  row_has_diff Samples.price_row_1001 = true <->
  exists v1 v2, In v1 (row_values Samples.price_row_1001)
                /\ In v2 (row_values Samples.price_row_1001)
                /\ truthy v1 = true /\ truthy v2 = true
                /\ str v1 <> str v2.
Proof.
  destruct (has_diff_compares_raw_text Samples.price_window
              Samples.price_row_1001) as (data & _ & _ & H & _).
  - vm_compute. left. reflexivity.
  - exact H.
Defined.

End BranchManagerFacts.

(* ================================================================== *)
(** ** Properties of holoo_api.py *)
(* ================================================================== *)

Module HolooApiFacts.
Import Py HolooApi.

(** One turn of the item loop appends one entry to exactly one list. *)
Lemma process_item_places_once db st item :
  let st' := process_item db st item in
  (exists e, success (fst st') = success (fst st) ++ [e]
             /\ failed (fst st') = failed (fst st))
  \/ (exists e, failed (fst st') = failed (fst st) ++ [e]
                /\ success (fst st') = success (fst st)).
Proof.
  destruct st as [results n]. unfold process_item. cbv zeta.
  destruct (truthy _); cbn [negb].
  2:{ right. eexists. split; reflexivity. }
  destruct (updates_of item) as [|u us] eqn:Hu.
  { right. eexists. split; reflexivity. }
  destruct (db_execute db n _) as [msg|rc].
  - right. eexists. split; reflexivity.
  - destruct (0 <? rc).
    + left. eexists. split; reflexivity.
    + right. eexists. split; reflexivity.
Qed.

Lemma process_item_rejected db st item :
  rejected item ->
  let st' := process_item db st item in
  success (fst st') = success (fst st)
  /\ exists e, failed (fst st') = failed (fst st) ++ [e].
Proof.
  intros Hrej. destruct st as [results n]. unfold process_item. cbv zeta.
  destruct (truthy _) eqn:Ht; cbn [negb].
  2:{ split; [reflexivity|]. eexists. reflexivity. }
  destruct Hrej as [Hc|Hu]; [congruence|]. rewrite Hu.
  split; [reflexivity|]. eexists. reflexivity.
Qed.

Lemma item_loop_count db items : forall st,
  let st' := fold_left (process_item db) items st in
  (List.length (success (fst st')) + List.length (failed (fst st')))%nat
  = (List.length (success (fst st)) + List.length (failed (fst st))
     + List.length items)%nat.
Proof.
  induction items as [|item rest IH]; intros st; cbn [fold_left List.length].
  - cbv zeta. lia.
  - cbv zeta in *. rewrite IH.
    destruct (process_item_places_once db st item) as [(e & Hs & Hf)|(e & Hf & Hs)];
      rewrite Hs, Hf, length_app; simpl; lia.
Qed.

(** On a list of objects the item loop is the fold of its body. *)
Lemma item_loop_objects db objects : forall st,
  item_loop db (map Object objects) st
  = inl (fold_left (process_item db) objects st).
Proof.
  induction objects as [|item rest IH]; intros st; cbn [map item_loop fold_left];
    [reflexivity|apply IH].
Qed.

Lemma objects_only items :
  forallb is_object items = true -> exists objects, items = map Object objects.
Proof.
  induction items as [|j rest IH]; cbn [forallb]; intros H.
  - now exists [].
  - apply andb_prop in H. destruct H as [Hj Hrest].
    destruct (IH Hrest) as (objects & ->).
    destruct j as [item| |]; try discriminate Hj.
    now exists (item :: objects).
Qed.

(** The loop ends at the first element that is not an object. *)
Lemma item_loop_stops db objects j rest : forall st,
  is_object j = false ->
  item_loop db (map Object objects ++ j :: rest) st
  = inr ("'" +++ type_name j +++ "' object has no attribute 'get'").
Proof.
  induction objects as [|item objs IH]; intros st Hj; cbn [map app item_loop].
  - destruct j as [item| |]; [discriminate Hj|reflexivity|reflexivity].
  - now apply IH.
Qed.

(** C10, as amended. For a non-empty items list whose elements are all
    objects and a connection that opens, the response is either the
    summary, with [success_count + failed_count = total = number of
    items], or a BATCH_ERROR raised by the cursor, the commit or a close.
    A list with an element that is not an object is answered with a
    BATCH_ERROR for that element, whatever the statements, the commit and
    the closes would do.  Every turn of the item loop puts the item in
    exactly one of the two lists, and an item without code or without
    editable field goes to [failed]. *)
Theorem batch_update_accounts_for_every_item (db : Database)
  (items : list JsonItem) :
  items <> [] ->
  db_connect db = None ->
  (forallb is_object items = true ->
   match batch_update db items with
   | (Ok results summary, code) =>
       code = 200
       /\ total summary = Z.of_nat (List.length items)
       /\ success_count summary = Z.of_nat (List.length (success results))
       /\ failed_count summary = Z.of_nat (List.length (failed results))
       /\ success_count summary + failed_count summary = total summary
   | (Error _ error_code, code) =>
       code = 500 /\ error_code = "BATCH_ERROR"
       /\ first_error [db_cursor db; db_commit db; db_cursor_close db;
                       db_close db] <> None
   end)
  /\ (forall objects j rest,
        items = map Object objects ++ j :: rest ->
        is_object j = false ->
        db_cursor db = None ->
        batch_update db items
        = (Error ("'" +++ type_name j +++ "' object has no attribute 'get'")
                 "BATCH_ERROR", 500))
  /\ (forall st item,
        let st' := process_item db st item in
        (exists e, success (fst st') = success (fst st) ++ [e]
                   /\ failed (fst st') = failed (fst st))
        \/ (exists e, failed (fst st') = failed (fst st) ++ [e]
                      /\ success (fst st') = success (fst st)))
  /\ (forall st item,
        rejected item ->
        let st' := process_item db st item in
        success (fst st') = success (fst st)
        /\ exists e, failed (fst st') = failed (fst st) ++ [e]).
Proof.
  intros Hne Hconn. split; [|split; [|split]].
  - intros Hobj. destruct (objects_only items Hobj) as (objects & ->).
    destruct objects as [|o os]; [cbn in Hne; congruence|].
    pose proof (item_loop_objects db (o :: os) (mkResults [] [], O)) as Hloop.
    pose proof (item_loop_count db (o :: os) (mkResults [] [], O)) as Hcount.
    cbv zeta in Hcount.
    pose proof (length_map Object (o :: os)) as Hlen.
    unfold batch_update. cbn [map] in *. cbn [first_error].
    rewrite Hconn.
    destruct (db_cursor db) as [m|]; [repeat split; discriminate|].
    rewrite Hloop.
    destruct (fold_left (process_item db) (o :: os) (mkResults [] [], O))
      as [results n]. cbn [fst success failed] in Hcount.
    destruct (db_commit db) as [m|]; [repeat split; discriminate|].
    destruct (db_cursor_close db) as [m|]; [repeat split; discriminate|].
    destruct (db_close db) as [m|]; [repeat split; discriminate|].
    cbn [total success_count failed_count].
    repeat split; try reflexivity. cbn [List.length] in *. lia.
  - intros objects j rest Hitems Hj Hcur. unfold batch_update.
    destruct items as [|j0 rest0]; [congruence|].
    cbn [first_error]. rewrite Hconn, Hcur, Hitems.
    now rewrite item_loop_stops.
  - intros st item. apply process_item_places_once.
  - intros st item Hrej. now apply process_item_rejected.
Qed.

(** The statement as first made, for every non-empty list, fails on a list
    that holds a number: the database is sound and the first item is
    valid, yet the answer is a BATCH_ERROR without any summary. *)
Lemma batch_update_aborts_on_non_object :
  Samples.items_with_number <> []
  /\ first_error [db_connect Samples.db_ok; db_cursor Samples.db_ok;
                  db_commit Samples.db_ok; db_cursor_close Samples.db_ok;
                  db_close Samples.db_ok] = None
  /\ batch_update Samples.db_ok Samples.items_with_number
     = (Error "'int' object has no attribute 'get'" "BATCH_ERROR", 500)
  /\ ~ accounts_for_every_item Samples.db_ok Samples.items_with_number.
Proof.
  split; [discriminate|]. split; [reflexivity|]. split; [reflexivity|].
  unfold accounts_for_every_item.
  change (batch_update Samples.db_ok Samples.items_with_number)
    with (Error "'int' object has no attribute 'get'" "BATCH_ERROR", 500).
  intros H. apply H. reflexivity.
Qed.

Lemma batch_update_accounts_for_every_item_witness :
  match batch_update Samples.db_ok Samples.three_items with
  | (Ok results summary, _) =>
      total summary = 3
      /\ success_count summary + failed_count summary = total summary
  | _ => False
  end.
Proof.
  destruct (batch_update_accounts_for_every_item Samples.db_ok
              Samples.three_items) as [H _].
  - discriminate.
  - reflexivity.
  - specialize (H eq_refl).
    destruct (batch_update Samples.db_ok Samples.three_items)
      as [[results summary|err code] status] eqn:E.
    + destruct H as (_ & Ht & _ & _ & Hsum). split; [exact Ht|exact Hsum].
    + vm_compute in E. discriminate E.
Defined.

End HolooApiFacts.

(* ================================================================== *)
(** ** Further properties of the client *)
(* ================================================================== *)

Module ClientFacts.
Import Py BranchManager BranchManagerFacts.

Lemma pauses_app log1 log2 :
  pauses (log1 ++ log2) = (pauses log1 + pauses log2)%nat.
Proof. unfold pauses. now rewrite filter_app, length_app. Qed.

(** The retry loop with [n] turns left, [attempt + n = retry]: what it adds
    to the log and where its result comes from. *)
Lemma attempts_budget net rq retry n : forall attempt last log,
  (n <> O -> attempt + Z.of_nat n = retry) ->
  exists evs,
    snd (attempts net rq retry n attempt last log) = log ++ evs
    /\ Forall (quiet_or rq) evs
    /\ (requests_made evs <= n)%nat
    /\ (n <> O -> requests_made evs <> O)
    /\ pauses evs = pred (requests_made evs)
    /\ (evs = [] \/ exists evs', evs = evs' ++ [EvRequest rq])
    /\ ((exists k code,
           net (requests_made log + k)%nat rq
           = Responded code (inr (fst (attempts net rq retry n attempt last log)))
           /\ requests_made evs = S k)
        \/ (exists e,
              fst (attempts net rq retry n attempt last log) = failure e
              /\ requests_made evs = n)).
Proof.
  induction n as [|n IH]; intros attempt last log Hn.
  - exists []. cbn [attempts]. unfold ret. cbn [fst snd].
    rewrite app_nil_r.
    split; [reflexivity|]. split; [constructor|]. split; [reflexivity|].
    split; [congruence|]. split; [reflexivity|]. split; [now left|].
    right. eexists. split; reflexivity.
  - specialize (Hn ltac:(discriminate)).
    destruct (attempt_error (net (requests_made log) rq)) as [msg|] eqn:Herr.
    + rewrite (attempts_fail net rq retry n attempt last log msg Herr).
      set (sl := if attempt <? retry - 1 then [EvSleep 1] else []).
      destruct (IH (attempt + 1) (PStr msg) (log ++ [EvRequest rq] ++ sl)
                   ltac:(intros; lia))
        as (evs & Hlog & Hq & Hle & Hpos & Hp & Hend & Hres).
      assert (Hsl : requests_made sl = O /\ Forall (quiet_or rq) sl
                    /\ (n <> O -> pauses sl = 1%nat)
                    /\ (n = O -> sl = [])).
      { subst sl. destruct (attempt <? retry - 1) eqn:E;
          [apply Z.ltb_lt in E|apply Z.ltb_ge in E].
        - split; [reflexivity|]. split; [repeat constructor; now right|].
          split; [reflexivity|]. intros; lia.
        - split; [reflexivity|]. split; [constructor|].
          split; [intros; lia|reflexivity]. }
      destruct Hsl as (Hsl0 & Hslq & Hsl1 & Hsl2).
      assert (Hrm : requests_made (log ++ [EvRequest rq] ++ sl)
                    = S (requests_made log)).
      { rewrite !requests_made_app, Hsl0. cbn. lia. }
      assert (Hrq : requests_made ([EvRequest rq] ++ sl ++ evs)
                    = S (requests_made evs)).
      { rewrite !requests_made_app, Hsl0. reflexivity. }
      exists ([EvRequest rq] ++ sl ++ evs).
      split; [rewrite Hlog, !app_assoc; reflexivity|].
      split.
      { apply Forall_app. split; [repeat constructor; now left|].
        apply Forall_app. split; assumption. }
      split; [rewrite Hrq; lia|].
      split; [rewrite Hrq; discriminate|].
      split.
      { rewrite Hrq, !pauses_app, Hp. cbn [pred].
        destruct n as [|n'].
        - rewrite (Hsl2 eq_refl). cbn.
          assert (requests_made evs = O) by lia. lia.
        - rewrite Hsl1 by discriminate.
          specialize (Hpos ltac:(discriminate)). cbn. lia. }
      split.
      { right. destruct Hend as [->|(evs' & ->)].
        - destruct n as [|n'].
          + rewrite (Hsl2 eq_refl). exists []. reflexivity.
          + exfalso. apply Hpos; [discriminate|reflexivity].
        - exists ([EvRequest rq] ++ sl ++ evs').
          rewrite !app_assoc. reflexivity. }
      destruct Hres as [(k & code' & Hk & Hr)|(e' & He & Hr)].
      * left. exists (S k), code'. rewrite Hrm in Hk.
        rewrite Nat.add_succ_r. split; [exact Hk|rewrite Hrq; lia].
      * right. exists e'. split; [exact He|rewrite Hrq; lia].
    + destruct (net (requests_made log) rq) as [e|code [m|result]] eqn:Hnet;
        try discriminate Herr.
      rewrite (attempts_respond _ _ _ _ _ _ _ _ _ Hnet). cbn [fst snd].
      exists [EvRequest rq].
      split; [reflexivity|].
      split; [constructor; [now left|constructor]|].
      split; [cbn; lia|]. split; [discriminate|].
      split; [reflexivity|].
      split; [right; exists []; reflexivity|].
      left. exists O, code. rewrite Nat.add_0_r.
      split; [exact Hnet|reflexivity].
Qed.

(** Where the result of [_request] comes from. *)
Lemma request_result net c method endpoint data log :
  let rq := build_request c method endpoint data in
  let run := _request net c method endpoint data log in
  (exists k code,
      (k < Z.to_nat (cl_retry c))%nat
      /\ net (requests_made log + k)%nat rq = Responded code (inr (fst run)))
  \/ (exists e, fst run = failure e).
Proof.
  cbv zeta. unfold _request.
  destruct (attempts_budget net (build_request c method endpoint data)
              (cl_retry c) (Z.to_nat (cl_retry c)) 0 PNone log)
    as (evs & _ & _ & Hle & _ & _ & _ & Hres).
  { intros Hn. rewrite Z2Nat.id; lia. }
  destruct Hres as [(k & code & Hk & Hr)|(e & He & _)].
  - left. exists k, code. split; [lia|exact Hk].
  - right. now exists e.
Qed.

(** X1. [_request] never sends more than [retry] requests; it pauses one
    second between two attempts and never after the last one, so the
    number of pauses is the number of requests less one; the result is a
    decoded answer of the network to one of these requests, or the failure
    object once all [retry] attempts are spent. *)
Theorem request_attempt_budget (net : nat -> request -> outcome)
  (c : HolooAPIClient) (method : http_method) (endpoint : string)
  (data : payload) (log : list event) :
  let rq := build_request c method endpoint data in
  let run := _request net c method endpoint data log in
  exists evs,
    snd run = log ++ evs
    /\ Forall (quiet_or rq) evs
    /\ (requests_made evs <= Z.to_nat (cl_retry c))%nat
    /\ pauses evs = pred (requests_made evs)
    /\ (evs = [] \/ exists evs', evs = evs' ++ [EvRequest rq])
    /\ ((exists k code,
           net (requests_made log + k)%nat rq = Responded code (inr (fst run))
           /\ requests_made evs = S k)
        \/ (exists e,
              fst run = failure e
              /\ requests_made evs = Z.to_nat (cl_retry c))).
Proof.
  cbv zeta. unfold _request.
  destruct (attempts_budget net (build_request c method endpoint data)
              (cl_retry c) (Z.to_nat (cl_retry c)) 0 PNone log)
    as (evs & Hlog & Hq & Hle & _ & Hp & Hend & Hres).
  { intros Hn. rewrite Z2Nat.id; lia. }
  exists evs. repeat (split; [assumption|]). exact Hres.
Qed.

Lemma request_no_retry net c method endpoint data log :
  cl_retry c <= 0 ->
  _request net c method endpoint data log = (failure PNone, log).
Proof.
  intros H. unfold _request.
  replace (Z.to_nat (cl_retry c)) with O by lia. reflexivity.
Qed.

(** X2. With a retry count of zero or less the client sends no
    authenticated request at all: [_request] returns the failure object
    with error [None] and leaves the log as it is, [get_articles] returns
    the empty list, and a health check sends the ping only and answers
    [OFFLINE] or [API_DOWN], whatever the server would have said. *)
Theorem client_without_retries (net : nat -> request -> outcome)
  (c : HolooAPIClient) (log : list event) :
  cl_retry c <= 0 ->
  (forall method endpoint data,
      _request net c method endpoint data log = (failure PNone, log))
  /\ (forall search limit, get_articles net c search limit log = ([], log))
  /\ (fst (check_health net c log) = OFFLINE
      \/ fst (check_health net c log) = API_DOWN)
  /\ snd (check_health net c log)
     = log ++ [EvRequest (ping_request (cl_branch c))].
Proof.
  intros H. split; [|split].
  - intros. now apply request_no_retry.
  - intros. unfold get_articles, bind.
    rewrite request_no_retry by assumption. reflexivity.
  - unfold check_health, bind. rewrite send_eq.
    fold (ping_request (cl_branch c)).
    destruct (net (requests_made log) (ping_request (cl_branch c)))
      as [e|code body].
    + split; [now left|reflexivity].
    + destruct (negb (code =? 200)).
      * split; [now right|reflexivity].
      * rewrite request_no_retry by assumption.
        split; [now right|reflexivity].
Qed.

Lemma client_without_retries_witness :
  get_articles Samples.net_up (Samples.client 0) "" 50000 [] = ([], [])
  /\ fst (check_health Samples.net_up (Samples.client 0) []) = API_DOWN.
Proof.
  destruct (client_without_retries Samples.net_up (Samples.client 0) [])
    as (_ & Hget & Hh & _).
  - simpl. lia.
  - split; [apply Hget|].
    destruct Hh as [Hh|Hh]; [vm_compute in Hh; discriminate Hh|exact Hh].
Defined.

Lemma get_articles_unanswered net c search limit log :
  (forall n rq code r, net n rq = Responded code (inr r) ->
                       opt_truthy (r_success r) = false) ->
  fst (get_articles net c search limit log) = [].
Proof.
  intros Hnet.
  pose proof (request_result net c POST "/articles"
                (ArticlesQuery search limit) log) as Hres.
  cbv zeta in Hres. unfold get_articles, bind.
  destruct (_request net c POST "/articles" (ArticlesQuery search limit) log)
    as [result log'].
  cbn [fst] in Hres.
  destruct (opt_truthy (r_success result)) eqn:Ht; [|reflexivity].
  destruct Hres as [(k & code & _ & Hk)|(e & He)].
  - rewrite (Hnet _ _ _ _ Hk) in Ht. discriminate Ht.
  - subst result. discriminate Ht.
Qed.

(** X3. The list [get_articles] returns is never made up: it is empty, or
    it is the [data] of an answer the network gave to the [/articles]
    request within the retry budget, and that answer had a true
    [success]. *)
Theorem get_articles_provenance (net : nat -> request -> outcome)
  (c : HolooAPIClient) (search : string) (limit : Z) (log : list event) :
  let rq := build_request c POST "/articles" (ArticlesQuery search limit) in
  let arts := fst (get_articles net c search limit log) in
  arts = []
  \/ exists k code r,
       (k < Z.to_nat (cl_retry c))%nat
       /\ net (requests_made log + k)%nat rq = Responded code (inr r)
       /\ opt_truthy (r_success r) = true
       /\ r_data r = Some arts.
Proof.
  cbv zeta.
  pose proof (request_result net c POST "/articles"
                (ArticlesQuery search limit) log) as Hres.
  cbv zeta in Hres. unfold get_articles, bind.
  destruct (_request net c POST "/articles" (ArticlesQuery search limit) log)
    as [result log'].
  cbn [fst] in Hres.
  destruct (opt_truthy (r_success result)) eqn:Ht; [|now left].
  destruct Hres as [(k & code & Hk & Hr)|(e & He)].
  - destruct (r_data result) as [arts|] eqn:Hd; [|now left].
    right. exists k, code, result. cbn [fst get ret].
    repeat split; assumption.
  - subst result. discriminate Ht.
Qed.

End ClientFacts.

(* ================================================================== *)
(** ** The branch registry: health checks and snapshots *)
(* ================================================================== *)

Module RegistryFacts.
Import Py BranchManager BranchManagerFacts ClientFacts.

(** Requests of one health check: the ping, then the database probe. *)
Lemma check_health_events net c log :
  exists evs,
    snd (check_health net c log) = log ++ evs
    /\ In (EvRequest (ping_request (cl_branch c))) evs
    /\ forall rq, In (EvRequest rq) evs ->
         rq = ping_request (cl_branch c)
         \/ rq = build_request c POST "/check/db" NoData.
Proof.
  unfold check_health, bind. rewrite send_eq.
  fold (ping_request (cl_branch c)).
  set (ping := ping_request (cl_branch c)).
  assert (Hone : exists evs,
             log ++ [EvRequest ping] = log ++ evs
             /\ In (EvRequest ping) evs
             /\ forall rq, In (EvRequest rq) evs ->
                  rq = ping \/ rq = build_request c POST "/check/db" NoData).
  { exists [EvRequest ping]. split; [reflexivity|]. split; [now left|].
    intros rq [H|[]]. left. congruence. }
  destruct (net (requests_made log) ping) as [e|code body]; [exact Hone|].
  destruct (negb (code =? 200)); [exact Hone|].
  destruct (request_events net c POST "/check/db" NoData
              (log ++ [EvRequest ping])) as (evs & Hlog & Hq & _).
  destruct (_request net c POST "/check/db" NoData (log ++ [EvRequest ping]))
    as [result log'] eqn:E. cbn [snd] in Hlog. subst log'.
  exists ([EvRequest ping] ++ evs).
  assert (Hsnd : forall s : BranchStatus,
             snd (ret s (((log ++ [EvRequest ping]) ++ evs)))
             = log ++ [EvRequest ping] ++ evs).
  { intros s. unfold ret. cbn [snd]. now rewrite <- app_assoc. }
  split.
  { destruct (negb (opt_truthy (r_success result)));
      [destruct (_ || _)|]; apply Hsnd. }
  split; [now left|].
  intros rq [H|H]; [left; congruence|right].
  rewrite Forall_forall in Hq. destruct (Hq _ H) as [H1|H1]; congruence.
Qed.

Lemma set_status_twice b s s' : set_status (set_status b s) s' = set_status b s'.
Proof. reflexivity. Qed.

Lemma check_loop_spec net w bs : forall log,
  let bs' := fst (check_loop net w bs log) in
  map (fun b => set_status b UNKNOWN) bs' = map (fun b => set_status b UNKNOWN) bs
  /\ Forall (fun b' => enabled b' = false -> status b' = UNKNOWN) bs'
  /\ exists evs,
       snd (check_loop net w bs log) = log ++ evs
       /\ (forall rq, In (EvRequest rq) evs ->
             exists b, In b bs /\ enabled b = true
                       /\ (rq = ping_request b \/ rq = probe_request w b))
       /\ (forall b, In b bs -> enabled b = true ->
             In (EvRequest (ping_request b)) evs).
Proof.
  induction bs as [|b rest IH]; intros log.
  - cbn. split; [reflexivity|]. split; [constructor|].
    exists []. rewrite app_nil_r. split; [reflexivity|].
    split; [intros rq []|intros b []].
  - cbn [check_loop]. destruct (enabled b) eqn:Hen.
    + unfold bind.
      destruct (check_health_events net (client_of w b) log)
        as (ev1 & Hlog1 & Hping & Hrq1).
      destruct (check_health net (client_of w b) log) as [s log1] eqn:E1.
      cbn [snd] in Hlog1. subst log1.
      destruct (IH (log ++ ev1)) as (Hmap & Hall & ev2 & Hlog2 & Hrq2 & Hp2).
      destruct (check_loop net w rest (log ++ ev1)) as [rest' log2] eqn:E2.
      cbn [fst snd] in *. subst log2. unfold ret. cbn [fst snd].
      split; [cbn [map]; now rewrite Hmap|].
      split.
      { constructor; [|assumption]. cbn. congruence. }
      exists (ev1 ++ ev2). split; [now rewrite app_assoc|]. split.
      * intros rq Hin. apply in_app_or in Hin. destruct Hin as [Hin|Hin].
        -- exists b. split; [now left|]. split; [assumption|].
           apply Hrq1 in Hin. exact Hin.
        -- destruct (Hrq2 rq Hin) as (b0 & Hb0 & He0 & Hr0).
           exists b0. split; [now right|]. split; assumption.
      * intros b0 [<-|Hb0] He0; apply in_or_app.
        -- left. exact Hping.
        -- right. now apply Hp2.
    + unfold bind.
      destruct (IH log) as (Hmap & Hall & ev2 & Hlog2 & Hrq2 & Hp2).
      destruct (check_loop net w rest log) as [rest' log2] eqn:E2.
      cbn [fst snd] in *. subst log2. unfold ret. cbn [fst snd].
      split; [cbn [map]; now rewrite Hmap|].
      split.
      { constructor; [|assumption]. reflexivity. }
      exists ev2. split; [reflexivity|]. split.
      * intros rq Hin. destruct (Hrq2 rq Hin) as (b0 & Hb0 & He0 & Hr0).
        exists b0. split; [now right|]. split; assumption.
      * intros b0 [<-|Hb0] He0; [congruence|now apply Hp2].
Qed.

Lemma filter_length_le {A} (f : A -> bool) (l : list A) :
  (List.length (filter f l) <= List.length l)%nat.
Proof.
  induction l as [|x l IH]; cbn; [lia|]. destruct (f x); cbn; lia.
Qed.

(** X4. [check_all_branches] changes nothing of a branch but its status;
    a disabled branch is never contacted and its status is reset to
    [UNKNOWN]; every enabled branch is pinged, and every request of the
    pass is the ping or the database probe of an enabled branch.  After
    the pass every connected branch is enabled, so the first count of the
    status-bar message is the number of connected branches, and it does
    not exceed the second. *)
Theorem check_all_branches_statuses (net : nat -> request -> outcome)
  (w : MainWindow) (log : list event) :
  let run := check_all_branches net w log in
  let w' := fst (fst run) in
  let counts := snd (fst run) in
  map (fun b => set_status b UNKNOWN) (branches w')
  = map (fun b => set_status b UNKNOWN) (branches w)
  /\ Forall (fun b' => enabled b' = false -> status b' = UNKNOWN)
            (branches w')
  /\ Forall (fun b' => status b' = CONNECTED -> enabled b' = true)
            (branches w')
  /\ fst counts
     = Z.of_nat (List.length
                   (filter (fun b => is_connected (status b)) (branches w')))
  /\ fst counts <= snd counts
  /\ exists evs,
       snd run = log ++ evs
       /\ (forall rq, In (EvRequest rq) evs ->
             exists b, In b (branches w) /\ enabled b = true
                       /\ (rq = ping_request b \/ rq = probe_request w b))
       /\ (forall b, In b (branches w) -> enabled b = true ->
             In (EvRequest (ping_request b)) evs).
Proof.
  cbv zeta. unfold check_all_branches, bind.
  destruct (check_loop_spec net w (branches w) log)
    as (Hmap & Hall & evs & Hlog & Hrq & Hping).
  destruct (check_loop net w (branches w) log) as [bs log'] eqn:E.
  cbn [fst snd] in *. unfold ret. cbn [fst snd branches set_branches].
  assert (Hconn : Forall (fun b' => status b' = CONNECTED -> enabled b' = true)
                         bs).
  { rewrite Forall_forall in *. intros b' Hin Hs.
    destruct (enabled b') eqn:He; [reflexivity|].
    rewrite (Hall b' Hin He) in Hs. discriminate Hs. }
  assert (Hf : filter (fun b => is_connected (status b) && enabled b) bs
               = filter (fun b => is_connected (status b)) bs).
  { apply filter_ext_in_bool. intros b' Hin. rewrite Forall_forall in Hconn.
    destruct (is_connected (status b')) eqn:Hc; [|reflexivity].
    apply is_connected_true in Hc. now rewrite (Hconn b' Hin Hc). }
  split; [assumption|]. split; [assumption|]. split; [assumption|].
  split; [now rewrite Hf|]. split.
  { apply inj_le. clear.
    induction bs as [|b bs IH]; cbn; [lia|].
    destruct (enabled b); destruct (is_connected (status b)); cbn; lia. }
  exists evs. split; [assumption|]. split; assumption.
Qed.

(** *** Snapshots *)

Lemma fetch_loop_registry net w bs : forall log,
  let bs' := fst (fetch_loop net w bs log) in
  map (fun b => set_articles b []) bs' = map (fun b => set_articles b []) bs
  /\ (forall i b, nth_error bs i = Some b -> fetchable b = false ->
                  nth_error bs' i = Some b)
  /\ ((forall n rq code r, net n rq = Responded code (inr r) ->
                           opt_truthy (r_success r) = false) ->
      Forall (fun b' => fetchable b' = true -> articles b' = []) bs').
Proof.
  induction bs as [|b rest IH]; intros log.
  - cbn. split; [reflexivity|]. split; [|constructor].
    intros [|i] b H; discriminate H.
  - cbn [fetch_loop]. destruct (fetchable b) eqn:Hf.
    + unfold bind.
      pose proof (get_articles_unanswered net (client_of w b) "" 50000 log)
        as Hga.
      destruct (get_articles net (client_of w b) "" 50000 log)
        as [arts log1] eqn:E1. cbn [fst] in Hga.
      destruct (IH log1) as (Hmap & Hkeep & Hfail).
      destruct (fetch_loop net w rest log1) as [rest' log2] eqn:E2.
      cbn [fst] in *. unfold ret. cbn [fst].
      split; [cbn [map]; now rewrite Hmap|]. split.
      * intros [|i] b0 Hn Hnf; cbn in Hn |- *.
        -- injection Hn as <-. congruence.
        -- now apply Hkeep.
      * intros Hnet. constructor; [|now apply Hfail].
        intros _. cbn [articles set_articles]. now apply Hga.
    + unfold bind.
      destruct (IH log) as (Hmap & Hkeep & Hfail).
      destruct (fetch_loop net w rest log) as [rest' log2] eqn:E2.
      cbn [fst] in *. unfold ret. cbn [fst].
      split; [cbn [map]; now rewrite Hmap|]. split.
      * intros [|i] b0 Hn Hnf; cbn in Hn |- *.
        -- assumption.
        -- now apply Hkeep.
      * intros Hnet. constructor; [|now apply Hfail]. congruence.
Qed.

(** X5. [fetch_all_data] keeps the registry in shape: the branches, their
    order and every field but [articles] are as before; a branch that is
    disabled or not connected keeps the snapshot it had; the ledger is not
    touched.  Without any branch that is both enabled and connected the
    window is returned as it is after one warning; otherwise the table is
    redrawn on page 1. *)
Theorem fetch_all_data_registry (net : nat -> request -> outcome)
  (w : MainWindow) (log : list event) :
  let w' := fst (fetch_all_data net w log) in
  map (fun b => set_articles b []) (branches w')
  = map (fun b => set_articles b []) (branches w)
  /\ (forall i b, nth_error (branches w) i = Some b -> fetchable b = false ->
                  nth_error (branches w') i = Some b)
  /\ pending_changes w' = pending_changes w
  /\ (filter fetchable (branches w) = [] ->
      fetch_all_data net w log = (w, log ++ [EvWarning]))
  /\ (filter fetchable (branches w) <> [] ->
      current_page w' = 1 /\ w' = update_table w').
Proof.
  cbv zeta. unfold fetch_all_data.
  destruct (filter fetchable (branches w)) as [|b0 l0] eqn:Hf.
  - unfold bind, emit, ret. cbn [fst snd].
    split; [reflexivity|]. split; [intros; assumption|].
    split; [reflexivity|]. split; [reflexivity|congruence].
  - unfold bind.
    destruct (fetch_loop_registry net w (branches w) log) as (Hmap & Hkeep & _).
    destruct (fetch_loop net w (branches w) log) as [bs log1] eqn:E.
    cbn [fst] in *. unfold ret. cbn [fst].
    split; [exact Hmap|]. split; [exact Hkeep|]. split; [reflexivity|].
    split; [discriminate|]. intros _. split; reflexivity.
Qed.

(** X6. When no answer of the network carries a true [success] (requests
    raise, bodies do not decode, or the server reports failure), a fetch
    pass leaves every enabled and connected branch with an empty
    snapshot: what it held before is dropped, not kept. *)
Theorem failed_fetch_empties_snapshot (net : nat -> request -> outcome)
  (w : MainWindow) (log : list event) :
  (forall n rq code r, net n rq = Responded code (inr r) ->
                       opt_truthy (r_success r) = false) ->
  Forall (fun b' => fetchable b' = true -> articles b' = [])
         (branches (fst (fetch_all_data net w log))).
Proof.
  intros Hnet. unfold fetch_all_data.
  destruct (filter fetchable (branches w)) as [|b0 l0] eqn:Hf.
  - unfold bind, emit, ret. cbn [fst].
    rewrite Forall_forall. intros b' Hin Hb'.
    assert (In b' (filter fetchable (branches w)))
      by (apply filter_In; split; assumption).
    rewrite Hf in H. destruct H.
  - unfold bind.
    destruct (fetch_loop_registry net w (branches w) log) as (_ & _ & Hfail).
    destruct (fetch_loop net w (branches w) log) as [bs log1] eqn:E.
    cbn [fst] in *. unfold ret. cbn [fst]. now apply Hfail.
Qed.

Lemma failed_fetch_empties_snapshot_witness :
  Forall (fun b' => fetchable b' = true -> articles b' = [])
         (branches (fst (fetch_all_data Samples.net_down
                           Samples.price_window []))).
Proof.
  apply failed_fetch_empties_snapshot.
  intros n rq code r H. discriminate H.
Defined.

End RegistryFacts.

(* ================================================================== *)
(** ** Ordered dictionaries *)
(* ================================================================== *)

Module DictFacts.
Import Py BranchManager BranchManagerFacts.

Lemma od_get_app {V} (k : string) (d1 d2 : odict V) :
  od_get k (d1 ++ d2)
  = match od_get k d1 with
    | Some v => Some v
    | None => od_get k d2
    end.
Proof.
  induction d1 as [|[k0 v] t IH]; cbn; [reflexivity|].
  destruct (String.eqb k0 k); [reflexivity|exact IH].
Qed.

Lemma od_get_update {V} (k k' : string) (f : V -> V) (d : odict V) :
  od_get k (od_update k' f d)
  = if String.eqb k' k then option_map f (od_get k d) else od_get k d.
Proof.
  induction d as [|[k0 v] t IH]; cbn.
  - now destruct (String.eqb k' k).
  - destruct (String.eqb k0 k') eqn:E0; cbn.
    + apply String.eqb_eq in E0. subst k0.
      destruct (String.eqb k' k); reflexivity.
    + rewrite IH. destruct (String.eqb k0 k) eqn:E1; [|reflexivity].
      apply String.eqb_eq in E1. subst k0.
      rewrite String.eqb_sym in E0. now rewrite E0.
Qed.

Lemma od_get_set {V} (k k' : string) (v : V) (d : odict V) :
  od_get k (od_set k' v d)
  = if String.eqb k' k then Some v else od_get k d.
Proof.
  induction d as [|[k0 v0] t IH]; cbn.
  - reflexivity.
  - destruct (String.eqb k0 k') eqn:E0; cbn.
    + apply String.eqb_eq in E0. subst k0.
      destruct (String.eqb k' k); reflexivity.
    + rewrite IH. destruct (String.eqb k0 k) eqn:E1; [|reflexivity].
      apply String.eqb_eq in E1. subst k0.
      rewrite String.eqb_sym in E0. now rewrite E0.
Qed.

Lemma od_get_In {V} (k : string) (v : V) (d : odict V) :
  NoDup (od_keys d) -> In (k, v) d -> od_get k d = Some v.
Proof.
  induction d as [|[k0 v0] t IH]; cbn; intros Hnd Hin; [destruct Hin|].
  inversion Hnd as [|? ? Hnot Hnd']; subst.
  destruct Hin as [Heq|Hin].
  - injection Heq as -> ->. now rewrite String.eqb_refl.
  - destruct (String.eqb k0 k) eqn:E; [|now apply IH].
    apply String.eqb_eq in E. subst k0. exfalso. apply Hnot.
    unfold od_keys. apply in_map_iff. exists (k, v). split; [reflexivity|assumption].
Qed.

Lemma od_get_Some_In {V} (k : string) (v : V) (d : odict V) :
  od_get k d = Some v -> In (k, v) d.
Proof.
  induction d as [|[k0 v0] t IH]; cbn; intros H; [discriminate|].
  destruct (String.eqb k0 k) eqn:E.
  - apply String.eqb_eq in E. injection H as ->. subst. now left.
  - right. now apply IH.
Qed.

End DictFacts.

(* ================================================================== *)
(** ** Dispatch of the ledger *)
(* ================================================================== *)

Module DispatchFacts.
Import Py BranchManager BranchManagerFacts ClientFacts DictFacts.

Lemma group_step_get g c k :
  od_get k (group_step g c)
  = if String.eqb (ch_branch c) k then Some (or_nil (od_get k g) ++ [c])
    else od_get k g.
Proof.
  unfold group_step. rewrite od_get_update.
  destruct (String.eqb (ch_branch c) k) eqn:E.
  - apply String.eqb_eq in E. subst k. unfold od_mem.
    destruct (od_get (ch_branch c) g) as [l|] eqn:Hg; cbn [negb].
    + rewrite Hg. reflexivity.
    + rewrite od_get_app, Hg. cbn. now rewrite String.eqb_refl.
  - destruct (negb (od_mem (ch_branch c) g)); [|reflexivity].
    rewrite od_get_app. destruct (od_get k g); [reflexivity|].
    cbn. now rewrite E.
Qed.

Lemma group_loop_get k pending : forall g,
  od_get k (fold_left group_step pending g)
  = let f := filter (fun c => String.eqb (ch_branch c) k) pending in
    match od_get k g with
    | Some l => Some (l ++ f)
    | None => match f with [] => None | _ => Some f end
    end.
Proof.
  induction pending as [|c rest IH]; intros g; cbn [fold_left filter].
  - cbv zeta. destruct (od_get k g); [now rewrite app_nil_r|reflexivity].
  - rewrite IH, group_step_get. cbv zeta.
    destruct (String.eqb (ch_branch c) k).
    + destruct (od_get k g) as [l|]; cbn [or_nil].
      * now rewrite <- app_assoc.
      * reflexivity.
    + reflexivity.
Qed.

Lemma group_step_keys g c :
  od_keys (group_step g c) = add_key (od_keys g) (ch_branch c).
Proof.
  unfold group_step, add_key. rewrite od_update_keys, od_mem_keys.
  destruct (mem (ch_branch c) (od_keys g)); cbn [negb]; [reflexivity|].
  unfold od_keys. now rewrite map_app.
Qed.

Lemma group_loop_keys pending : forall g,
  od_keys (fold_left group_step pending g)
  = fold_left add_key (map ch_branch pending) (od_keys g).
Proof.
  induction pending as [|c rest IH]; intros g; cbn [fold_left map];
    [reflexivity|].
  now rewrite IH, group_step_keys.
Qed.

Lemma od_update_concat (k : string) (c : Change) (g : odict (list Change)) :
  od_mem k g = true ->
  Permutation (List.concat (map snd (od_update k (fun l => l ++ [c]) g)))
              (c :: List.concat (map snd g)).
Proof.
  unfold od_mem. induction g as [|[k0 v] t IH]; cbn; [discriminate|].
  destruct (String.eqb k0 k) eqn:E; cbn; intros H.
  - rewrite <- app_assoc. cbn. apply Permutation_sym, Permutation_middle.
  - apply Permutation_trans with (v ++ c :: List.concat (map snd t)).
    + apply Permutation_app_head. now apply IH.
    + apply Permutation_sym, Permutation_middle.
Qed.

Lemma group_step_concat g c :
  Permutation (List.concat (map snd (group_step g c)))
              (c :: List.concat (map snd g)).
Proof.
  unfold group_step. destruct (od_mem (ch_branch c) g) eqn:E; cbn [negb].
  - now apply od_update_concat.
  - eapply Permutation_trans.
    + apply od_update_concat. unfold od_mem. rewrite od_get_app.
      destruct (od_get (ch_branch c) g); [reflexivity|].
      cbn. now rewrite String.eqb_refl.
    + rewrite map_app, concat_app. cbn. now rewrite !app_nil_r.
Qed.

Lemma group_loop_concat pending : forall g,
  Permutation (List.concat (map snd (fold_left group_step pending g)))
              (List.concat (map snd g) ++ pending).
Proof.
  induction pending as [|c rest IH]; intros g; cbn [fold_left].
  - now rewrite app_nil_r.
  - eapply Permutation_trans; [apply IH|].
    eapply Permutation_trans;
      [apply Permutation_app_tail, group_step_concat|].
    cbn. apply Permutation_middle.
Qed.

(** X7. Grouping the ledger by branch loses and invents nothing: the
    groups come in the order in which their branch first appears in the
    ledger, one per branch name; the group of a name holds exactly the
    changes addressed to it, in ledger order, and a name without changes
    has no group; all groups together are a rearrangement of the
    ledger. *)
Theorem changes_by_branch_partition (pending : list Change) :
  let groups := changes_by_branch pending in
  od_keys groups = first_seen (map ch_branch pending)
  /\ NoDup (od_keys groups)
  /\ (forall branch_name,
        od_get branch_name groups
        = match filter (fun c => String.eqb (ch_branch c) branch_name)
                       pending with
          | [] => None
          | l => Some l
          end)
  /\ Permutation (List.concat (map snd groups)) pending.
Proof.
  cbv zeta. unfold changes_by_branch.
  assert (Hk : od_keys (fold_left group_step pending [])
               = first_seen (map ch_branch pending)).
  { rewrite group_loop_keys, fold_add_key_first_seen. cbn [od_keys map app].
    rewrite (filter_ext_in_bool _ (fun _ => true)) by reflexivity.
    clear. induction (first_seen _) as [|x l IH]; cbn; [reflexivity|].
    now rewrite IH. }
  split; [exact Hk|]. split; [rewrite Hk; apply first_seen_NoDup|].
  split.
  - intros k. rewrite group_loop_get. cbv zeta. cbn [od_get].
    now destruct (filter _ pending).
  - apply (group_loop_concat pending []).
Qed.

(** What one group adds to the tally. *)
Lemma apply_group_adds net w tally g log :
  (forall n rq code r items dp,
      net n rq = Responded code (inr r) ->
      rq_json rq = Some (BatchItems items, dp) ->
      opt_truthy (r_success r) = true ->
      fst (reported_counts r) + snd (reported_counts r)
      = Z.of_nat (List.length items)) ->
  let t' := fst (apply_group net w tally g log) in
  fst t' + snd t' = fst tally + snd tally + Z.of_nat (List.length (snd g)).
Proof.
  intros Hnet. destruct tally as [s f], g as [bn changes]. cbv zeta.
  unfold apply_group.
  destruct (find _ (branches w)) as [b|]; [|cbn; lia].
  destruct (negb (is_connected (status b))); [cbn; lia|].
  unfold bind, batch_update.
  pose proof (request_result net (client_of w b) POST "/batch/update"
                (BatchItems (map make_item changes)) log) as Hres.
  cbv zeta in Hres.
  destruct (_request net (client_of w b) POST "/batch/update"
              (BatchItems (map make_item changes)) log) as [result log'] eqn:E.
  cbn [fst snd] in Hres.
  destruct (opt_truthy (r_success result)) eqn:Ht.
  - destruct Hres as [(k & code & _ & Hk)|(e & He)].
    + specialize (Hnet _ _ _ _ (map make_item changes)
                       (_db_params (client_of w b)) Hk eq_refl Ht).
      unfold reported_counts in Hnet. cbn [fst snd] in Hnet.
      unfold ret. cbn [fst snd]. rewrite length_map in Hnet. lia.
    + subst result. discriminate Ht.
  - unfold ret. cbn [fst snd]. rewrite length_map. lia.
Qed.

Lemma apply_groups_adds net w groups :
  (forall n rq code r items dp,
      net n rq = Responded code (inr r) ->
      rq_json rq = Some (BatchItems items, dp) ->
      opt_truthy (r_success r) = true ->
      fst (reported_counts r) + snd (reported_counts r)
      = Z.of_nat (List.length items)) ->
  forall tally log,
  let t' := fst (apply_groups net w tally groups log) in
  fst t' + snd t'
  = fst tally + snd tally
    + Z.of_nat (List.length (List.concat (map snd groups))).
Proof.
  intros Hnet. induction groups as [|g rest IH]; intros tally log.
  - cbn. lia.
  - cbn [apply_groups]. unfold bind.
    pose proof (apply_group_adds net w tally g log Hnet) as Hg.
    cbv zeta in Hg.
    destruct (apply_group net w tally g log) as [t1 log1].
    cbn [fst] in Hg. cbv zeta. rewrite IH.
    cbn [map List.concat]. rewrite length_app. lia.
Qed.

(** The tally of a cycle is the tally of its dispatch loop. *)
Lemma cycle_tally net w log :
  snd (fst (do_apply_changes net w log))
  = fst (apply_groups net w (0, 0) (changes_by_branch (pending_changes w))
           log).
Proof.
  unfold do_apply_changes, bind.
  destruct (apply_groups net w (0, 0) (changes_by_branch (pending_changes w))
              log) as [tally log1].
  unfold emit.
  destruct (fetch_all_data net (set_pending_changes w [])
              (log1 ++ [EvReport (fst tally) (snd tally)])) as [w' log2].
  reflexivity.
Qed.

(** X8. If every successful answer to a batch request reports counts that
    add up to the number of items sent (as the middleware's summary does),
    the two numbers reported at the end of a dispatch cycle add up to the
    number of pending changes: no change is dropped from the tally or
    counted twice, whatever mixture of unknown, unhealthy, failing and
    answering branches the ledger addresses. *)
Theorem tally_accounts_for_every_change (net : nat -> request -> outcome)
  (w : MainWindow) (log : list event) :
  (forall n rq code r items dp,
      net n rq = Responded code (inr r) ->
      rq_json rq = Some (BatchItems items, dp) ->
      opt_truthy (r_success r) = true ->
      fst (reported_counts r) + snd (reported_counts r)
      = Z.of_nat (List.length items)) ->
  let tally := snd (fst (do_apply_changes net w log)) in
  fst tally + snd tally = Z.of_nat (List.length (pending_changes w)).
Proof.
  intros Hnet. cbv zeta. rewrite cycle_tally.
  pose proof (apply_groups_adds net w (changes_by_branch (pending_changes w))
                Hnet (0, 0) log) as Hsum. cbv zeta in Hsum.
  rewrite Hsum. unfold changes_by_branch.
  rewrite (Permutation_length (group_loop_concat (pending_changes w) [])).
  cbn. lia.
Qed.

Lemma tally_accounts_for_every_change_witness :
  let tally := snd (fst (do_apply_changes Samples.net_counting
                           Samples.mixed_window [])) in
  fst tally + snd tally = 4.
Proof.
  apply (tally_accounts_for_every_change Samples.net_counting
           Samples.mixed_window []).
  intros n rq code r items dp H Hj _. unfold Samples.net_counting in H.
  rewrite Hj in H. injection H as _ <-.
  unfold reported_counts. cbn. lia.
Defined.

Lemma apply_groups_all_unhealthy net w groups :
  Forall (fun b => status b <> CONNECTED) (branches w) ->
  forall tally log,
  apply_groups net w tally groups log
  = ((fst tally,
      snd tally + Z.of_nat (List.length (List.concat (map snd groups)))),
     log).
Proof.
  intros Hall. induction groups as [|[bn changes] rest IH]; intros [s f] log.
  - cbn. unfold ret. now rewrite Z.add_0_r.
  - cbn [apply_groups]. unfold bind.
    assert (Hg : apply_group net w (s, f) (bn, changes) log
                 = ((s, f + Z.of_nat (List.length changes)), log)).
    { destruct (find (fun b => String.eqb (name b) bn) (branches w))
        as [b|] eqn:Hfind.
      - apply (apply_group_unhealthy net w (s, f) bn changes log b Hfind).
        rewrite Forall_forall in Hall. apply Hall.
        now apply find_some in Hfind.
      - unfold apply_group. rewrite Hfind. reflexivity. }
    rewrite Hg, IH. cbn [fst snd map List.concat].
    rewrite length_app. f_equal. f_equal. lia.
Qed.

(** X9. When no registered branch is connected, a dispatch cycle sends
    nothing: it reports zero successes and as many failures as there were
    pending changes, empties the ledger all the same, and the refetch
    ends at once with its warning; branches and table are as before. *)
Theorem dispatch_without_connected_branch (net : nat -> request -> outcome)
  (w : MainWindow) (log : list event) :
  Forall (fun b => status b <> CONNECTED) (branches w) ->
  let n := Z.of_nat (List.length (pending_changes w)) in
  do_apply_changes net w log
  = ((set_pending_changes w [], (0, n)),
     log ++ [EvReport 0 n; EvWarning]).
Proof.
  intros Hall. cbv zeta. unfold do_apply_changes, bind.
  rewrite (apply_groups_all_unhealthy net w _ Hall).
  unfold changes_by_branch.
  rewrite (Permutation_length (group_loop_concat (pending_changes w) [])).
  cbn [fst snd List.concat map app]. unfold emit.
  unfold fetch_all_data.
  assert (Hnone : filter fetchable (branches (set_pending_changes w [])) = []).
  { cbn [branches set_pending_changes].
    assert (H : forall l, Forall (fun b => status b <> CONNECTED) l ->
                          filter fetchable l = []).
    { induction 1 as [|b l Hb _ IH]; cbn; [reflexivity|].
      destruct (fetchable b) eqn:Hf; [|exact IH].
      apply fetchable_spec in Hf. destruct Hf as [_ Hf]. contradiction. }
    now apply H. }
  rewrite Hnone. unfold bind, emit, ret.
  rewrite <- app_assoc. reflexivity.
Qed.

Lemma dispatch_without_connected_branch_witness :
  do_apply_changes Samples.net_up Samples.offline_window []
  = ((set_pending_changes Samples.offline_window [], (0, 1)),
     [EvReport 0 1; EvWarning]).
Proof.
  apply (dispatch_without_connected_branch Samples.net_up
           Samples.offline_window []).
  repeat constructor. discriminate.
Defined.

(** *** Groups that are not sent *)

Lemma od_get_filter {V} (P : string -> bool) (k : string) (d : odict V) :
  od_get k (filter (fun g => P (fst g)) d)
  = if P k then od_get k d else None.
Proof.
  induction d as [|[k0 v] t IH]; cbn [filter od_get fst].
  - now destruct (P k).
  - destruct (String.eqb k0 k) eqn:E.
    + apply String.eqb_eq in E. subst k0.
      destruct (P k) eqn:HP; cbn [od_get].
      * now rewrite String.eqb_refl.
      * rewrite IH. first [now rewrite HP|reflexivity].
    + destruct (P k0); cbn [od_get]; [rewrite E|]; exact IH.
Qed.

Lemma od_update_filter {V} (P : string -> bool) (k : string) (f : V -> V)
  (d : odict V) :
  filter (fun g => P (fst g)) (od_update k f d)
  = if P k then od_update k f (filter (fun g => P (fst g)) d)
    else filter (fun g => P (fst g)) d.
Proof.
  induction d as [|[k0 v] t IH]; cbn [od_update filter fst].
  - now destruct (P k).
  - destruct (String.eqb k0 k) eqn:E.
    + apply String.eqb_eq in E. subst k0. cbn [filter fst].
      destruct (P k); cbn [od_update]; [now rewrite String.eqb_refl|].
      reflexivity.
    + cbn [filter fst]. rewrite IH.
      destruct (P k0); destruct (P k); cbn [od_update]; try rewrite E;
        reflexivity.
Qed.

Lemma group_step_filter (P : string -> bool) g c :
  filter (fun g => P (fst g)) (group_step g c)
  = if P (ch_branch c) then group_step (filter (fun g => P (fst g)) g) c
    else filter (fun g => P (fst g)) g.
Proof.
  unfold group_step. rewrite od_update_filter.
  assert (Hmem : od_mem (ch_branch c) (filter (fun g => P (fst g)) g)
                 = P (ch_branch c) && od_mem (ch_branch c) g).
  { unfold od_mem. rewrite od_get_filter. now destruct (P (ch_branch c)). }
  rewrite Hmem.
  destruct (P (ch_branch c)) eqn:HP; cbn [andb].
  - destruct (od_mem (ch_branch c) g); cbn [negb]; [reflexivity|].
    rewrite filter_app. cbn [filter fst]. now rewrite HP.
  - destruct (od_mem (ch_branch c) g); cbn [negb]; [reflexivity|].
    rewrite filter_app. cbn [filter fst]. rewrite HP. apply app_nil_r.
Qed.

(** The groups of the changes that are kept are the groups that are
    kept. *)
Lemma changes_by_branch_filter (P : string -> bool) pending :
  changes_by_branch (filter (fun c => P (ch_branch c)) pending)
  = filter (fun g => P (fst g)) (changes_by_branch pending).
Proof.
  unfold changes_by_branch.
  induction pending as [|c rest IH] using rev_ind; [reflexivity|].
  rewrite filter_app, !fold_left_app. cbn [fold_left filter].
  rewrite group_step_filter.
  destruct (P (ch_branch c)); cbn [fold_left].
  - now rewrite IH.
  - exact IH.
Qed.

Lemma group_step_members g c :
  Forall (fun g => Forall (fun c => ch_branch c = fst g) (snd g)) g ->
  Forall (fun g => Forall (fun c => ch_branch c = fst g) (snd g))
         (group_step g c).
Proof.
  intros H. unfold group_step.
  assert (Hup : forall d : odict (list Change),
             Forall (fun g => Forall (fun c => ch_branch c = fst g) (snd g)) d ->
             Forall (fun g => Forall (fun c => ch_branch c = fst g) (snd g))
                    (od_update (ch_branch c) (fun l => l ++ [c]) d)).
  { induction d as [|[k0 v] t IH]; cbn [od_update]; intros Hd; [constructor|].
    inversion Hd as [|? ? Hv Ht]; subst.
    destruct (String.eqb k0 (ch_branch c)) eqn:E.
    - constructor; [|exact Ht]. cbn [fst snd] in *.
      apply Forall_app. split; [exact Hv|]. constructor; [|constructor].
      apply String.eqb_eq in E. now rewrite E.
    - constructor; [exact Hv|now apply IH]. }
  apply Hup. destruct (negb (od_mem (ch_branch c) g)); [|exact H].
  apply Forall_app. split; [exact H|]. constructor; [constructor|constructor].
Qed.

Lemma group_loop_members pending : forall g,
  Forall (fun g => Forall (fun c => ch_branch c = fst g) (snd g)) g ->
  Forall (fun g => Forall (fun c => ch_branch c = fst g) (snd g))
         (fold_left group_step pending g).
Proof.
  induction pending as [|c rest IH]; intros g H; cbn [fold_left];
    [exact H|]. apply IH. now apply group_step_members.
Qed.

Lemma concat_filter_groups (P : string -> bool) (d : odict (list Change)) :
  Forall (fun g => Forall (fun c => ch_branch c = fst g) (snd g)) d ->
  List.concat (map snd (filter (fun g => P (fst g)) d))
  = filter (fun c => P (ch_branch c)) (List.concat (map snd d)).
Proof.
  induction 1 as [|[k l] t Hl _ IH]; [reflexivity|].
  cbn [filter map List.concat fst snd] in *. rewrite filter_app, <- IH.
  assert (Hf : filter (fun c => P (ch_branch c)) l = if P k then l else []).
  { clear IH. induction Hl as [|c l Hc _ IHl]; cbn [filter].
    - now destruct (P k).
    - rewrite Hc, IHl. now destruct (P k). }
  rewrite Hf. destruct (P k); reflexivity.
Qed.

Lemma Permutation_filter {A} (f : A -> bool) (l l' : list A) :
  Permutation l l' -> Permutation (filter f l) (filter f l').
Proof.
  induction 1 as [|x l l' _ IH|x y l|l l' l'' _ IH1 _ IH2]; cbn [filter].
  - constructor.
  - destruct (f x); [now constructor|exact IH].
  - destruct (f x); destruct (f y); try apply Permutation_refl.
    apply perm_swap.
  - now apply Permutation_trans with (filter f l').
Qed.

(** The changes of the groups that are not sent are the changes that are
    not sent. *)
Lemma held_count (P : string -> bool) pending :
  List.length
    (List.concat
       (map snd (filter (fun g => negb (P (fst g)))
                        (changes_by_branch pending))))
  = List.length (filter (fun c => negb (P (ch_branch c))) pending).
Proof.
  rewrite (concat_filter_groups (fun k => negb (P k))).
  - apply Permutation_length, Permutation_filter.
    apply (group_loop_concat pending []).
  - apply group_loop_members. constructor.
Qed.

Lemma apply_group_held net w tally branch_name changes log :
  dispatchable w branch_name = false ->
  apply_group net w tally (branch_name, changes) log
  = ((fst tally, snd tally + Z.of_nat (List.length changes)), log).
Proof.
  unfold dispatchable. intros H. destruct tally as [s f].
  destruct (find (fun b => String.eqb (name b) branch_name) (branches w))
    as [b|] eqn:Hfind.
  - apply (apply_group_unhealthy net w (s, f) branch_name changes log b Hfind).
    intros Hs. rewrite Hs in H. discriminate H.
  - unfold apply_group. rewrite Hfind. reflexivity.
Qed.

(** A failure count that is larger at the start is larger by as much at
    the end. *)
Lemma apply_group_shift net w s f k g log :
  apply_group net w (s, f + k) g log
  = ((fst (fst (apply_group net w (s, f) g log)),
      snd (fst (apply_group net w (s, f) g log)) + k),
     snd (apply_group net w (s, f) g log)).
Proof.
  destruct g as [bn changes]. unfold apply_group.
  destruct (find (fun b => String.eqb (name b) bn) (branches w)) as [b|].
  2:{ unfold ret. cbn [fst snd]. f_equal. f_equal. lia. }
  destruct (negb (is_connected (status b))).
  { unfold ret. cbn [fst snd]. f_equal. f_equal. lia. }
  unfold bind.
  destruct (batch_update net (client_of w b) (map make_item changes) log)
    as [result log'].
  destruct (opt_truthy (r_success result)); unfold ret; cbn [fst snd];
    f_equal; f_equal; lia.
Qed.

Lemma apply_groups_shift net w k groups : forall s f log,
  apply_groups net w (s, f + k) groups log
  = ((fst (fst (apply_groups net w (s, f) groups log)),
      snd (fst (apply_groups net w (s, f) groups log)) + k),
     snd (apply_groups net w (s, f) groups log)).
Proof.
  induction groups as [|g rest IH]; intros s f log; cbn [apply_groups].
  - reflexivity.
  - unfold bind. rewrite apply_group_shift.
    destruct (apply_group net w (s, f) g log) as [[s1 f1] log1].
    cbn [fst snd]. apply IH.
Qed.

(** The dispatch loop over all groups is the loop over the groups that
    are sent, with the changes of the others added to the failures. *)
Lemma apply_groups_skip net w groups : forall s f log,
  apply_groups net w (s, f) groups log
  = let run := apply_groups net w (s, f)
                 (filter (fun g => dispatchable w (fst g)) groups) log in
    ((fst (fst run),
      snd (fst run)
      + Z.of_nat (List.length
                    (List.concat
                       (map snd (filter (fun g => negb (dispatchable w (fst g)))
                                        groups))))),
     snd run).
Proof.
  induction groups as [|[bn changes] rest IH]; intros s f log;
    cbn [apply_groups filter fst].
  - cbn. unfold ret. cbn [fst snd]. now rewrite Z.add_0_r.
  - destruct (dispatchable w bn) eqn:Hd; cbn [negb apply_groups].
    + unfold bind.
      destruct (apply_group net w (s, f) (bn, changes) log) as [[s1 f1] log1].
      apply IH.
    + unfold bind. rewrite (apply_group_held net w (s, f) bn changes log Hd).
      cbn [fst snd]. rewrite apply_groups_shift, IH. cbv zeta.
      cbn [fst snd map List.concat]. rewrite length_app.
      f_equal. f_equal. lia.
Qed.

Lemma apply_groups_pending net w l groups : forall tally log,
  apply_groups net (set_pending_changes w l) tally groups log
  = apply_groups net w tally groups log.
Proof.
  induction groups as [|g rest IH]; intros tally log; cbn [apply_groups];
    [reflexivity|].
  unfold bind.
  change (apply_group net (set_pending_changes w l) tally g log)
    with (apply_group net w tally g log).
  destruct (apply_group net w tally g log). apply IH.
Qed.

(** *** What a fetch pass reads of the log *)

Lemma attempts_same_requests net rq retry n : forall attempt last log1 log2,
  requests_made log1 = requests_made log2 ->
  exists r evs,
    attempts net rq retry n attempt last log1 = (r, log1 ++ evs)
    /\ attempts net rq retry n attempt last log2 = (r, log2 ++ evs).
Proof.
  induction n as [|n IH]; intros attempt last log1 log2 Hrm.
  - exists (failure last), []. cbn [attempts]. unfold ret.
    now rewrite !app_nil_r.
  - destruct (attempt_error (net (requests_made log1) rq)) as [msg|] eqn:Herr.
    + rewrite (attempts_fail net rq retry n attempt last log1 msg Herr).
      rewrite Hrm in Herr.
      rewrite (attempts_fail net rq retry n attempt last log2 msg Herr).
      set (sl := [EvRequest rq]
                 ++ (if attempt <? retry - 1 then [EvSleep 1] else [])).
      destruct (IH (attempt + 1) (PStr msg) (log1 ++ sl) (log2 ++ sl))
        as (r & evs & H1 & H2).
      { rewrite !requests_made_app. now rewrite Hrm. }
      exists r, (sl ++ evs). rewrite H1, H2, <- !app_assoc. split; reflexivity.
    + destruct (net (requests_made log1) rq) as [e|code [m|result]] eqn:Hnet;
        try discriminate Herr.
      rewrite (attempts_respond _ _ _ _ _ _ _ _ _ Hnet).
      rewrite Hrm in Hnet.
      rewrite (attempts_respond _ _ _ _ _ _ _ _ _ Hnet).
      exists result, [EvRequest rq]. split; reflexivity.
Qed.

Lemma get_articles_same_requests net c search limit log1 log2 :
  requests_made log1 = requests_made log2 ->
  exists arts evs,
    get_articles net c search limit log1 = (arts, log1 ++ evs)
    /\ get_articles net c search limit log2 = (arts, log2 ++ evs).
Proof.
  intros Hrm. unfold get_articles, bind, _request.
  destruct (attempts_same_requests net
              (build_request c POST "/articles" (ArticlesQuery search limit))
              (cl_retry c) (Z.to_nat (cl_retry c)) 0 PNone log1 log2 Hrm)
    as (r & evs & -> & ->).
  destruct (opt_truthy (r_success r)); unfold ret; eexists _, evs;
    split; reflexivity.
Qed.

Lemma fetch_loop_same_requests net w bs : forall log1 log2,
  requests_made log1 = requests_made log2 ->
  exists bs' evs,
    fetch_loop net w bs log1 = (bs', log1 ++ evs)
    /\ fetch_loop net w bs log2 = (bs', log2 ++ evs).
Proof.
  induction bs as [|b rest IH]; intros log1 log2 Hrm; cbn [fetch_loop].
  - exists [], []. unfold ret. now rewrite !app_nil_r.
  - destruct (fetchable b).
    + unfold bind.
      destruct (get_articles_same_requests net (client_of w b) "" 50000
                  log1 log2 Hrm) as (arts & ev1 & -> & ->).
      destruct (IH (log1 ++ ev1) (log2 ++ ev1)) as (bs' & ev2 & -> & ->).
      { rewrite !requests_made_app. now rewrite Hrm. }
      unfold ret. exists (set_articles b arts :: bs'), (ev1 ++ ev2).
      rewrite <- !app_assoc. split; reflexivity.
    + unfold bind.
      destruct (IH log1 log2 Hrm) as (bs' & ev2 & -> & ->).
      unfold ret. exists (b :: bs'), ev2. split; reflexivity.
Qed.

Lemma fetch_all_data_same_requests net w log1 log2 :
  requests_made log1 = requests_made log2 ->
  exists w' evs,
    fetch_all_data net w log1 = (w', log1 ++ evs)
    /\ fetch_all_data net w log2 = (w', log2 ++ evs).
Proof.
  intros Hrm. unfold fetch_all_data.
  destruct (filter fetchable (branches w)).
  - unfold bind, emit, ret. exists w, [EvWarning]. split; reflexivity.
  - unfold bind.
    destruct (fetch_loop_same_requests net w (branches w) log1 log2 Hrm)
      as (bs' & evs & -> & ->).
    unfold ret. eexists _, evs. split; reflexivity.
Qed.

(** C7. A group whose branch is not CONNECTED adds all its changes to
    the failure count and leaves the log untouched; every request sent
    during a whole cycle comes from the client of a CONNECTED branch; and
    the cycle as a whole treats the changes addressed to a branch that is
    not CONNECTED (or not registered) as failures without sending them:
    it returns, and reports in its summary, the successes of the cycle run
    on the ledger without these changes, and its failures plus the number
    of these changes; the window it leaves and the requests it sends are
    those of that cycle. *)
Theorem unhealthy_branch_fails_fast (net : nat -> request -> outcome)
  (w : MainWindow) :
  (forall tally branch_name changes log b,
      find (fun b => String.eqb (name b) branch_name) (branches w) = Some b ->
      status b <> CONNECTED ->
      apply_group net w tally (branch_name, changes) log
      = ((fst tally, snd tally + Z.of_nat (List.length changes)), log))
  /\ (forall log,
        exists evs,
          snd (do_apply_changes net w log) = log ++ evs
          /\ forall rq, In (EvRequest rq) evs -> to_connected w rq)
  /\ (forall log,
        let sent := filter (fun c => dispatchable w (ch_branch c))
                           (pending_changes w) in
        let held := filter (fun c => negb (dispatchable w (ch_branch c)))
                           (pending_changes w) in
        let run := do_apply_changes net w log in
        let run_sent := do_apply_changes net (set_pending_changes w sent) log in
        snd (fst run)
        = (fst (snd (fst run_sent)),
           snd (snd (fst run_sent)) + Z.of_nat (List.length held))
        /\ In (EvReport (fst (snd (fst run_sent)))
                        (snd (snd (fst run_sent))
                         + Z.of_nat (List.length held)))
              (snd run)
        /\ fst (fst run) = fst (fst run_sent)
        /\ filter is_request (snd run) = filter is_request (snd run_sent)).
Proof.
  split; [|split].
  - intros tally branch_name changes log b Hfind Hst.
    now apply (apply_group_unhealthy net w tally branch_name changes log b).
  - intros log. unfold do_apply_changes, bind.
    destruct (apply_groups_events net w (changes_by_branch (pending_changes w))
                (0, 0) log) as (evs1 & H1 & A1).
    destruct (apply_groups net w (0, 0) _ log) as [tally log1].
    cbn [snd] in H1. subst log1. unfold emit.
    destruct (fetch_all_data_events net (set_pending_changes w [])
                ((log ++ evs1) ++ [EvReport (fst tally) (snd tally)]))
      as (evs2 & H2 & A2 & _).
    destruct (fetch_all_data net (set_pending_changes w []) _) as [w' log2].
    cbn [snd] in H2. subst log2. cbn [ret snd].
    exists (evs1 ++ [EvReport (fst tally) (snd tally)] ++ evs2).
    rewrite <- !app_assoc. split; [reflexivity|].
    intros rq Hin. apply in_app_or in Hin. destruct Hin as [Hin|Hin]; [auto|].
    apply in_app_or in Hin. destruct Hin as [[Hin|[]]|Hin]; [discriminate|].
    destruct (A2 _ Hin) as (b & Hb & He & Hs & ->).
    exists b, "/articles", (ArticlesQuery "" 50000). auto.
  - intros log. cbv zeta. unfold do_apply_changes, bind.
    cbn [pending_changes set_pending_changes].
    rewrite apply_groups_pending.
    rewrite (changes_by_branch_filter (dispatchable w)).
    rewrite (apply_groups_skip net w (changes_by_branch (pending_changes w))).
    cbv zeta. rewrite (held_count (dispatchable w)).
    destruct (apply_groups net w (0, 0)
                (filter (fun g => dispatchable w (fst g))
                        (changes_by_branch (pending_changes w))) log)
      as [[s f] log1].
    cbn [fst snd]. unfold emit.
    set (n := Z.of_nat
                (List.length
                   (filter (fun c => negb (dispatchable w (ch_branch c)))
                           (pending_changes w)))).
    change (set_pending_changes (set_pending_changes w _) [])
      with (set_pending_changes w []).
    destruct (fetch_all_data_same_requests net (set_pending_changes w [])
                (log1 ++ [EvReport s (f + n)]) (log1 ++ [EvReport s f]))
      as (w' & evs & -> & ->).
    { now rewrite !requests_made_other. }
    unfold ret. cbn [fst snd]. split; [reflexivity|]. split.
    { apply in_or_app. left. apply in_or_app. right. now left. }
    split; [reflexivity|]. rewrite !filter_app. reflexivity.
Qed.

Lemma unhealthy_branch_fails_fast_witness :
  (snd (fst (do_apply_changes Samples.net_up Samples.offline_window []))
   = (0, 1)
   /\ In (EvReport 0 1)
         (snd (do_apply_changes Samples.net_up Samples.offline_window []))
   /\ filter is_request
         (snd (do_apply_changes Samples.net_up Samples.offline_window []))
      = [])
  /\ snd (fst (do_apply_changes Samples.net_up Samples.mixed_window []))
     = (2, 3).
Proof.
  split.
  - destruct (unhealthy_branch_fails_fast Samples.net_up
                Samples.offline_window) as (_ & _ & H).
    destruct (H []) as (Ht & Hr & _ & Hq).
    split; [rewrite Ht; reflexivity|]. split; [exact Hr|].
    rewrite Hq. reflexivity.
  - destruct (unhealthy_branch_fails_fast Samples.net_up
                Samples.mixed_window) as (_ & _ & H).
    destruct (H []) as (Ht & _). rewrite Ht. reflexivity.
Defined.

End DispatchFacts.

(* ================================================================== *)
(** ** Further properties of the comparison table *)
(* ================================================================== *)

Module TableFacts.
Import Py BranchManager BranchManagerFacts DictFacts.

(** *** Which article a cell shows *)

Lemma cell_collect_article bn' all a c bn :
  cell (collect_article bn' all a) c bn
  = if String.eqb (get (a_code a) "") c && String.eqb bn' bn
    then Some (branch_data_of a)
    else cell all c bn.
Proof.
  unfold cell, collect_article. cbv zeta. rewrite od_get_update.
  set (code := get (a_code a) "").
  destruct (String.eqb code c) eqn:Ec; cbn [andb].
  - apply String.eqb_eq in Ec. subst c. unfold od_mem.
    destruct (od_get code all) as [e|] eqn:Hg; cbn [negb].
    + rewrite Hg. cbn [option_map ae_branches]. apply od_get_set.
    + rewrite od_get_app, Hg. cbn [od_get]. rewrite String.eqb_refl.
      cbn [option_map ae_branches]. rewrite od_get_set. reflexivity.
  - destruct (negb (od_mem code all)); [|reflexivity].
    rewrite od_get_app. destruct (od_get c all); [reflexivity|].
    cbn [od_get]. now rewrite Ec.
Qed.

Lemma find_app {A} (f : A -> bool) (l1 l2 : list A) :
  find f (l1 ++ l2)
  = match find f l1 with
    | Some x => Some x
    | None => find f l2
    end.
Proof.
  induction l1 as [|x l1 IH]; cbn; [reflexivity|].
  destruct (f x); [reflexivity|exact IH].
Qed.

Lemma last_with_code_app c l1 l2 :
  last_with_code c (l1 ++ l2)
  = match last_with_code c l2 with
    | Some a => Some a
    | None => last_with_code c l1
    end.
Proof. unfold last_with_code. now rewrite rev_app_distr, find_app. Qed.

Lemma last_with_code_cons c a l :
  last_with_code c (a :: l)
  = match last_with_code c l with
    | Some x => Some x
    | None => if String.eqb (get (a_code a) "") c then Some a else None
    end.
Proof.
  change (a :: l) with ([a] ++ l). rewrite last_with_code_app.
  destruct (last_with_code c l); [reflexivity|].
  unfold last_with_code. cbn. now destruct (String.eqb _ c).
Qed.

Lemma cell_collect_loop bn' c bn arts : forall all,
  cell (fold_left (collect_article bn') arts all) c bn
  = if String.eqb bn' bn then
      match last_with_code c arts with
      | Some a => Some (branch_data_of a)
      | None => cell all c bn
      end
    else cell all c bn.
Proof.
  induction arts as [|a rest IH]; intros all; cbn [fold_left].
  - unfold last_with_code. cbn. now destruct (String.eqb bn' bn).
  - rewrite IH, last_with_code_cons, cell_collect_article.
    destruct (String.eqb bn' bn); [|now rewrite andb_false_r].
    rewrite andb_true_r.
    destruct (last_with_code c rest); [reflexivity|].
    now destruct (String.eqb (get (a_code a) "") c).
Qed.

Lemma snapshot_of_cons b bs bn :
  snapshot_of (b :: bs) bn
  = (if String.eqb (name b) bn then articles b else []) ++ snapshot_of bs bn.
Proof.
  unfold snapshot_of. cbn [filter].
  destruct (String.eqb (name b) bn); reflexivity.
Qed.

Lemma cell_collect_branches c bn bs : forall all,
  cell (fold_left collect_branch bs all) c bn
  = match last_with_code c (snapshot_of bs bn) with
    | Some a => Some (branch_data_of a)
    | None => cell all c bn
    end.
Proof.
  induction bs as [|b rest IH]; intros all; cbn [fold_left].
  - reflexivity.
  - rewrite IH, snapshot_of_cons, last_with_code_app.
    destruct (last_with_code c (snapshot_of rest bn)); [reflexivity|].
    unfold collect_branch. rewrite cell_collect_loop.
    destruct (String.eqb (name b) bn); reflexivity.
Qed.

Lemma collect_articles_cell bs c data bn :
  In (c, data) (collect_articles bs) ->
  od_get bn (ae_branches data)
  = option_map branch_data_of (last_with_code c (snapshot_of bs bn)).
Proof.
  intros Hin.
  assert (Hget : od_get c (collect_articles bs) = Some data).
  { apply od_get_In; [|assumption].
    rewrite collect_articles_keys. apply first_seen_NoDup. }
  pose proof (cell_collect_branches c bn bs []) as Hc.
  fold (collect_articles bs) in Hc. unfold cell in Hc at 1.
  rewrite Hget in Hc. rewrite Hc.
  destruct (last_with_code c (snapshot_of bs bn)); reflexivity.
Qed.

(** X10. The cell of a row under an enabled branch is read from the last
    article carrying the row's code in the snapshot of that branch (of
    the enabled branches of that name, if several share it): a code
    listed twice in a snapshot shows its later entry, and a branch
    without the code shows the default of the comparison. *)
Theorem cell_shows_last_article_with_code (w : MainWindow) (r : Row) :
  In r (rows_data w) ->
  row_values r
  = map (fun b =>
           dimension_value (compare_type w)
             (option_map branch_data_of
                (last_with_code (row_code r)
                   (snapshot_of (enabled_branches_of w) (name b)))))
        (enabled_branches_of w).
Proof.
  intros Hin. unfold rows_data in Hin.
  apply rows_loop_In in Hin. destruct Hin as ([c data] & Hitem & ->).
  cbn [make_row row_values row_code].
  apply map_ext. intros b.
  now rewrite (collect_articles_cell _ _ _ _ Hitem).
Qed.

Lemma cell_shows_last_article_with_code_witness :
  row_values Samples.twice_row
  = map (fun b =>
           dimension_value PRICE
             (option_map branch_data_of
                (last_with_code "1001"
                   (snapshot_of (enabled_branches_of Samples.twice_window)
                                (name b)))))
        (enabled_branches_of Samples.twice_window).
Proof.
  apply (cell_shows_last_article_with_code Samples.twice_window
           Samples.twice_row).
  vm_compute. left. reflexivity.
Defined.

(** *** Codes of a single branch *)

Lemma dimension_value_default ct : truthy (dimension_value ct None) = false.
Proof.
  unfold dimension_value.
  destruct (String.eqb ct NAME); [reflexivity|].
  destruct (String.eqb ct PRICE); [reflexivity|].
  destruct (String.eqb ct GROUP); [reflexivity|].
  destruct (String.eqb ct STOCK); reflexivity.
Qed.

Lemma last_with_code_In c l a :
  last_with_code c l = Some a -> In a l /\ get (a_code a) "" = c.
Proof.
  unfold last_with_code. intros H. apply find_some in H.
  destruct H as [Hin Hc]. split; [now apply in_rev|now apply String.eqb_eq].
Qed.

Lemma snapshot_of_In bs bn a :
  In a (snapshot_of bs bn) ->
  exists b, In b bs /\ name b = bn /\ In a (articles b).
Proof.
  unfold snapshot_of. intros H. apply in_flat_map in H.
  destruct H as (b & Hb & Ha). apply filter_In in Hb.
  destruct Hb as [Hb Hn]. apply String.eqb_eq in Hn.
  exists b. repeat split; assumption.
Qed.

(** X11. A code that only one branch name holds among the enabled
    branches is never flagged: the other columns show the falsy default,
    which the comparison skips. *)
Theorem code_of_one_branch_is_not_flagged (w : MainWindow) (r : Row)
  (branch_name : string) :
  In r (rows_data w) ->
  (forall b a, In b (enabled_branches_of w) -> In a (articles b) ->
               get (a_code a) "" = row_code r -> name b = branch_name) ->
  row_has_diff r = false.
Proof.
  intros Hin Hone.
  assert (Hrow : exists data,
             In (row_code r, data) (collect_articles (enabled_branches_of w))
             /\ r = make_row (compare_type w) (ref_branch_of w)
                             (enabled_branches_of w) (row_code r, data)).
  { unfold rows_data in Hin. apply rows_loop_In in Hin.
    destruct Hin as ([c data] & Hitem & ->). now exists data. }
  destruct Hrow as (data & Hitem & Hr).
  assert (Hv : row_values r
               = map (fun b =>
                        dimension_value (compare_type w)
                          (option_map branch_data_of
                             (last_with_code (row_code r)
                                (snapshot_of (enabled_branches_of w)
                                             (name b)))))
                     (enabled_branches_of w)).
  { rewrite Hr at 1. cbn [make_row row_values].
    apply map_ext. intros b.
    now rewrite (collect_articles_cell _ _ _ _ Hitem). }
  assert (Hd : row_has_diff r = has_diff_of (row_values r))
    by (rewrite Hr; reflexivity).
  rewrite Hd. destruct (has_diff_of (row_values r)) eqn:E; [|reflexivity].
  exfalso. apply has_diff_of_spec in E.
  destruct E as (v1 & v2 & H1 & H2 & T1 & T2 & Hne).
  set (val := fun bn =>
         dimension_value (compare_type w)
           (option_map branch_data_of
              (last_with_code (row_code r)
                 (snapshot_of (enabled_branches_of w) bn)))).
  assert (Hval : forall v, In v (row_values r) -> truthy v = true ->
                           v = val branch_name).
  { intros v Hvin Ht. rewrite Hv in Hvin. apply in_map_iff in Hvin.
    destruct Hvin as (b & <- & Hb). fold (val (name b)) in Ht |- *.
    unfold val in Ht.
    destruct (last_with_code (row_code r)
                (snapshot_of (enabled_branches_of w) (name b)))
      as [a|] eqn:Hl.
    - apply last_with_code_In in Hl. destruct Hl as [Ha Hc].
      apply snapshot_of_In in Ha. destruct Ha as (b2 & Hb2 & Hn2 & Ha2).
      rewrite <- Hn2. now rewrite (Hone b2 a Hb2 Ha2 Hc).
    - cbn [option_map] in Ht. rewrite dimension_value_default in Ht.
      discriminate Ht. }
  apply Hne. now rewrite (Hval v1 H1 T1), (Hval v2 H2 T2).
Qed.

Lemma code_of_one_branch_is_not_flagged_witness :
  row_has_diff (mkRow "2002" (PStr "Y") [PInt 0; PInt 90] false) = false.
Proof.
  apply (code_of_one_branch_is_not_flagged Samples.price_window _ "B").
  - vm_compute. right. left. reflexivity.
  - intros b a Hb Ha Hc. cbn in Hb.
    destruct Hb as [<-|[<-|[]]]; [|reflexivity].
    cbn in Ha. destruct Ha as [<-|[]]. cbn in Hc. discriminate Hc.
Defined.

(** *** The reference branch *)

Lemma clear_reference_filter (bs1 bs2 : list Branch) :
  map (fun b => set_as_reference b false) bs1
  = map (fun b => set_as_reference b false) bs2 ->
  map (fun b => set_as_reference b false) (filter enabled bs1)
  = map (fun b => set_as_reference b false) (filter enabled bs2).
Proof.
  revert bs2. induction bs1 as [|b1 l1 IH]; intros [|b2 l2] H;
    try discriminate H; [reflexivity|].
  cbn [map] in H.
  pose proof (f_equal (@hd _ (set_as_reference b1 false)) H) as Hb.
  pose proof (f_equal (@tl _) H) as Hl. cbn [hd tl] in Hb, Hl. clear H.
  cbn [filter].
  assert (He : enabled b1 = enabled b2)
    by (change (enabled (set_as_reference b1 false)
                = enabled (set_as_reference b2 false)); now rewrite Hb).
  rewrite He. destruct (enabled b2); cbn [map]; [f_equal; [exact Hb|]|];
    now apply IH.
Qed.

Lemma collect_branch_clear all b :
  collect_branch all (set_as_reference b false) = collect_branch all b.
Proof. reflexivity. Qed.

Lemma collect_articles_clear bs : forall all,
  fold_left collect_branch (map (fun b => set_as_reference b false) bs) all
  = fold_left collect_branch bs all.
Proof.
  induction bs as [|b l IH]; intros all; cbn [map fold_left]; [reflexivity|].
  now rewrite collect_branch_clear, IH.
Qed.

Lemma row_values_clear ct data (bs : list Branch) :
  map (fun b => dimension_value ct (od_get (name b) (ae_branches data)))
      (map (fun b => set_as_reference b false) bs)
  = map (fun b => dimension_value ct (od_get (name b) (ae_branches data))) bs.
Proof. rewrite map_map. reflexivity. Qed.

Lemma rows_loop_facts ct d rb1 rb2 eb1 eb2 items :
  map (fun b => set_as_reference b false) eb1
  = map (fun b => set_as_reference b false) eb2 ->
  map row_facts (rows_loop ct d rb1 eb1 items)
  = map row_facts (rows_loop ct d rb2 eb2 items).
Proof.
  intros Heb.
  assert (Hrow : forall item,
             row_facts (make_row ct rb1 eb1 item)
             = row_facts (make_row ct rb2 eb2 item)).
  { intros [c data]. unfold row_facts. cbn [make_row row_code row_values row_has_diff].
    rewrite <- (row_values_clear ct data eb1), <- (row_values_clear ct data eb2).
    now rewrite Heb. }
  induction items as [|item rest IH]; cbn [rows_loop map]; [reflexivity|].
  cbv zeta.
  assert (Hd : row_has_diff (make_row ct rb1 eb1 item)
               = row_has_diff (make_row ct rb2 eb2 item)).
  { pose proof (Hrow item) as H. unfold row_facts in H. congruence. }
  rewrite Hd. destruct (d && negb _); cbn [map]; [exact IH|].
  now rewrite Hrow, IH.
Qed.

(** X12. Which branch carries the star has no part in the comparison:
    two registries that differ in their [is_reference] flags only give
    the same rows, with the same codes, the same values per branch and the
    same difference flags; at most the name column changes. *)
Theorem reference_choice_leaves_comparison_alone (w : MainWindow)
  (bs' : list Branch) :
  map (fun b => set_as_reference b false) bs'
  = map (fun b => set_as_reference b false) (branches w) ->
  map row_facts (rows_data (set_branches w bs')) = map row_facts (rows_data w).
Proof.
  intros H. unfold rows_data, enabled_branches_of.
  cbn [branches set_branches compare_type diff_only].
  pose proof (clear_reference_filter _ _ H) as Heb.
  assert (Hall : collect_articles (filter enabled bs')
                 = collect_articles (filter enabled (branches w))).
  { unfold collect_articles.
    rewrite <- (collect_articles_clear (filter enabled bs')),
            <- (collect_articles_clear (filter enabled (branches w))).
    now rewrite Heb. }
  rewrite Hall. now apply rows_loop_facts.
Qed.

Lemma reference_choice_leaves_comparison_alone_witness :
  map row_facts
      (rows_data (set_branches Samples.price_window
                    [set_as_reference Samples.branch_a false;
                     set_as_reference Samples.branch_b true]))
  = map row_facts (rows_data Samples.price_window).
Proof.
  apply (reference_choice_leaves_comparison_alone Samples.price_window).
  reflexivity.
Defined.

(** *** Pages *)

Lemma py_slice_segment {A} (l : list A) (s e : Z) :
  (exists pre post, l = pre ++ py_slice l s e ++ post)
  /\ (s <= e -> Z.of_nat (List.length (py_slice l s e)) <= e - s).
Proof.
  unfold py_slice. cbv zeta.
  set (n := Z.of_nat (List.length l)).
  set (cs := if s <? 0 then Z.max (s + n) 0 else Z.min s n).
  set (ce := if e <? 0 then Z.max (e + n) 0 else Z.min e n).
  split.
  - exists (firstn (Z.to_nat cs) l),
           (skipn (Z.to_nat (ce - cs)) (skipn (Z.to_nat cs) l)).
    now rewrite !firstn_skipn.
  - intros Hse. rewrite length_firstn.
    assert (Hb : ce - cs <= e - s).
    { subst cs ce. destruct (s <? 0) eqn:Es; destruct (e <? 0) eqn:Ee;
        lia. }
    lia.
Qed.

(** X13. With a positive page size the table never shows more than
    [items_per_page] rows, and what it shows is always a run of
    consecutive rows of the pass, whatever the page number is (beyond the
    last page, zero or negative). *)
Theorem page_is_bounded_segment (w : MainWindow) :
  0 < items_per_page w ->
  let t := table (update_table w) in
  Z.of_nat (List.length t) <= items_per_page w
  /\ exists pre post, rows_data w = pre ++ t ++ post.
Proof.
  intros Hsize. cbv zeta. cbn [table update_table]. unfold paginate.
  assert (E : (0 <? items_per_page w) = true) by now apply Z.ltb_lt.
  rewrite E.
  destruct (py_slice_segment (rows_data w)
              ((current_page w - 1) * items_per_page w)
              ((current_page w - 1) * items_per_page w + items_per_page w))
    as [Hseg Hlen].
  split; [|exact Hseg]. specialize (Hlen ltac:(lia)). lia.
Qed.

Lemma page_is_bounded_segment_witness :
  let t := table (update_table (set_paging Samples.price_window (-1) 1)) in
  Z.of_nat (List.length t) <= 1
  /\ exists pre post, rows_data Samples.price_window = pre ++ t ++ post.
Proof.
  apply (page_is_bounded_segment (set_paging Samples.price_window (-1) 1)).
  reflexivity.
Defined.

(** X14. Within the page count no page is empty: when the pass has rows
    and the page size is positive, every page from 1 to
    [get_total_pages] shows at least one row, and every page before the
    last shows exactly [items_per_page] rows. *)
Theorem pages_in_range_are_filled (w : MainWindow) (page size : Z) :
  0 < size -> rows_data w <> [] ->
  let w1 := update_table (set_paging w page size) in
  1 <= page <= get_total_pages w1 ->
  table w1 <> []
  /\ (page < get_total_pages w1 -> Z.of_nat (List.length (table w1)) = size).
Proof.
  intros Hsize Hrows. cbv zeta. intros [Hp1 Hp2].
  rewrite table_window by lia.
  unfold get_total_pages in *.
  cbn [items_per_page total_items update_table set_paging] in *.
  rewrite rows_data_set_paging in *.
  assert (E : (size =? 0) = false) by (apply Z.eqb_neq; lia).
  rewrite E in *.
  set (n := Z.of_nat (List.length (rows_data w))) in *.
  assert (Hn : 0 < n).
  { subst n. destruct (rows_data w); [congruence|cbn; lia]. }
  set (c := - (- n / size)) in *.
  assert (Hc : size * (c - 1) < n /\ n <= size * c).
  { subst c. pose proof (Z.div_mod (- n) size ltac:(lia)) as Hdm.
    pose proof (Z.mod_pos_bound (- n) size Hsize) as Hm. nia. }
  assert (Hstart : size * (page - 1) < n) by nia.
  assert (Hlen : Z.of_nat (List.length
                   (firstn (Z.to_nat size)
                      (skipn (Z.to_nat (size * (page - 1))) (rows_data w))))
                 = Z.min size (n - size * (page - 1))).
  { rewrite length_firstn, length_skipn. subst n. nia. }
  split.
  - intros Hnil. rewrite Hnil in Hlen. cbn in Hlen. lia.
  - intros Hlt. rewrite Hlen. assert (size * page <= size * (c - 1)) by nia.
    lia.
Qed.

Lemma pages_in_range_are_filled_witness :
  let w1 := update_table (set_paging Samples.price_window 2 1) in
  table w1 <> []
  /\ (2 < get_total_pages w1 -> Z.of_nat (List.length (table w1)) = 1).
Proof.
  apply (pages_in_range_are_filled Samples.price_window 2 1).
  - reflexivity.
  - vm_compute. discriminate.
  - vm_compute. split; discriminate.
Defined.

End TableFacts.

(* ================================================================== *)
(** ** Further properties of the formatting helpers *)
(* ================================================================== *)

Module FormatFacts.
Import Py PyFacts BranchManager BranchManagerFacts.

Lemma append_not_empty_r a b : b <> "" -> a +++ b <> "".
Proof. intros Hb. destruct a; [exact Hb|discriminate]. Qed.

Lemma append_not_empty_l a b : a <> "" -> a +++ b <> "".
Proof. intros Ha. destruct a; [congruence|discriminate]. Qed.

Lemma grouped_not_empty n : group3 (digits n) <> "".
Proof.
  destruct (digits_last n) as (s & ->).
  destruct (group3_last s (digit_char (n mod 10))) as (s' & ->).
  apply snoc_not_empty.
Qed.

(** The digits of a negative argument are those of its last digit. *)
Lemma digits_nonneg_repr n : exists n', 0 <= n' /\ digits n = digits n'.
Proof.
  destruct (Z.ltb_spec n 0) as [Hneg|Hpos]; [|now exists n].
  pose proof (Z.mod_pos_bound n 10 ltac:(lia)) as Hm.
  exists (n mod 10). split; [lia|]. unfold digits.
  rewrite (Z.log2_nonpos n) by lia. cbn [Z.to_nat digits_fuel].
  assert (E1 : (n <? 10) = true) by (apply Z.ltb_lt; lia).
  assert (E2 : (n mod 10 <? 10) = true) by (apply Z.ltb_lt; lia).
  rewrite E1, E2, Z.mod_mod by lia. reflexivity.
Qed.

Lemma fixed0_not_empty neg m e : fmt_fixed 0 (FFin neg m e) <> "".
Proof.
  unfold fmt_fixed. apply append_not_empty_r, append_not_empty_l.
  apply grouped_not_empty.
Qed.

Lemma fmt_fixed_int_not_empty i s : fmt_fixed_int 0 i = Some s -> s <> "".
Proof.
  unfold fmt_fixed_int, float_of_int. intros H.
  destruct (i =? 0).
  - assert (Hs : s = fmt_fixed 0 (FFin false 0 0)) by congruence.
    rewrite Hs. apply fixed0_not_empty.
  - destruct (to_binary64 (Z.abs i) 1) as [[m e]|]; [|discriminate H].
    assert (Hs : s = fmt_fixed 0 (FFin (i <? 0) m e)) by congruence.
    rewrite Hs. apply fixed0_not_empty.
Qed.

Lemma stripped_fixed2_not_empty neg m e :
  rstrip "." (rstrip "0" (fmt_fixed 2 (FFin neg m e))) <> "".
Proof.
  unfold fmt_fixed. change (10 ^ Z.of_nat 2) with 100.
  set (c := round_half_even (mag_num m e * 100) (mag_den e)).
  rewrite pad_two_digits by (apply Z.mod_pos_bound; lia).
  destruct (digits_nonneg_repr (c / 100)) as (n' & Hn' & ->).
  rewrite <- app_assoc_str.
  rewrite strip_fixed2 by (try assumption; apply Z.mod_pos_bound; lia).
  apply append_not_empty_l, append_not_empty_r, grouped_not_empty.
Qed.

Lemma digits_not_empty n : digits n <> "".
Proof. destruct (digits_last n) as (s & ->). apply snoc_not_empty. Qed.

Lemma repr_layout_not_empty ds k : repr_layout ds k <> "".
Proof.
  unfold repr_layout. cbv zeta.
  destruct (_ || _).
  - apply append_not_empty_r, append_not_empty_r. discriminate.
  - destruct (_ <=? 0); [discriminate|].
    destruct (_ <=? _).
    + apply append_not_empty_r, append_not_empty_r. discriminate.
    + apply append_not_empty_r. discriminate.
Qed.

Lemma repr_float_not_empty f : repr_float f <> "".
Proof.
  destruct f as [|neg|neg m e]; cbn [repr_float].
  - discriminate.
  - destruct neg; discriminate.
  - apply append_not_empty_r. destruct (m =? 0); [discriminate|].
    destruct (shortest_decimal m e) as [d k]. apply repr_layout_not_empty.
Qed.

Lemma str_truthy_not_empty v : truthy v = true -> str v <> "".
Proof.
  destruct v as [|b|i|f|s]; cbn [truthy str]; intros H.
  - discriminate H.
  - subst b. discriminate.
  - unfold str_int. destruct (i <? 0); [discriminate|apply digits_not_empty].
  - apply repr_float_not_empty.
  - intros ->. discriminate H.
Qed.

Lemma blank_test_is_falsy v :
  is_none v || eq_empty_str v || eq_zero v = negb (truthy v).
Proof.
  destruct v as [|b|i|f|s]; cbn [is_none eq_empty_str eq_zero truthy orb].
  - reflexivity.
  - reflexivity.
  - now rewrite negb_involutive.
  - destruct f as [|neg|neg m e]; cbn [float_is_zero]; try reflexivity.
    now rewrite negb_involutive.
  - now rewrite orb_false_r, negb_involutive.
Qed.

(** X15. A price cell is blank exactly when the value is falsy: [None],
    [False], the empty string and a numeric zero render as the empty
    text, and every other value (a number, a text that does not parse, an
    infinity or a NaN) renders as some non-empty text.  So the comparison
    skips exactly the values that [format_price] shows blank. *)
Theorem price_cell_blank_iff_falsy (v : pyval) :
  format_price v = "" <-> truthy v = false.
Proof.
  pose proof (blank_test_is_falsy v) as Hb. split.
  - intros H. destruct (truthy v) eqn:T; [exfalso|reflexivity].
    pose proof (str_truthy_not_empty v T) as Hs.
    unfold format_price in H. rewrite Hb in H. cbn [negb] in H.
    destruct (float v) as [num|]; [|contradiction].
    destruct num as [|neg|neg m e]; try contradiction.
    destruct (int_of_float (FFin neg m e)) as [i|]; [|contradiction].
    destruct (float_eq_int (FFin neg m e) i).
    + destruct (fmt_fixed_int 0 i) as [s|] eqn:Hf; [|contradiction].
      now apply (fmt_fixed_int_not_empty i s Hf).
    + now apply (stripped_fixed2_not_empty neg m e).
  - intros T. apply format_empty. now rewrite Hb, T.
Qed.

End FormatFacts.

(* ================================================================== *)
(** ** Further properties of the middleware *)
(* ================================================================== *)

Module MiddlewareFacts.
Import Py HolooApi HolooApiFacts.

(** *** [execute_with_retry] *)

Lemma retry_loop_spec {A} (func : nat -> call_outcome A) (n : nat) :
  forall k last,
  let run := retry_loop func n k last in
  (snd run <= k + n)%nat
  /\ (forall a, fst run = inl a ->
        exists j, (j < n)%nat /\ func (k + j)%nat = Returned a
                  /\ snd run = S (k + j)
                  /\ forall i, (i < j)%nat ->
                       exists msg, func (k + i)%nat = Failed msg)
  /\ (forall err, fst run = inr err ->
        snd run = (k + n)%nat
        /\ (forall i, (i < n)%nat -> exists msg, func (k + i)%nat = Failed msg)
        /\ err = match n with
                 | O => last
                 | S n' => match func (k + n')%nat with
                           | Failed msg => Some msg
                           | Returned _ => last
                           end
                 end).
Proof.
  induction n as [|n IH]; intros k last; cbn [retry_loop]; cbv zeta.
  - cbn [fst snd]. split; [lia|]. split; [intros a H; discriminate H|].
    intros err H. injection H as <-. split; [lia|].
    split; [intros i Hi; lia|reflexivity].
  - destruct (func k) as [a0|msg] eqn:Hk.
    + cbn [fst snd]. split; [lia|]. split.
      * intros a H. injection H as <-. exists O.
        rewrite Nat.add_0_r. split; [lia|]. split; [exact Hk|].
        split; [reflexivity|]. intros i Hi. lia.
      * intros err H. discriminate H.
    + destruct (IH (S k) (Some msg)) as (Hle & Hok & Hfail).
      split; [lia|]. split.
      * intros a H. destruct (Hok a H) as (j & Hj & Hf & Hs & Hbefore).
        exists (S j). rewrite Nat.add_succ_r. cbn [Nat.add] in Hf, Hs.
        split; [lia|]. split; [exact Hf|]. split; [exact Hs|].
        intros [|i] Hi.
        -- rewrite Nat.add_0_r. now exists msg.
        -- rewrite Nat.add_succ_r. apply (Hbefore i). lia.
      * intros err H. destruct (Hfail err H) as (Hs & Hall & He).
        split; [lia|]. split.
        -- intros [|i] Hi.
           ++ rewrite Nat.add_0_r. now exists msg.
           ++ rewrite Nat.add_succ_r. apply (Hall i). lia.
        -- rewrite He. destruct n as [|n'].
           ++ rewrite Nat.add_0_r, Hk. reflexivity.
           ++ rewrite Nat.add_succ_r. cbn [Nat.add].
              destruct (func (S (k + n'))) as [a1|m1] eqn:E; [|reflexivity].
              destruct (Hall n' ltac:(lia)) as (m2 & Hm2).
              cbn [Nat.add] in Hm2. congruence.
Qed.

Lemma retry_loop_first {A} (func : nat -> call_outcome A) (j : nat) (a : A) :
  forall n k last,
  (j < n)%nat -> func (k + j)%nat = Returned a ->
  (forall i, (i < j)%nat -> exists msg, func (k + i)%nat = Failed msg) ->
  retry_loop func n k last = (inl a, S (k + j)).
Proof.
  induction j as [|j IH]; intros n k last Hj Hf Hbefore.
  - destruct n as [|n]; [lia|]. cbn [retry_loop].
    rewrite Nat.add_0_r in *. now rewrite Hf.
  - destruct n as [|n]; [lia|]. cbn [retry_loop].
    destruct (Hbefore O ltac:(lia)) as (msg & Hm).
    rewrite Nat.add_0_r in Hm. rewrite Hm.
    rewrite (IH n (S k) (Some msg)).
    + now rewrite Nat.add_succ_r.
    + lia.
    + now rewrite Nat.add_succ_r in Hf.
    + intros i Hi. specialize (Hbefore (S i) ltac:(lia)).
      now rewrite Nat.add_succ_r in Hbefore.
Qed.

(** X16. [execute_with_retry] calls the function at most [max_retries]
    times, one call after the other without a pause; it returns what the
    first call that does not raise returns, and makes no call after it;
    when every call raises it raises the error of the last one, after
    exactly [max_retries] calls; with [max_retries] at zero or less it
    makes no call and reaches [raise None]. *)
Theorem execute_with_retry_outcome {A : Type}
  (func : nat -> call_outcome A) (max_retries : Z) :
  let run := execute_with_retry func max_retries in
  let n := Z.to_nat max_retries in
  (snd run <= n)%nat
  /\ (forall a, fst run = inl a ->
        exists j, (j < n)%nat /\ func j = Returned a /\ snd run = S j
                  /\ forall i, (i < j)%nat -> exists msg, func i = Failed msg)
  /\ (forall j a, (j < n)%nat -> func j = Returned a ->
        (forall i, (i < j)%nat -> exists msg, func i = Failed msg) ->
        run = (inl a, S j))
  /\ (forall err, fst run = inr err ->
        snd run = n
        /\ (forall i, (i < n)%nat -> exists msg, func i = Failed msg)
        /\ err = match n with
                 | O => None
                 | S n' => match func n' with
                           | Failed msg => Some msg
                           | Returned _ => None
                           end
                 end).
Proof.
  cbv zeta. unfold execute_with_retry.
  destruct (retry_loop_spec func (Z.to_nat max_retries) O None)
    as (Hle & Hok & Hfail).
  split; [exact Hle|]. split; [exact Hok|]. split; [|exact Hfail].
  intros j a Hj Hf Hbefore.
  apply (retry_loop_first func j a _ O None Hj); assumption.
Qed.

(** *** The choice of the driver *)

Lemma find_split {A} (f : A -> bool) (l : list A) (x : A) :
  find f l = Some x ->
  exists l1 l2, l = l1 ++ x :: l2 /\ f x = true
                /\ forall y, In y l1 -> f y = false.
Proof.
  induction l as [|y l IH]; cbn; [discriminate|].
  destruct (f y) eqn:E; intros H.
  - injection H as <-. exists [], l. split; [reflexivity|].
    split; [exact E|]. intros z [].
  - destruct (IH H) as (l1 & l2 & -> & Hx & Hl1).
    exists (y :: l1), l2. split; [reflexivity|]. split; [exact Hx|].
    intros z [<-|Hz]; [exact E|now apply Hl1].
Qed.

Lemma filter_head_split {A} (f : A -> bool) (l : list A) (x : A) (t : list A) :
  filter f l = x :: t ->
  exists l1 l2, l = l1 ++ x :: l2 /\ f x = true
                /\ forall y, In y l1 -> f y = false.
Proof.
  induction l as [|y l IH]; cbn; [discriminate|].
  destruct (f y) eqn:E; intros H.
  - injection H as <- _. exists [], l. split; [reflexivity|].
    split; [exact E|]. intros z [].
  - destruct (IH H) as (l1 & l2 & -> & Hx & Hl1).
    exists (y :: l1), l2. split; [reflexivity|]. split; [exact Hx|].
    intros z [<-|Hz]; [exact E|now apply Hl1].
Qed.

Lemma installed_spec d installed :
  existsb (String.eqb d) installed = true <-> In d installed.
Proof.
  rewrite existsb_exists. split.
  - intros (x & Hx & E). apply String.eqb_eq in E. now subst.
  - intros H. exists d. split; [exact H|apply String.eqb_refl].
Qed.

Lemma preferred_are_sql_server d :
  In d preferred_drivers -> contains "SQL Server" d = true.
Proof.
  intros H. cbn in H.
  repeat (destruct H as [<-|H]; [vm_compute; reflexivity|]). destruct H.
Qed.

(** X17. The driver [get_db_connection] connects with is always an
    installed one whose name contains [SQL Server]; the selection fails
    exactly when no installed driver has such a name.  When a preferred
    driver is installed, the one chosen is the first of the preference
    list that is installed; otherwise it is the first installed driver
    whose name contains [SQL Server]. *)
Theorem driver_selection (installed : list string) :
  (select_driver installed = None <->
   forall d, In d installed -> contains "SQL Server" d = false)
  /\ forall d, select_driver installed = Some d ->
       In d installed /\ contains "SQL Server" d = true
       /\ ((exists p, In p preferred_drivers /\ In p installed) ->
           exists l1 l2, preferred_drivers = l1 ++ d :: l2
                         /\ forall p, In p l1 -> ~ In p installed)
       /\ ((forall p, In p preferred_drivers -> ~ In p installed) ->
           exists l1 l2, installed = l1 ++ d :: l2
                         /\ forall x, In x l1 ->
                              contains "SQL Server" x = false).
Proof.
  unfold select_driver.
  destruct (find (fun driver => existsb (String.eqb driver) installed)
                 preferred_drivers) as [p|] eqn:Hfind.
  - destruct (find_split _ _ _ Hfind) as (l1 & l2 & Hl & Hp & Hl1).
    apply installed_spec in Hp.
    assert (Hpref : In p preferred_drivers)
      by (rewrite Hl; apply in_or_app; right; now left).
    split.
    + split; [discriminate|]. intros Hnone.
      pose proof (preferred_are_sql_server p Hpref) as Hc.
      rewrite (Hnone p Hp) in Hc. discriminate Hc.
    + intros d Hd. injection Hd as <-.
      split; [exact Hp|]. split; [now apply preferred_are_sql_server|].
      split.
      * intros _. exists l1, l2. split; [exact Hl|].
        intros q Hq Hin. apply installed_spec in Hin.
        rewrite (Hl1 q Hq) in Hin. discriminate Hin.
      * intros Hnone. exfalso. exact (Hnone p Hpref Hp).
  - assert (Hnone : forall p, In p preferred_drivers -> ~ In p installed).
    { intros p Hp Hin. apply installed_spec in Hin.
      rewrite (find_none _ _ Hfind p Hp) in Hin. discriminate Hin. }
    destruct (filter (contains "SQL Server") installed) as [|d0 t] eqn:Hf.
    + split.
      * split; [|reflexivity]. intros _ d Hd.
        destruct (contains "SQL Server" d) eqn:E; [|reflexivity].
        assert (In d (filter (contains "SQL Server") installed))
          by (apply filter_In; split; assumption).
        rewrite Hf in H. destruct H.
      * intros d Hd. discriminate Hd.
    + destruct (filter_head_split _ _ _ _ Hf) as (l1 & l2 & Hl & Hc & Hl1).
      assert (Hin : In d0 installed)
        by (rewrite Hl; apply in_or_app; right; now left).
      split.
      * split; [discriminate|]. intros Hall.
        rewrite (Hall d0 Hin) in Hc. discriminate Hc.
      * intros d Hd. injection Hd as <-.
        split; [exact Hin|]. split; [exact Hc|]. split.
        -- intros (p & Hp & Hpi). exfalso. exact (Hnone p Hp Hpi).
        -- intros _. exists l1, l2. split; [exact Hl|exact Hl1].
Qed.

(** *** Statements of a batch *)

Lemma process_item_accepted db results n item :
  process_item db (results, n) item
  = if accepted item then
      match db_execute db n (update_query (updates_of item) (item_code item))
      with
      | Rowcount rc =>
          if 0 <? rc then
            (mkResults (success results
                          ++ [mkSuccessEntry (item_code item)
                                             (map fst (updates_of item))])
                       (failed results), S n)
          else (mkResults (success results)
                          (failed results
                             ++ [mkFailedEntry (item_code item)
                                               "کالا پیدا نشد"]), S n)
      | ExecRaised msg =>
          (mkResults (success results)
                     (failed results ++ [mkFailedEntry (item_code item) msg]),
           S n)
      end
    else (fst (process_item db (results, n) item), n).
Proof.
  unfold process_item, accepted, item_code. cbv zeta.
  destruct (truthy _); cbn [negb andb]; [|reflexivity].
  destruct (updates_of item) as [|u us]; reflexivity.
Qed.

Lemma process_item_skips db1 db2 results n item :
  accepted item = false ->
  process_item db1 (results, n) item = process_item db2 (results, n) item.
Proof.
  intros H. unfold process_item, accepted in *. cbv zeta.
  destruct (truthy _); cbn [negb andb] in *; [|reflexivity].
  destruct (updates_of item) as [|u us]; [reflexivity|discriminate H].
Qed.

(** The statements a batch sends to the database, in order. *)
Lemma item_loop_statements db items : forall results n,
  snd (fold_left (process_item db) items (results, n))
  = (n + List.length (filter accepted items))%nat.
Proof.
  induction items as [|item rest IH]; intros results n; cbn [fold_left filter].
  - cbn. lia.
  - rewrite (process_item_accepted db results n item).
    destruct (accepted item) eqn:Ha.
    + destruct (db_execute db n _) as [msg|rc]; [|destruct (0 <? rc)];
        rewrite IH; cbn [List.length]; lia.
    + rewrite IH. lia.
Qed.

Lemma item_loop_depends db1 db2 items : forall results n,
  (forall k item,
      nth_error (filter accepted items) k = Some item ->
      db_execute db1 (n + k)%nat
        (update_query (updates_of item) (item_code item))
      = db_execute db2 (n + k)%nat
          (update_query (updates_of item) (item_code item))) ->
  fold_left (process_item db1) items (results, n)
  = fold_left (process_item db2) items (results, n).
Proof.
  induction items as [|item rest IH]; intros results n Hsame;
    cbn [fold_left]; [reflexivity|].
  cbn [filter] in Hsame. destruct (accepted item) eqn:Ha.
  - rewrite (process_item_accepted db1), (process_item_accepted db2), Ha.
    pose proof (Hsame O item eq_refl) as H0. rewrite Nat.add_0_r in H0.
    rewrite H0.
    assert (Hrest : forall k item0,
               nth_error (filter accepted rest) k = Some item0 ->
               db_execute db1 (S n + k)%nat
                 (update_query (updates_of item0) (item_code item0))
               = db_execute db2 (S n + k)%nat
                   (update_query (updates_of item0) (item_code item0))).
    { intros k item0 Hk. specialize (Hsame (S k) item0 Hk).
      now rewrite Nat.add_succ_r in Hsame. }
    destruct (db_execute db2 n _) as [msg|rc]; [|destruct (0 <? rc)];
      now apply IH.
  - rewrite (process_item_skips db1 db2 results n item Ha).
    destruct (process_item db2 (results, n) item) as [results' n'] eqn:E.
    assert (n' = n).
    { pose proof (process_item_accepted db2 results n item) as H.
      rewrite Ha, E in H. now injection H. }
    subst n'. now apply IH.
Qed.

Lemma item_loop_success db (all items : list Item) :
  (forall it, In it items -> In it all) ->
  forall results n,
  let P := fun e => exists item,
             In item all /\ accepted item = true
             /\ se_code e = item_code item
             /\ se_updated e = map fst (updates_of item) in
  Forall P (success results) ->
  Forall P (success (fst (fold_left (process_item db) items (results, n)))).
Proof.
  induction items as [|item rest IH]; intros Hsub results n P HP;
    cbn [fold_left]; [exact HP|].
  assert (HP' : Forall P (success (fst (process_item db (results, n) item)))).
  { rewrite (process_item_accepted db results n item).
    destruct (accepted item) eqn:Ha.
    - destruct (db_execute db n _) as [msg|rc]; [exact HP|].
      destruct (0 <? rc); [|exact HP]. cbn [fst success].
      apply Forall_app. split; [exact HP|]. constructor; [|constructor].
      exists item. split; [apply Hsub; now left|]. split; [exact Ha|].
      split; reflexivity.
    - cbn [fst]. unfold process_item, accepted in *. cbv zeta.
      destruct (truthy _); cbn [negb andb] in *; [|exact HP].
      destruct (updates_of item); [exact HP|discriminate Ha]. }
  destruct (process_item db (results, n) item) as [results' n'].
  cbn [fst] in HP'. apply IH; [|exact HP'].
  intros it Hit. apply Hsub. now right.
Qed.

(** X18. The item loop of [/batch/update] sends one statement for each
    item that has a code and at least one editable field, in the order
    of the list, and nothing else: the number of statements is the number
    of such items, the run depends on the database only through its
    answers to these statements at their positions, and every entry of
    the success list names an accepted item and the columns that item
    carries. *)
Theorem batch_statements (db : Database) (items : list Item) :
  let run := fold_left (process_item db) items (mkResults [] [], O) in
  snd run = List.length (filter accepted items)
  /\ (forall db',
        (forall k item,
            nth_error (filter accepted items) k = Some item ->
            db_execute db' k (update_query (updates_of item) (item_code item))
            = db_execute db k
                (update_query (updates_of item) (item_code item))) ->
        fold_left (process_item db') items (mkResults [] [], O) = run)
  /\ Forall (fun e => exists item,
                In item items /\ accepted item = true
                /\ se_code e = item_code item
                /\ se_updated e = map fst (updates_of item))
            (success (fst run)).
Proof.
  cbv zeta. split; [|split].
  - now rewrite item_loop_statements.
  - intros db' Hsame. apply item_loop_depends. exact Hsame.
  - apply (item_loop_success db items items); [auto|constructor].
Qed.

(** *** The update of one article *)

Lemma do_update_returned updates code a r :
  do_update updates code a = Returned r ->
  db_connect (at_db a) = None
  /\ match r with
     | None => at_fetch a = Fetched false
     | Some affected =>
         at_fetch a = Fetched true
         /\ db_execute (at_db a) 1%nat (update_query updates code)
            = Rowcount affected
         /\ db_commit (at_db a) = None
     end.
Proof.
  unfold do_update. cbn [first_error].
  destruct (db_connect (at_db a)); [discriminate|].
  destruct (db_cursor (at_db a)); [discriminate|].
  destruct (exec_error _); [discriminate|].
  destruct (at_fetch a) as [msg|[|]]; [discriminate| |].
  - destruct (db_execute (at_db a) 1%nat _) as [msg|affected];
      [discriminate|].
    destruct (db_commit (at_db a)); [discriminate|].
    destruct (db_cursor_close (at_db a)); [discriminate|].
    destruct (db_close (at_db a)); [discriminate|].
    intros H. injection H as <-. repeat split; reflexivity.
  - destruct (db_cursor_close (at_db a)); [discriminate|].
    destruct (db_close (at_db a)); [discriminate|].
    intros H. injection H as <-. split; reflexivity.
Qed.

(** X19. [/article/<code>/update] answers [NO_FIELDS] (400) when the body
    has none of the keys [name], [price], [group_code], whatever the
    database does.  Otherwise it calls [do_update] up to three times and
    answers by the first call that does not raise: 200 with the columns
    it set when that call found the article, ran the [UPDATE] and
    committed; [NOT_FOUND] (404) when that call's existence check found
    nothing; and [UPDATE_ERROR] (500) with the text of the third error
    when all three calls raised. *)
Theorem update_article_answer (attempts : nat -> Attempt) (code : string)
  (data : Item) :
  let updates := updates_of data in
  let call := fun k => do_update updates (PStr code) (attempts k) in
  let first_to_return := fun (k : nat) (r : option Z) =>
    (k < 3)%nat /\ call k = Returned r
    /\ forall i, (i < k)%nat -> exists msg, call i = Failed msg in
  match update_article attempts code data with
  | (Updated c fields affected, status) =>
      status = 200 /\ c = PStr code /\ fields = map fst updates
      /\ updates <> []
      /\ exists k,
           first_to_return k (Some affected)
           /\ at_fetch (attempts k) = Fetched true
           /\ db_execute (at_db (attempts k)) 1%nat
                (update_query updates (PStr code)) = Rowcount affected
           /\ db_commit (at_db (attempts k)) = None
  | (Refused error error_code, status) =>
      (updates = [] /\ error_code = "NO_FIELDS" /\ status = 400)
      \/ (updates <> [] /\ error_code = "NOT_FOUND" /\ status = 404
          /\ exists k, first_to_return k None
                       /\ at_fetch (attempts k) = Fetched false)
      \/ (updates <> [] /\ error_code = "UPDATE_ERROR" /\ status = 500
          /\ (forall i, (i < 3)%nat -> exists msg, call i = Failed msg)
          /\ call 2%nat = Failed error)
  end.
Proof.
  cbv zeta. unfold update_article.
  destruct (updates_of data) as [|u us] eqn:Hu.
  { left. repeat split; reflexivity. }
  rewrite <- Hu.
  assert (Hne : updates_of data <> []) by (rewrite Hu; discriminate).
  set (call := fun k => do_update (updates_of data) (PStr code) (attempts k)).
  destruct (retry_loop_spec call 3 O None) as (_ & Hok & Hfail).
  change (retry_loop call 3 0 None)
    with (execute_with_retry call MAX_RETRIES) in Hok, Hfail.
  destruct (fst (execute_with_retry call MAX_RETRIES))
    as [[affected|]|[msg|]].
  - destruct (Hok (Some affected) eq_refl) as (k & Hk & Hcall & _ & Hbefore).
    cbn [Nat.add] in Hcall, Hbefore.
    destruct (do_update_returned _ _ _ _ Hcall) as (_ & Hf & Hx & Hc).
    split; [reflexivity|]. split; [reflexivity|]. split; [reflexivity|].
    split; [exact Hne|]. exists k.
    split; [split; [exact Hk|split; [exact Hcall|exact Hbefore]]|].
    split; [exact Hf|]. split; [exact Hx|exact Hc].
  - destruct (Hok None eq_refl) as (k & Hk & Hcall & _ & Hbefore).
    cbn [Nat.add] in Hcall, Hbefore.
    destruct (do_update_returned _ _ _ _ Hcall) as (_ & Hf).
    right. left. split; [exact Hne|]. split; [reflexivity|].
    split; [reflexivity|]. exists k.
    split; [split; [exact Hk|split; [exact Hcall|exact Hbefore]]|exact Hf].
  - destruct (Hfail (Some msg) eq_refl) as (_ & Hall & He).
    cbn [Nat.add] in Hall, He.
    right. right. split; [exact Hne|]. split; [reflexivity|].
    split; [reflexivity|]. split; [exact Hall|].
    destruct (Hall 2%nat ltac:(lia)) as (m & Hm).
    change (call 2%nat = Failed msg). rewrite Hm in He |- *. congruence.
  - destruct (Hfail None eq_refl) as (_ & Hall & He).
    cbn [Nat.add] in Hall, He.
    destruct (Hall 2%nat ltac:(lia)) as (m & Hm).
    rewrite Hm in He. discriminate He.
Qed.

End MiddlewareFacts.

(* ================================================================== *)
(** ** The client against the middleware *)
(* ================================================================== *)

Module EndToEndFacts.
Import Py BranchManager BranchManagerFacts ClientFacts DispatchFacts Wire.

Lemma probe_verdict (r : Result) (log : list event) :
  (if negb (opt_truthy (r_success r))
   then
     if eq_str (get (r_status r) (PStr "")) "DB_AUTH_ERROR"
        || eq_str (get (r_status r) (PStr "")) "DB_NOT_FOUND"
     then ret AUTH_ERROR else ret API_DOWN
   else ret CONNECTED) log
  = (health_table (Responded 200 (inl "")) r, log).
Proof.
  unfold health_table. change (200 =? 200) with true. cbv iota.
  destruct (opt_truthy (r_success r)); cbn [negb]; [reflexivity|].
  destruct (r_status r) as [[|b|i|f|s]|]; cbn [get eq_str orb];
    try reflexivity.
  destruct (_ || _); reflexivity.
Qed.

Lemma check_route_verdict api_key database db :
  health_table (Responded 200 (inl ""))
    (fst (check_route (Some api_key) database db))
  = health_of api_key database
      (HolooApi.first_error
         [HolooApi.db_connect db; HolooApi.db_cursor db;
          HolooApi.exec_error
            (HolooApi.db_execute db O (HolooApi.mkQuery "SELECT 1" []));
          HolooApi.db_cursor_close db; HolooApi.db_close db]).
Proof.
  unfold check_route, HolooApi.verify_api_key, health_of.
  destruct (String.eqb api_key HolooApi.API_KEY); cbn [negb];
    [|reflexivity].
  unfold HolooApi.check_database.
  destruct (String.eqb database ""); [reflexivity|].
  destruct (HolooApi.first_error _) as [msg|]; [|reflexivity].
  unfold HolooApi.classify.
  destruct (HolooApi.contains "Login failed" msg);
    destruct (HolooApi.contains "28000" msg);
    destruct (HolooApi.contains "Cannot open database" msg);
    destruct (HolooApi.contains "4060" msg); reflexivity.
Qed.

(** X20. A health check whose ping is answered with 200 and whose
    database probe reaches the middleware ends as follows: [API_DOWN] when
    the client's key is not the middleware's, or when the branch has no
    database name; otherwise [CONNECTED] when the middleware opens the
    database and runs its test query, [AUTH_ERROR] when the database
    error mentions a failed login or a database that cannot be opened
    (or their codes 28000 and 4060), and [API_DOWN] for any other
    database error.  Two requests are sent. *)
Theorem health_against_middleware (net : nat -> request -> outcome)
  (c : HolooAPIClient) (log : list event) (db : HolooApi.Database)
  (body : string + Result) :
  1 <= cl_retry c ->
  net (requests_made log) (ping_request (cl_branch c)) = Responded 200 body ->
  net (S (requests_made log)) (build_request c POST "/check/db" NoData)
  = deliver (check_route (Some (cl_api_key c)) (database (cl_branch c)) db) ->
  fst (check_health net c log)
  = health_of (cl_api_key c) (database (cl_branch c))
      (HolooApi.first_error
         [HolooApi.db_connect db; HolooApi.db_cursor db;
          HolooApi.exec_error
            (HolooApi.db_execute db O (HolooApi.mkQuery "SELECT 1" []));
          HolooApi.db_cursor_close db; HolooApi.db_close db])
  /\ requests_made (snd (check_health net c log))
     = (requests_made log + 2)%nat.
Proof.
  intros Hretry Hping Hprobe.
  unfold check_health, bind. rewrite send_eq.
  fold (ping_request (cl_branch c)). rewrite Hping.
  change (200 =? 200) with true. cbn [negb]. cbv beta.
  unfold _request.
  assert (Hn : exists n, Z.to_nat (cl_retry c) = S n).
  { exists (Z.to_nat (cl_retry c - 1)). lia. }
  destruct Hn as (n & ->).
  assert (Hrm : requests_made (log ++ [EvRequest (ping_request (cl_branch c))])
                = S (requests_made log)) by apply requests_made_request.
  unfold deliver in Hprobe. rewrite <- Hrm in Hprobe.
  rewrite (attempts_respond _ _ _ _ _ _ _ _ _ Hprobe).
  rewrite probe_verdict. cbn [fst snd].
  split; [apply check_route_verdict|].
  rewrite requests_made_request, Hrm. lia.
Qed.

Lemma health_against_middleware_witness :
  fst (check_health Samples.net_login_failed Samples.keyed_client [])
  = AUTH_ERROR.
Proof.
  refine (proj1 (health_against_middleware Samples.net_login_failed
                   Samples.keyed_client [] Samples.db_login_failed
                   (inl "pong") _ _ _)).
  - change (1 <= 3). lia.
  - reflexivity.
  - reflexivity.
Defined.

Lemma batch_route_counts api_key db items r code :
  batch_route api_key db items = (r, code) ->
  opt_truthy (r_success r) = true ->
  fst (reported_counts r) + snd (reported_counts r)
  = Z.of_nat (List.length items).
Proof.
  unfold batch_route, HolooApi.verify_api_key.
  assert (Hbody : forall resp,
             resp = HolooApi.batch_update db (map HolooApi.Object items) ->
             (result_of_body (fst resp), snd resp) = (r, code) ->
             opt_truthy (r_success r) = true ->
             fst (reported_counts r) + snd (reported_counts r)
             = Z.of_nat (List.length items)).
  { intros resp -> H Ht. injection H as <- _.
    unfold HolooApi.batch_update in *.
    destruct items as [|i0 rest]; [discriminate Ht|].
    change (map HolooApi.Object (i0 :: rest))
      with (HolooApi.Object i0 :: map HolooApi.Object rest) in *.
    cbv iota in *.
    destruct (HolooApi.first_error [HolooApi.db_connect db;
                                    HolooApi.db_cursor db]);
      [discriminate Ht|].
    change (HolooApi.Object i0 :: map HolooApi.Object rest)
      with (map HolooApi.Object (i0 :: rest)) in *.
    rewrite HolooApiFacts.item_loop_objects in *.
    pose proof (HolooApiFacts.item_loop_count db (i0 :: rest)
                  (HolooApi.mkResults [] [], O)) as Hcount.
    cbv zeta in Hcount.
    destruct (fold_left (HolooApi.process_item db) (i0 :: rest)
                (HolooApi.mkResults [] [], O)) as [results n].
    cbn [fst HolooApi.success HolooApi.failed List.length] in Hcount.
    destruct (HolooApi.first_error [HolooApi.db_commit db;
                                    HolooApi.db_cursor_close db;
                                    HolooApi.db_close db]);
      [discriminate Ht|].
    cbn [fst result_of_body reported_counts r_summary get success_count
         failed_count HolooApi.success_count HolooApi.failed_count snd].
    cbn [List.length]. lia. }
  destruct api_key as [k|].
  - destruct (String.eqb k HolooApi.API_KEY).
    + destruct (HolooApi.batch_update db (map HolooApi.Object items))
        as [body st] eqn:E.
      intros H Ht.
      apply (Hbody (body, st));
        [first [exact (eq_sym E)|reflexivity]|exact H|exact Ht].
    + cbn. intros H Ht. injection H as <- _. discriminate Ht.
  - cbn. intros H Ht. injection H as <- _. discriminate Ht.
Qed.

(** X21. When every decoded answer to a batch request comes from the
    middleware (in front of whatever database, with whatever key), the
    tally of a dispatch cycle adds up to the number of pending changes:
    the middleware's summary accounts for every item it was sent, and the
    client for every change it did not send or got no summary for. *)
Theorem tally_against_middleware (net : nat -> request -> outcome)
  (w : MainWindow) (log : list event) :
  (forall n rq code r items dp,
      net n rq = Responded code (inr r) ->
      rq_json rq = Some (BatchItems items, dp) ->
      exists db,
        batch_route (rq_api_key rq) db (map item_of items) = (r, code)) ->
  let tally := snd (fst (do_apply_changes net w log)) in
  fst tally + snd tally = Z.of_nat (List.length (pending_changes w)).
Proof.
  intros Hnet. cbv zeta. rewrite cycle_tally.
  assert (Hsummary : forall n rq code r items dp,
             net n rq = Responded code (inr r) ->
             rq_json rq = Some (BatchItems items, dp) ->
             opt_truthy (r_success r) = true ->
             fst (reported_counts r) + snd (reported_counts r)
             = Z.of_nat (List.length items)).
  { intros n rq code r items dp Hn Hj Ht.
    destruct (Hnet n rq code r items dp Hn Hj) as (db & Hroute).
    rewrite (batch_route_counts _ _ _ _ _ Hroute Ht).
    now rewrite length_map. }
  pose proof (apply_groups_adds net w (changes_by_branch (pending_changes w))
                Hsummary (0, 0) log) as Hsum. cbv zeta in Hsum.
  rewrite Hsum. unfold changes_by_branch.
  rewrite (Permutation_length (group_loop_concat (pending_changes w) [])).
  cbn. lia.
Qed.

Lemma tally_against_middleware_witness :
  let tally := snd (fst (do_apply_changes Samples.net_middleware
                           Samples.keyed_window [])) in
  fst tally + snd tally = 4.
Proof.
  apply (tally_against_middleware Samples.net_middleware
           Samples.keyed_window []).
  intros n rq code r items dp Hn Hj.
  exists Samples.db_ok. unfold Samples.net_middleware in Hn.
  rewrite Hj in Hn. unfold deliver in Hn.
  destruct (batch_route (rq_api_key rq) Samples.db_ok (map item_of items))
    as [r0 c0].
  cbn [fst snd] in Hn. congruence.
Defined.

(** X22. A pending change reaches the middleware as an item with the
    article's code and one column: [Sel_Price] for a price edit, [A_Name]
    for a name edit, [M_Code] for a group edit, each with the new value.
    A change of any other field, or one whose code is empty, becomes an
    item the middleware rejects without a statement. *)
Theorem change_translation (change : Change) :
  let item := item_of (make_item change) in
  let v := ch_new_value change in
  HolooApi.item_code item = PStr (ch_code change)
  /\ HolooApi.updates_of item
     = (if String.eqb (ch_field change) PRICE then [("Sel_Price", v)]
        else if String.eqb (ch_field change) NAME then [("A_Name", v)]
        else if String.eqb (ch_field change) GROUP then [("M_Code", v)]
        else [])
  /\ (ch_code change = ""
      \/ (String.eqb (ch_field change) PRICE = false
          /\ String.eqb (ch_field change) NAME = false
          /\ String.eqb (ch_field change) GROUP = false) ->
      HolooApi.rejected item /\ HolooApi.accepted item = false).
Proof.
  cbv zeta. unfold make_item, item_of.
  split; [|split].
  - destruct (String.eqb (ch_field change) PRICE);
      [|destruct (String.eqb (ch_field change) NAME);
        [|destruct (String.eqb (ch_field change) GROUP)]]; reflexivity.
  - destruct (String.eqb (ch_field change) PRICE);
      [|destruct (String.eqb (ch_field change) NAME);
        [|destruct (String.eqb (ch_field change) GROUP)]]; reflexivity.
  - intros [Hc|(Hp & Hn & Hg)].
    + unfold HolooApi.rejected, HolooApi.accepted.
      destruct (String.eqb (ch_field change) PRICE);
        [|destruct (String.eqb (ch_field change) NAME);
          [|destruct (String.eqb (ch_field change) GROUP)]];
        cbn; rewrite Hc; cbn; split; auto.
    + rewrite Hp, Hn, Hg. unfold HolooApi.rejected, HolooApi.accepted.
      cbn. split; [now right|apply andb_false_r].
Qed.

Lemma change_translation_witness :
  HolooApi.rejected
    (item_of (make_item (mkChange "1001" "A" STOCK (PInt 3) (PInt 4))))
  /\ HolooApi.accepted
       (item_of (make_item (mkChange "1001" "A" STOCK (PInt 3) (PInt 4))))
     = false.
Proof.
  refine (proj2 (proj2 (change_translation
                          (mkChange "1001" "A" STOCK (PInt 3) (PInt 4)))) _).
  right. repeat split; reflexivity.
Defined.

End EndToEndFacts.

(* ================================================================== *)
(** ** The name column, and the enabled box during dispatch *)
(* ================================================================== *)

Module ColumnFacts.
Import Py BranchManager BranchManagerFacts DictFacts TableFacts.

Lemma od_set_keys {V} (k : string) (v : V) (d : odict V) :
  od_keys (od_set k v d) = add_key (od_keys d) k.
Proof.
  unfold add_key, mem. induction d as [|[k0 v0] t IH]; cbn; [reflexivity|].
  rewrite (String.eqb_sym k k0).
  destruct (String.eqb k0 k) eqn:E; cbn.
  - apply String.eqb_eq in E. now subst k0.
  - unfold od_keys in IH. rewrite IH.
    destruct (existsb (String.eqb k) (map fst t)); reflexivity.
Qed.

Lemma entry_keys_collect_article bn all a c :
  entry_keys (collect_article bn all a) c
  = if String.eqb (get (a_code a) "") c
    then add_key (entry_keys all c) bn
    else entry_keys all c.
Proof.
  unfold entry_keys, collect_article. cbv zeta. rewrite od_get_update.
  set (code := get (a_code a) "").
  destruct (String.eqb code c) eqn:Ec.
  - apply String.eqb_eq in Ec. subst c. unfold od_mem.
    destruct (od_get code all) as [e|] eqn:Hg; cbn [negb].
    + rewrite Hg. cbn [option_map ae_branches]. apply od_set_keys.
    + rewrite od_get_app, Hg. cbn [od_get]. rewrite String.eqb_refl.
      cbn [option_map ae_branches]. apply od_set_keys.
  - destruct (negb (od_mem code all)); [|reflexivity].
    rewrite od_get_app. destruct (od_get c all); [reflexivity|].
    cbn [od_get]. now rewrite Ec.
Qed.

Lemma entry_keys_collect_loop bn c arts : forall all,
  entry_keys (fold_left (collect_article bn) arts all) c
  = fold_left add_key
      (map (fun _ => bn)
           (filter (fun a => String.eqb (get (a_code a) "") c) arts))
      (entry_keys all c).
Proof.
  induction arts as [|a rest IH]; intros all; cbn [fold_left filter map];
    [reflexivity|].
  rewrite IH, entry_keys_collect_article.
  destruct (String.eqb (get (a_code a) "") c); reflexivity.
Qed.

Lemma entry_keys_collect_branches c bs : forall all,
  entry_keys (fold_left collect_branch bs all) c
  = fold_left add_key
      (flat_map (fun b =>
                   map (fun _ => name b)
                       (filter (fun a => String.eqb (get (a_code a) "") c)
                               (articles b))) bs)
      (entry_keys all c).
Proof.
  induction bs as [|b rest IH]; intros all; cbn [fold_left flat_map];
    [reflexivity|].
  rewrite IH, fold_left_app. unfold collect_branch.
  now rewrite entry_keys_collect_loop.
Qed.

Lemma first_holder_name c bs :
  hd_error
    (flat_map (fun b =>
                 map (fun _ => name b)
                     (filter (fun a => String.eqb (get (a_code a) "") c)
                             (articles b))) bs)
  = option_map name (find (holds_code c) bs).
Proof.
  induction bs as [|b rest IH]; cbn [flat_map find]; [reflexivity|].
  unfold holds_code at 1.
  induction (articles b) as [|a arts IHa]; cbn [filter existsb map app].
  - exact IH.
  - destruct (String.eqb (get (a_code a) "") c); cbn; [reflexivity|exact IHa].
Qed.

Lemma first_seen_head l : hd_error (first_seen l) = hd_error l.
Proof. destruct l; reflexivity. Qed.

Lemma entry_head bs c data :
  In (c, data) (collect_articles bs) ->
  hd_error (od_keys (ae_branches data))
  = option_map name (find (holds_code c) bs).
Proof.
  intros Hin.
  assert (Hget : od_get c (collect_articles bs) = Some data).
  { apply od_get_In; [|assumption].
    rewrite collect_articles_keys. apply first_seen_NoDup. }
  pose proof (entry_keys_collect_branches c bs []) as Hk.
  fold (collect_articles bs) in Hk. unfold entry_keys in Hk at 1.
  rewrite Hget in Hk. rewrite Hk. cbn [entry_keys od_get].
  rewrite fold_add_key_first_seen. cbn [app].
  rewrite (filter_ext_in_bool _ (fun _ => true)) by reflexivity.
  assert (Hid : forall l : list string, filter (fun _ => true) l = l).
  { induction l as [|x l IH]; cbn; [reflexivity|now rewrite IH]. }
  rewrite Hid, first_seen_head. apply first_holder_name.
Qed.

(** X23. The name column of a row shows the name the reference branch
    gives the code when a branch is starred, enabled and holds the code;
    otherwise it shows the name given by the first enabled branch, in
    registry order, whose snapshot lists the code.  In both cases the name
    is that of the last article with the code in that branch's
    snapshot. *)
Theorem name_column_source (w : MainWindow) (r : Row) :
  In r (rows_data w) ->
  let shown := fun branch_name =>
    option_map branch_data_of
      (last_with_code (row_code r)
         (snapshot_of (enabled_branches_of w) branch_name)) in
  row_ref_name r
  = match match ref_branch_of w with
          | Some rb => shown (name rb)
          | None => None
          end with
    | Some d => bd_name d
    | None =>
        match find (holds_code (row_code r)) (enabled_branches_of w) with
        | Some b0 => match shown (name b0) with
                     | Some d => bd_name d
                     | None => PStr ""
                     end
        | None => PStr ""
        end
    end.
Proof.
  intros Hin. cbv zeta. unfold rows_data in Hin.
  apply rows_loop_In in Hin. destruct Hin as ([c data] & Hitem & ->).
  cbn [make_row row_ref_name row_code]. unfold ref_name_of.
  pose proof (entry_head _ _ _ Hitem) as Hhead.
  assert (Hcell : forall bn,
             od_get bn (ae_branches data)
             = option_map branch_data_of
                 (last_with_code c (snapshot_of (enabled_branches_of w) bn)))
    by (intros bn; now apply collect_articles_cell).
  assert (Href : match ref_branch_of w with
                 | Some rb => od_get (name rb) (ae_branches data)
                 | None => None
                 end
                 = match ref_branch_of w with
                   | Some rb =>
                       option_map branch_data_of
                         (last_with_code c
                            (snapshot_of (enabled_branches_of w) (name rb)))
                   | None => None
                   end).
  { destruct (ref_branch_of w); [apply Hcell|reflexivity]. }
  rewrite Href.
  set (R := match ref_branch_of w with
            | Some rb =>
                option_map branch_data_of
                  (last_with_code c
                     (snapshot_of (enabled_branches_of w) (name rb)))
            | None => None
            end).
  destruct R; [reflexivity|].
  destruct (ae_branches data) as [|[k d] rest] eqn:Hb.
  - cbn in Hhead.
    destruct (find (holds_code c) (enabled_branches_of w));
      [discriminate Hhead|reflexivity].
  - cbn in Hhead.
    destruct (find (holds_code c) (enabled_branches_of w)) as [b0|];
      [|discriminate Hhead].
    cbn in Hhead. injection Hhead as ->.
    rewrite <- (Hcell (name b0)). try rewrite Hb. cbn [od_get].
    now rewrite String.eqb_refl.
Qed.

Lemma name_column_source_witness :
  row_ref_name Samples.twice_row = PStr "X2".
Proof.
  rewrite (name_column_source Samples.twice_window Samples.twice_row).
  - reflexivity.
  - vm_compute. left. reflexivity.
Defined.

(** *** The enabled box and the dispatch *)

Lemma find_same_name (bs1 bs2 : list Branch) (bn : string) :
  map (fun b => on_enabled_changed b true) bs1
  = map (fun b => on_enabled_changed b true) bs2 ->
  match find (fun b => String.eqb (name b) bn) bs1,
        find (fun b => String.eqb (name b) bn) bs2 with
  | Some b1, Some b2 => on_enabled_changed b1 true = on_enabled_changed b2 true
  | None, None => True
  | _, _ => False
  end.
Proof.
  revert bs2. induction bs1 as [|b1 l1 IH]; intros [|b2 l2] H;
    try discriminate H; [exact I|].
  cbn [map] in H.
  pose proof (f_equal (@hd _ (on_enabled_changed b1 true)) H) as Hb.
  pose proof (f_equal (@tl _) H) as Hl. cbn [hd tl] in Hb, Hl. clear H.
  cbn [find].
  assert (Hn : name b1 = name b2)
    by (change (name (on_enabled_changed b1 true)
                = name (on_enabled_changed b2 true)); now rewrite Hb).
  rewrite Hn. destruct (String.eqb (name b2) bn); [exact Hb|now apply IH].
Qed.

Lemma client_request_same w w' b b' method endpoint data :
  api_key w' = api_key w -> timeout w' = timeout w ->
  on_enabled_changed b' true = on_enabled_changed b true ->
  build_request (client_of w' b') method endpoint data
  = build_request (client_of w b) method endpoint data.
Proof.
  intros Hk Ht Hb.
  change (build_request (client_of w' b') method endpoint data)
    with (build_request (mkClient (on_enabled_changed b' true) (api_key w')
                                  (timeout w') (retry w'))
                        method endpoint data).
  rewrite Hb, Hk, Ht. destruct method; reflexivity.
Qed.

(** X24. The dispatch never looks at the enabled box: two registries
    that differ in their [enabled] flags only give the same tally and the
    same traffic for the same groups, so unchecking a connected branch
    does not keep pending changes from being sent to it. *)
Theorem dispatch_ignores_enabled_box (net : nat -> request -> outcome)
  (w : MainWindow) (bs' : list Branch) (tally : Z * Z)
  (groups : odict (list Change)) (log : list event) :
  map (fun b => on_enabled_changed b true) bs'
  = map (fun b => on_enabled_changed b true) (branches w) ->
  apply_groups net (set_branches w bs') tally groups log
  = apply_groups net w tally groups log.
Proof.
  intros H. revert tally log.
  induction groups as [|[bn changes] rest IH]; intros tally log;
    cbn [apply_groups]; [reflexivity|].
  unfold bind.
  assert (Hg : apply_group net (set_branches w bs') tally (bn, changes) log
               = apply_group net w tally (bn, changes) log).
  { unfold apply_group. destruct tally as [s f].
    cbn [branches set_branches].
    pose proof (find_same_name bs' (branches w) bn H) as Hf.
    destruct (find (fun b => String.eqb (name b) bn) bs') as [b'|];
      destruct (find (fun b => String.eqb (name b) bn) (branches w)) as [b|];
      try contradiction; [|reflexivity].
    assert (Hs : status b' = status b)
      by (change (status (on_enabled_changed b' true)
                  = status (on_enabled_changed b true)); now rewrite Hf).
    rewrite Hs. destruct (negb (is_connected (status b))); [reflexivity|].
    unfold bind, batch_update, _request.
    rewrite (client_request_same w (set_branches w bs') b b' POST
               "/batch/update" (BatchItems (map make_item changes))
               eq_refl eq_refl Hf).
    reflexivity. }
  rewrite Hg. destruct (apply_group net w tally (bn, changes) log).
  apply IH.
Qed.

Lemma dispatch_ignores_enabled_box_witness :
  apply_groups Samples.net_up
    (set_branches Samples.price_window
       [on_enabled_changed Samples.branch_a false; Samples.branch_b])
    (0, 0) [("A", [Samples.change_for "A" 1600])] []
  = apply_groups Samples.net_up Samples.price_window (0, 0)
      [("A", [Samples.change_for "A" 1600])] [].
Proof.
  apply (dispatch_ignores_enabled_box Samples.net_up Samples.price_window).
  reflexivity.
Defined.

End ColumnFacts.
